(** * Potluck: the WatchNexus watch-party manager

    A shallow embedding of [wn_potluck/manager.py] (classes [PartyMember],
    [ChatMessage], [Potluck] and [PotluckManager]) and the properties of the
    session registry, the per-session state machine, the fan-out and the
    drift reconciliation.

    Conventions of the embedding
    - a Python [dict] is an association list in insertion order with unique
      keys ([dict_set] overwrites in place or appends, as CPython does);
    - a Python [str] is a [string] holding the UTF-8 bytes of the text;
      equality, emptiness and concatenation are those of the bytes, [s[:n]]
      cuts between code points ([utf8_prefix]), and [s.upper()] is modelled
      for ASCII text only ([upper], see there);
    - a value that comes out of a JSON message is a [pyval]: the handler
      stores such values without checking their type, and so does the model;
    - a JSON float is a binary64 [float], a JSON integer a [Z];
    - in the first part a party object is referred to by its key in
      [parties], every in-place mutation of the object is a [store] under
      that key, and the coroutines are run one at a time: each call runs to
      its end before the next one starts.  The manager takes no lock, so
      this is the program only as long as no call starts or goes on while
      another one waits in a send;
    - the part [Async] has the calls interleave at every
      [await websocket.send_json(...)], with party objects on a heap and
      the roster read again at every turn of a loop over it; the two
      parts are compared on a broadcast that runs alone
      ([_broadcast_alone]) and on the sessions played through at the end;
    - [uuid.uuid4()], [datetime.now()] and the outcome of
      [websocket.send_json] are read from oracles indexed by a counter. *)

From Stdlib Require Import List String Ascii ZArith NArith Bool Lia PeanoNat.
From Stdlib Require Import Strings.Byte.
From Stdlib Require Import Sorting.Sorted.
From Stdlib Require Import Floats.
Import ListNotations.
Local Open Scope string_scope.

Set Implicit Arguments.

(** ** Python values *)

#[warnings="-register-all"]
Inductive pyval : Type :=
| VNone
| VBool (b : bool)
| VInt (z : Z)
| VFloat (f : float)
| VStr (s : string)
| VList (l : list pyval)
| VDict (d : list (string * pyval)).

Inductive exn : Type :=
| TypeError
| KeyError
| OverflowError
| RuntimeError
| SendFailure.

Inductive result (A : Type) : Type :=
| Ok (a : A)
| Err (e : exn).
Arguments Err {A} e.

(** ** Dictionaries in insertion order *)

Definition dict (V : Type) : Type := list (string * V).

Fixpoint dict_get {V} (k : string) (d : dict V) : option V :=
  match d with
  | [] => None
  | (k', v) :: r => if String.eqb k' k then Some v else dict_get k r
  end.

Definition dict_mem {V} (k : string) (d : dict V) : bool :=
  match dict_get k d with Some _ => true | None => false end.

(** [d[k] = v]: an existing key keeps its place, a new one goes last. *)
Fixpoint dict_set {V} (k : string) (v : V) (d : dict V) : dict V :=
  match d with
  | [] => [(k, v)]
  | (k', v') :: r =>
      if String.eqb k' k then (k, v) :: r else (k', v') :: dict_set k v r
  end.

(** [del d[k]] / [d.pop(k, None)]: the entry of key [k] goes. *)
Definition dict_del {V} (k : string) (d : dict V) : dict V :=
  filter (fun kv => negb (String.eqb (fst kv) k)) d.

Definition dict_keys {V} (d : dict V) : list string := map fst d.
Definition dict_values {V} (d : dict V) : list V := map snd d.

(** [d.get(k, default)] *)
Definition dict_get_default {V} (k : string) (default : V) (d : dict V) : V :=
  match dict_get k d with Some v => v | None => default end.

(** ** Strings *)

Definition upper_ascii (c : ascii) : ascii :=
  let n := nat_of_ascii c in
  if (97 <=? n)%nat && (n <=? 122)%nat then ascii_of_nat (n - 32) else c.

(** The text is ASCII: every byte is below 128. *)
Definition is_ascii (s : string) : bool :=
  forallb (fun c => (nat_of_ascii c <? 128)%nat) (list_ascii_of_string s).

(** [s.upper()] on ASCII text: the letters a-z go to A-Z and every other
    character stays.  Python's [str.upper] also maps letters outside ASCII;
    on a string that is not [is_ascii] this function leaves them as they
    are, so statements about [upper] are made for ASCII input. *)
Fixpoint upper (s : string) : string :=
  match s with
  | EmptyString => EmptyString
  | String c r => String (upper_ascii c) (upper r)
  end.

(** [l[-n:]]: the last [n] items; the whole list when [n] is 0, as Python's
    slice from [-0] is the slice from 0. *)
Definition slice_last {A} (n : nat) (l : list A) : list A :=
  match n with
  | O => l
  | _ => skipn (List.length l - n) l
  end.

(** A byte of the form 10xxxxxx, which continues a code point. *)
Definition utf8_continuation (c : ascii) : bool :=
  let n := nat_of_ascii c in (128 <=? n)%nat && (n <? 192)%nat.

(** [len(s)]: the number of code points of the text. *)
Fixpoint utf8_length (s : string) : nat :=
  match s with
  | EmptyString => 0
  | String c r => (if utf8_continuation c then 0 else 1) + utf8_length r
  end.

(** [s[:n]]: the first [n] code points of the text, that is the bytes up
    to the byte that would start code point [n + 1]. *)
Fixpoint utf8_prefix (n : nat) (s : string) : string :=
  match s with
  | EmptyString => EmptyString
  | String c r =>
      if utf8_continuation c then String c (utf8_prefix n r)
      else match n with
           | O => EmptyString
           | S n' => String c (utf8_prefix n' r)
           end
  end.

(** [v[:n]] on a JSON value: strings and lists can be sliced, the other
    values raise (a dict raises [TypeError] as well, on the unhashable
    slice, up to Python 3.11). *)
Definition py_slice_to (n : nat) (v : pyval) : result pyval :=
  match v with
  | VStr s => Ok (VStr (utf8_prefix n s))
  | VList l => Ok (VList (firstn n l))
  | _ => Err TypeError
  end.

(** [v == s] where [s] is a string literal *)
Definition py_eq_str (v : pyval) (s : string) : bool :=
  match v with
  | VStr s' => String.eqb s' s
  | _ => false
  end.

(** ** Numbers: [abs(a - b) > threshold] *)

(** [float(z)]: nearest binary64, ties to even; too large an integer raises. *)
Definition float_of_int (z : Z) : result float :=
  match binary_normalize prec emax z 0 false with
  | S754_infinity _ => Err OverflowError
  | sf => Ok (SF2Prim sf)
  end.

(** [a - b]: integers (and booleans) subtract exactly, a float operand makes
    the difference a float, anything else is a [TypeError]. *)
Definition py_sub (a b : pyval) : result pyval :=
  let as_int (v : pyval) : option Z :=
    match v with
    | VBool true => Some 1%Z
    | VBool false => Some 0%Z
    | VInt z => Some z
    | _ => None
    end in
  let as_float (v : pyval) : option (result float) :=
    match v with
    | VFloat f => Some (Ok f)
    | _ => option_map float_of_int (as_int v)
    end in
  match as_int a, as_int b with
  | Some x, Some y => Ok (VInt (x - y))
  | _, _ =>
      match as_float a, as_float b with
      | Some (Ok x), Some (Ok y) => Ok (VFloat (x - y))
      | Some (Err e), Some _ => Err e
      | Some _, Some (Err e) => Err e
      | _, _ => Err TypeError
      end
  end.

Definition py_abs (v : pyval) : result pyval :=
  match v with
  | VBool b => Ok (VInt (if b then 1 else 0))
  | VInt z => Ok (VInt (Z.abs z))
  | VFloat f => Ok (VFloat (abs f))
  | _ => Err TypeError
  end.

(** [z > f] for an integer and a float: Python compares the exact values. *)
Definition int_gt_float (z : Z) (f : float) : bool :=
  match Prim2SF f with
  | S754_nan => false
  | S754_infinity s => s
  | S754_zero _ => (0 <? z)%Z
  | S754_finite s m e =>
      let fm := if s then Zneg m else Zpos m in
      if (0 <=? e)%Z then (fm * 2 ^ e <? z)%Z else (fm <? z * 2 ^ (- e))%Z
  end.

Definition py_gt_float (v : pyval) (f : float) : result bool :=
  match v with
  | VBool b => Ok (int_gt_float (if b then 1 else 0) f)
  | VInt z => Ok (int_gt_float z f)
  | VFloat x => Ok (f <? x)%float
  | _ => Err TypeError
  end.

(** [abs(a - b) > threshold] *)
Definition drift_exceeds (a b : pyval) (threshold : float) : result bool :=
  match py_sub a b with
  | Err e => Err e
  | Ok d =>
      match py_abs d with
      | Err e => Err e
      | Ok m => py_gt_float m threshold
      end
  end.

(** [v >= 0] as a test on a stored position (false when the comparison
    would raise or the value is a NaN). *)
Definition py_nonneg (v : pyval) : bool :=
  match v with
  | VBool _ => true
  | VInt z => (0 <=? z)%Z
  | VFloat f => (0 <=? f)%float
  | _ => false
  end.

(** ** The data classes *)

(** A connection handle; only [send_json] is ever called on it. *)
Definition WebSocket : Type := nat.

Module PartyMember.
Record t : Type := mk {
  user_id : string;
  username : string;
  websocket : WebSocket;
  is_host : bool;
  joined_at : string;
  is_ready : pyval;
  current_time : pyval
}.

Definition set_is_host (b : bool) (m : t) : t :=
  mk (user_id m) (username m) (websocket m) b (joined_at m) (is_ready m)
     (current_time m).

Definition set_is_ready (v : pyval) (m : t) : t :=
  mk (user_id m) (username m) (websocket m) (is_host m) (joined_at m) v
     (current_time m).

Definition set_current_time (v : pyval) (m : t) : t :=
  mk (user_id m) (username m) (websocket m) (is_host m) (joined_at m)
     (is_ready m) v.
End PartyMember.

Module ChatMessage.
Record t : Type := mk {
  id : string;
  user_id : string;
  username : string;
  message : pyval;
  timestamp : string;
  message_type : string
}.

(** [dataclasses.asdict] *)
Definition asdict (c : t) : pyval :=
  VDict [("id", VStr (id c)); ("user_id", VStr (user_id c));
         ("username", VStr (username c)); ("message", message c);
         ("timestamp", VStr (timestamp c));
         ("message_type", VStr (message_type c))].
End ChatMessage.

Module Potluck.
Record t : Type := mk {
  party_id : string;
  host_id : string;
  media_id : string;
  media_title : string;
  media_type : string;
  created_at : string;
  is_playing : bool;
  current_time : pyval;
  playback_rate : float;
  members : dict PartyMember.t;
  chat_history : list ChatMessage.t;
  max_chat_history : nat;
  require_ready : bool;
  sync_threshold : float
}.

Definition set_host_id (h : string) (p : t) : t :=
  mk (party_id p) h (media_id p) (media_title p) (media_type p)
     (created_at p) (is_playing p) (current_time p) (playback_rate p)
     (members p) (chat_history p) (max_chat_history p) (require_ready p)
     (sync_threshold p).

Definition set_is_playing (b : bool) (p : t) : t :=
  mk (party_id p) (host_id p) (media_id p) (media_title p) (media_type p)
     (created_at p) b (current_time p) (playback_rate p)
     (members p) (chat_history p) (max_chat_history p) (require_ready p)
     (sync_threshold p).

Definition set_current_time (v : pyval) (p : t) : t :=
  mk (party_id p) (host_id p) (media_id p) (media_title p) (media_type p)
     (created_at p) (is_playing p) v (playback_rate p)
     (members p) (chat_history p) (max_chat_history p) (require_ready p)
     (sync_threshold p).

Definition set_members (ms : dict PartyMember.t) (p : t) : t :=
  mk (party_id p) (host_id p) (media_id p) (media_title p) (media_type p)
     (created_at p) (is_playing p) (current_time p) (playback_rate p)
     ms (chat_history p) (max_chat_history p) (require_ready p)
     (sync_threshold p).

Definition set_chat_history (h : list ChatMessage.t) (p : t) : t :=
  mk (party_id p) (host_id p) (media_id p) (media_title p) (media_type p)
     (created_at p) (is_playing p) (current_time p) (playback_rate p)
     (members p) h (max_chat_history p) (require_ready p)
     (sync_threshold p).

(** The constructor call [Potluck(party_id=..., ..., created_at=...)] with
    the defaults of the other fields. *)
Definition new (party_id host_id media_id media_title media_type created_at
                : string) : t :=
  mk party_id host_id media_id media_title media_type created_at
     false (VFloat 0) 1 [] [] 100 true 2.

Definition add_member (m : PartyMember.t) (p : t) : t :=
  set_members (dict_set (PartyMember.user_id m) m (members p)) p.

(** [members.pop(user_id, None)]: the removed member, and the party after. *)
Definition remove_member (user_id : string) (p : t)
  : option PartyMember.t * t :=
  (dict_get user_id (members p), set_members (dict_del user_id (members p)) p).

Definition get_member_count (p : t) : nat := List.length (members p).

Definition add_chat_message (c : ChatMessage.t) (p : t) : t :=
  let h := (chat_history p ++ [c])%list in
  if (max_chat_history p <? List.length h)%nat
  then set_chat_history (slice_last (max_chat_history p) h) p
  else set_chat_history h p.

Definition to_dict (p : t) : pyval :=
  VDict [("party_id", VStr (party_id p)); ("host_id", VStr (host_id p));
         ("media_id", VStr (media_id p));
         ("media_title", VStr (media_title p));
         ("media_type", VStr (media_type p));
         ("created_at", VStr (created_at p));
         ("is_playing", VBool (is_playing p));
         ("current_time", current_time p);
         ("playback_rate", VFloat (playback_rate p));
         ("member_count", VInt (Z.of_nat (get_member_count p)));
         ("members",
           VList (map (fun m =>
                    VDict [("user_id", VStr (PartyMember.user_id m));
                           ("username", VStr (PartyMember.username m));
                           ("is_host", VBool (PartyMember.is_host m));
                           ("is_ready", PartyMember.is_ready m)])
                  (dict_values (members p))));
         ("require_ready", VBool (require_ready p))].
End Potluck.

(** ** The manager and its environment *)

Record PotluckManager : Type := {
  parties : dict Potluck.t;
  user_party_map : dict string
}.

(** One call of [send_json]: the connection, the message, and whether the
    call returned (true) or raised (false). *)
Definition Delivery : Type := (WebSocket * pyval * bool)%type.

Record World : Type := {
  manager : PotluckManager;
  wire : list Delivery;
  tick : nat
}.

Record UUID : Type := {
  uuid_bytes : list byte;
  uuid_str : string
}.

Inductive outcome (A : Type) : Type :=
| Ret (a : A)
| Raise (e : exn)
| Diverge.
Arguments Raise {A} e.
Arguments Diverge {A}.

(** A coroutine of the manager: it runs on the world and either returns,
    raises, or (the code-drawing loop only) fails to return. *)
Definition M (A : Type) : Type := World -> outcome A * World.

Definition ret {A} (a : A) : M A := fun w => (Ret a, w).
Definition raise {A} (e : exn) : M A := fun w => (Raise e, w).
Definition diverge {A} : M A := fun w => (Diverge, w).

Definition bind {A B} (c : M A) (k : A -> M B) : M B :=
  fun w =>
    match c w with
    | (Ret a, w') => k a w'
    | (Raise e, w') => (Raise e, w')
    | (Diverge, w') => (Diverge, w')
    end.

(** [try: c except Exception as e: h e] *)
Definition try_except {A} (c : M A) (h : exn -> M A) : M A :=
  fun w =>
    match c w with
    | (Raise e, w') => h e w'
    | r => r
    end.

Declare Scope potluck_scope.
Delimit Scope potluck_scope with potluck.
Notation "x <- c ;; k" := (bind c (fun x => k))
  (at level 61, c at next level, right associativity) : potluck_scope.
Notation "c ;; k" := (bind c (fun _ => k))
  (at level 61, right associativity) : potluck_scope.
Local Open Scope potluck_scope.

Definition lift {A} (r : result A) : M A :=
  match r with
  | Ok a => ret a
  | Err e => raise e
  end.

Definition get_parties : M (dict Potluck.t) :=
  fun w => (Ret (parties (manager w)), w).

Definition get_user_party_map : M (dict string) :=
  fun w => (Ret (user_party_map (manager w)), w).

Definition with_parties (ps : dict Potluck.t) (w : World) : World :=
  {| manager := {| parties := ps;
                   user_party_map := user_party_map (manager w) |};
     wire := wire w; tick := tick w |}.

Definition with_user_party_map (u : dict string) (w : World) : World :=
  {| manager := {| parties := parties (manager w); user_party_map := u |};
     wire := wire w; tick := tick w |}.

Definition set_parties (ps : dict Potluck.t) : M unit :=
  fun w => (Ret tt, with_parties ps w).

Definition set_user_party_map (u : dict string) : M unit :=
  fun w => (Ret tt, with_user_party_map u w).

(** The party object registered under [party_id] now holds [p]. *)
Definition store (party_id : string) (p : Potluck.t) : M unit :=
  ps <- get_parties ;; set_parties (dict_set party_id p ps).

(** [for x in l: body x] *)
Fixpoint for_each {A} (l : list A) (body : A -> M unit) : M unit :=
  match l with
  | [] => ret tt
  | x :: r => body x ;; for_each r body
  end.

(** ** PotluckManager *)

Section Manager.

(** The [tick]-th call of [uuid.uuid4()] and of [datetime.now(...)], and
    whether the [n]-th call of [send_json] (on connection [ws]) raises. *)
Variable uuid4 : nat -> UUID.
Variable utcnow : nat -> string.
Variable send_fails : nat -> WebSocket -> bool.

Definition next_tick (w : World) : World :=
  {| manager := manager w; wire := wire w; tick := S (tick w) |}.

Definition fresh_uuid : M UUID :=
  fun w => (Ret (uuid4 (tick w)), next_tick w).

(** [datetime.now(timezone.utc).isoformat()] *)
Definition now_isoformat : M string :=
  fun w => (Ret (utcnow (tick w)), next_tick w).

Definition record_send (ws : WebSocket) (message : pyval) (ok : bool)
                       (w : World) : World :=
  {| manager := manager w;
     wire := (wire w ++ [(ws, message, ok)])%list;
     tick := tick w |}.

(** [await websocket.send_json(message)] *)
Definition send_json (ws : WebSocket) (message : pyval) : M unit :=
  fun w =>
    if send_fails (List.length (wire w)) ws
    then (Raise SendFailure, record_send ws message false w)
    else (Ret tt, record_send ws message true w).

Definition chars : string := "ABCDEFGHJKLMNPQRSTUVWXYZ23456789".

(** [chars[b % len(chars)]] *)
Definition code_char (b : byte) : ascii :=
  match String.get (N.to_nat (Byte.to_N b) mod String.length chars) chars with
  | Some c => c
  | None => " "%char
  end.

Definition generate_party_code : M string :=
  u <- fresh_uuid ;;
  ret (string_of_list_ascii (map code_char (firstn 6 (uuid_bytes u)))).

Definition _send_to_member (member : PartyMember.t) (message : pyval)
  : M unit :=
  try_except (send_json (PartyMember.websocket member) message)
             (fun _ => ret tt).

(** [exclude and member.user_id == exclude] *)
Definition is_excluded (exclude : option string) (member : PartyMember.t)
  : bool :=
  match exclude with
  | None => false
  | Some e => negb (String.eqb e "") && String.eqb (PartyMember.user_id member) e
  end.

(** With one call running at a time nobody changes the roster during the
    loop, and the loop is over the roster as it is when the loop begins.
    ([Async._broadcast] is the loop among other calls.) *)
Definition _broadcast (party : Potluck.t) (message : pyval)
                      (exclude : option string) : M unit :=
  for_each (dict_values (Potluck.members party))
           (fun member =>
              if is_excluded exclude member then ret tt
              else _send_to_member member message).

Definition _broadcast_party_update (party : Potluck.t) : M unit :=
  _broadcast party
             (VDict [("type", VStr "party_update");
                     ("party", Potluck.to_dict party)])
             None.

Definition chat_envelope (c : ChatMessage.t) : pyval :=
  VDict [("type", VStr "chat"); ("message", ChatMessage.asdict c)].

(** The party object is given by its key [ref] in [parties] and its current
    contents; the contents after the call are returned. *)
Definition _send_system_message (ref : string) (party : Potluck.t)
                                (text : string) : M Potluck.t :=
  u <- fresh_uuid ;;
  ts <- now_isoformat ;;
  let msg := ChatMessage.mk (uuid_str u) "system" "System" (VStr text) ts
                            "system" in
  let party := Potluck.add_chat_message msg party in
  store ref party ;;
  _broadcast party (chat_envelope msg) None ;;
  ret party.

(** The [sync] directive built from the party's playback state. *)
Definition sync_fields (party : Potluck.t) : list (string * pyval) :=
  [("type", VStr "sync");
   ("is_playing", VBool (Potluck.is_playing party));
   ("current_time", Potluck.current_time party);
   ("playback_rate", VFloat (Potluck.playback_rate party))].

Definition leave_party (user_id : string) : M bool :=
  upm <- get_user_party_map ;;
  match dict_get user_id upm with
  | None => ret false
  | Some party_id =>
      ps <- get_parties ;;
      match dict_get party_id ps with
      | None => set_user_party_map (dict_del user_id upm) ;; ret false
      | Some party =>
          let (member, party) := Potluck.remove_member user_id party in
          store party_id party ;;
          set_user_party_map (dict_del user_id upm) ;;
          party <- match member with
                   | Some m =>
                       _send_system_message party_id party
                         (PartyMember.username m ++ " left the party")
                   | None => ret party
                   end ;;
          if String.eqb (Potluck.host_id party) user_id then
            match Potluck.members party with
            | (k, first) :: rest =>
                (* transfer to the first member in iteration order *)
                let new_host := PartyMember.set_is_host true first in
                let party :=
                  Potluck.set_host_id (PartyMember.user_id new_host)
                    (Potluck.set_members ((k, new_host) :: rest) party) in
                store party_id party ;;
                party <- _send_system_message party_id party
                           (PartyMember.username new_host
                              ++ " is now the host") ;;
                _broadcast_party_update party ;;
                ret true
            | [] =>
                (* close the empty party *)
                ps <- get_parties ;;
                set_parties (dict_del party_id ps) ;;
                ret true
            end
          else
            _broadcast_party_update party ;;
            ret true
      end
  end.

(** The [while party_id in self.parties] loop; [fuel] bounds the number of
    redraws, and the loop not having ended by then is [Diverge]. *)
Fixpoint redraw_while_taken (fuel : nat) (party_id : string) : M string :=
  ps <- get_parties ;;
  if dict_mem party_id ps then
    match fuel with
    | O => diverge
    | S fuel' =>
        party_id <- generate_party_code ;;
        redraw_while_taken fuel' party_id
    end
  else ret party_id.

Definition create_party (fuel : nat)
    (host_id host_username media_id media_title media_type : string)
    (websocket : WebSocket) : M Potluck.t :=
  upm <- get_user_party_map ;;
  (if dict_mem host_id upm then leave_party host_id ;; ret tt else ret tt) ;;
  party_id <- generate_party_code ;;
  party_id <- redraw_while_taken fuel party_id ;;
  created_at <- now_isoformat ;;
  let party := Potluck.new party_id host_id media_id media_title media_type
                           created_at in
  joined_at <- now_isoformat ;;
  let host_member := PartyMember.mk host_id host_username websocket true
                                    joined_at (VBool true) (VFloat 0) in
  let party := Potluck.add_member host_member party in
  ps <- get_parties ;;
  set_parties (dict_set party_id party ps) ;;
  upm <- get_user_party_map ;;
  set_user_party_map (dict_set host_id party_id upm) ;;
  party <- _send_system_message party_id party
             (host_username ++ " created the watch party") ;;
  ret party.

Definition join_party (party_id user_id username : string)
                      (websocket : WebSocket) : M (option Potluck.t) :=
  let party_id := upper party_id in
  ps <- get_parties ;;
  if negb (dict_mem party_id ps) then ret None
  else
    upm <- get_user_party_map ;;
    (if dict_mem user_id upm then leave_party user_id ;; ret tt else ret tt) ;;
    ps <- get_parties ;;
    match dict_get party_id ps with
    | None => raise KeyError   (* [self.parties[party_id]] *)
    | Some party =>
        joined_at <- now_isoformat ;;
        let member := PartyMember.mk user_id username websocket false
                                     joined_at (VBool false) (VFloat 0) in
        let party := Potluck.add_member member party in
        store party_id party ;;
        upm <- get_user_party_map ;;
        set_user_party_map (dict_set user_id party_id upm) ;;
        _broadcast_party_update party ;;
        party <- _send_system_message party_id party
                   (username ++ " joined the party") ;;
        _send_to_member member (VDict (sync_fields party)) ;;
        for_each (slice_last 20 (Potluck.chat_history party))
                 (fun msg => _send_to_member member (chat_envelope msg)) ;;
        ret (Some party)
    end.

(** The default of [message.get("emoji", ...)], as the bytes of the literal
    in the source file. *)
Definition default_emoji : string :=
  string_of_list_ascii
    (map ascii_of_nat [195; 176; 197; 184; 226; 128; 152]).

Definition update_member (user_id : string) (member : PartyMember.t)
                         (party : Potluck.t) : Potluck.t :=
  Potluck.set_members (dict_set user_id member (Potluck.members party)) party.

Definition handle_message (user_id : string) (message : dict pyval)
  : M unit :=
  upm <- get_user_party_map ;;
  match dict_get user_id upm with
  | None => ret tt
  | Some party_id =>
  ps <- get_parties ;;
  match dict_get party_id ps with
  | None => ret tt
  | Some party =>
  match dict_get user_id (Potluck.members party) with
  | None => ret tt
  | Some member =>
  let msg_type := dict_get_default "type" VNone message in
  if py_eq_str msg_type "chat" then
    u <- fresh_uuid ;;
    body <- lift (py_slice_to 500
                    (dict_get_default "message" (VStr "") message)) ;;
    ts <- now_isoformat ;;
    let chat_msg := ChatMessage.mk (uuid_str u) user_id
                      (PartyMember.username member) body ts "chat" in
    let party := Potluck.add_chat_message chat_msg party in
    store party_id party ;;
    _broadcast party (chat_envelope chat_msg) None
  else if py_eq_str msg_type "reaction" then
    _broadcast party
      (VDict [("type", VStr "reaction");
              ("user_id", VStr user_id);
              ("username", VStr (PartyMember.username member));
              ("emoji",
                dict_get_default "emoji" (VStr default_emoji) message)])
      None
  else if py_eq_str msg_type "ready" then
    let member := PartyMember.set_is_ready
                    (dict_get_default "ready" (VBool true) message) member in
    let party := update_member user_id member party in
    store party_id party ;;
    _broadcast_party_update party
  else if py_eq_str msg_type "seek" && PartyMember.is_host member then
    let party := Potluck.set_current_time
                   (dict_get_default "time" (VInt 0) message) party in
    store party_id party ;;
    _broadcast party (VDict (sync_fields party)) (Some user_id)
  else if py_eq_str msg_type "play" && PartyMember.is_host member then
    let party := Potluck.set_is_playing true party in
    let party := Potluck.set_current_time
                   (dict_get_default "time" (Potluck.current_time party)
                                     message) party in
    store party_id party ;;
    _broadcast party (VDict (sync_fields party)) None
  else if py_eq_str msg_type "pause" && PartyMember.is_host member then
    let party := Potluck.set_is_playing false party in
    let party := Potluck.set_current_time
                   (dict_get_default "time" (Potluck.current_time party)
                                     message) party in
    store party_id party ;;
    _broadcast party (VDict (sync_fields party)) None
  else if py_eq_str msg_type "time_update" then
    let member := PartyMember.set_current_time
                    (dict_get_default "time" (VInt 0) message) member in
    let party := update_member user_id member party in
    store party_id party ;;
    if Potluck.is_playing party then
      out_of_sync <- lift (drift_exceeds (PartyMember.current_time member)
                                         (Potluck.current_time party)
                                         (Potluck.sync_threshold party)) ;;
      if (out_of_sync : bool) then
        _send_to_member member
          (VDict (sync_fields party ++ [("resync", VBool true)])%list)
      else ret tt
    else ret tt
  else ret tt
  end end end.

Definition get_party (party_id : string) (g : PotluckManager)
  : option Potluck.t :=
  dict_get (upper party_id) (parties g).

(** One entry of [list_public_parties]. *)
Definition party_summary (party : Potluck.t) : pyval :=
  VDict [("party_id", VStr (Potluck.party_id party));
         ("media_title", VStr (Potluck.media_title party));
         ("media_type", VStr (Potluck.media_type party));
         ("member_count", VInt (Z.of_nat (Potluck.get_member_count party)));
         ("is_playing", VBool (Potluck.is_playing party));
         ("host",
           VStr match dict_get (Potluck.host_id party)
                               (Potluck.members party) with
                | Some m => PartyMember.username m
                | None => "Unknown"
                end)].

(** [x["member_count"]], the sort key *)
Definition member_count_of (x : pyval) : Z :=
  match x with
  | VDict d =>
      match dict_get "member_count" d with
      | Some (VInt z) => z
      | _ => 0%Z
      end
  | _ => 0%Z
  end.

(** [sorted(l, key=key, reverse=True)]: the stable sort into descending
    order of keys (entries of equal key keep their order), written as an
    insertion sort. *)
Fixpoint insert_desc {A} (key : A -> Z) (x : A) (l : list A) : list A :=
  match l with
  | [] => [x]
  | y :: r =>
      if (key y <=? key x)%Z then x :: y :: r
      else y :: insert_desc key x r
  end.

Definition sorted_desc {A} (key : A -> Z) (l : list A) : list A :=
  fold_right (insert_desc key) [] l.

(** [l[:limit]], a negative limit counting from the end *)
Definition slice_to {A} (limit : Z) (l : list A) : list A :=
  if (0 <=? limit)%Z then firstn (Z.to_nat limit) l
  else firstn (List.length l - Z.to_nat (- limit)) l.

Definition list_public_parties (limit : Z) (g : PotluckManager)
  : list pyval :=
  slice_to limit
    (sorted_desc member_count_of
                 (map party_summary (dict_values (parties g)))).

(** ** Specification vocabulary *)

(** The calls of [send_json] a fan-out makes, the first being call number
    [n]: one per target, in order, each with its own outcome. *)
Fixpoint attempts (n : nat) (targets : list PartyMember.t) (message : pyval)
  : list Delivery :=
  match targets with
  | [] => []
  | m :: r =>
      (PartyMember.websocket m, message,
       negb (send_fails n (PartyMember.websocket m)))
        :: attempts (S n) r message
  end.

(** The roster of a broadcast: every member but the excluded sender. *)
Definition recipients (exclude : option string) (party : Potluck.t)
  : list PartyMember.t :=
  filter (fun m => negb (is_excluded exclude m))
         (dict_values (Potluck.members party)).

Definition sent (ds : list Delivery) (w : World) : World :=
  {| manager := manager w; wire := (wire w ++ ds)%list; tick := tick w |}.


(** A roster entry is well formed for host [host]: it sits under its own
    id, and it is flagged exactly when it is the host. *)
Definition member_ok (host : string) (kv : string * PartyMember.t) : Prop :=
  PartyMember.user_id (snd kv) = fst kv
  /\ PartyMember.is_host (snd kv) = String.eqb (fst kv) host.

Record party_ok (key : string) (p : Potluck.t) : Prop := {
  ok_id : Potluck.party_id p = key;
  ok_code : upper key = key;
  ok_nodup : NoDup (dict_keys (Potluck.members p));
  ok_members : Forall (member_ok (Potluck.host_id p)) (Potluck.members p);
  ok_host : dict_mem (Potluck.host_id p) (Potluck.members p) = true
}.

Record manager_ok (g : PotluckManager) : Prop := {
  ok_parties :
    forall pid p, dict_get pid (parties g) = Some p -> party_ok pid p;
  ok_index :
    forall u pid, dict_get u (user_party_map g) = Some pid ->
      exists p, dict_get pid (parties g) = Some p
                /\ dict_mem u (Potluck.members p) = true;
  ok_roster :
    forall pid p u, dict_get pid (parties g) = Some p ->
      dict_mem u (Potluck.members p) = true ->
      dict_get u (user_party_map g) = Some pid
}.

(** Every registered session's position is a number that is [>= 0]. *)
Definition positions_ok (g : PotluckManager) : Prop :=
  forall pid p, dict_get pid (parties g) = Some p ->
    py_nonneg (Potluck.current_time p) = true.

(** The calls a client (or the transport) can make on the manager. *)
Inductive op : Type :=
| Create (fuel : nat)
         (host_id host_username media_id media_title media_type : string)
         (websocket : WebSocket)
| Join (party_id user_id username : string) (websocket : WebSocket)
| Leave (user_id : string)
| Message (user_id : string) (message : dict pyval).

Definition run (o : op) (w : World) : World :=
  match o with
  | Create fuel h hn mi mt ty ws => snd (create_party fuel h hn mi mt ty ws w)
  | Join pid u un ws => snd (join_party pid u un ws w)
  | Leave u => snd (leave_party u w)
  | Message u m => snd (handle_message u m w)
  end.

Definition empty_manager : PotluckManager :=
  {| parties := []; user_party_map := [] |}.

(** The worlds reached from a fresh manager by calls that are [allowed] in
    the world they are made in, each call running to its end before the
    next one is made; a call counts whether it returned or raised.  (The
    worlds inside a call, and those reached by calls that interleave, are
    those of [Async.play].) *)
Inductive reachable_via (allowed : World -> op -> Prop) : World -> Prop :=
| reachable_init : forall w,
    manager w = empty_manager -> reachable_via allowed w
| reachable_step : forall w o,
    reachable_via allowed w -> allowed w o -> reachable_via allowed (run o w).

Definition reachable : World -> Prop := reachable_via (fun _ _ => True).

(** The sender is a member of the session they are indexed under, and is
    flagged as its host. *)
Definition sender_is_host (user_id : string) (g : PotluckManager) : bool :=
  match dict_get user_id (user_party_map g) with
  | None => false
  | Some party_id =>
      match dict_get party_id (parties g) with
      | None => false
      | Some party =>
          match dict_get user_id (Potluck.members party) with
          | None => false
          | Some member => PartyMember.is_host member
          end
      end
  end.

Definition is_playback_command (message : dict pyval) : bool :=
  let msg_type := dict_get_default "type" VNone message in
  py_eq_str msg_type "seek" || py_eq_str msg_type "play"
  || py_eq_str msg_type "pause".

(** A playback command ([seek], [play], [pause]) of the host whose [time],
    when given, is a number [>= 0]; any other call. *)
Definition time_nonneg (w : World) (o : op) : Prop :=
  match o with
  | Message user_id message =>
      sender_is_host user_id (manager w) = true ->
      is_playback_command message = true ->
      forall v, dict_get "time" message = Some v -> py_nonneg v = true
  | _ => True
  end.

(** ** Dictionary lemmas *)

Unset Implicit Arguments.

Section DictFacts.
Context {V : Type}.
Implicit Types (k : string) (d : dict V).

Lemma dict_get_set_eq k (v : V) d : dict_get k (dict_set k v d) = Some v.
Proof.
  induction d as [|[k' v'] r IH]; simpl.
  - now rewrite String.eqb_refl.
  - destruct (String.eqb k' k) eqn:E; simpl.
    + now rewrite String.eqb_refl.
    + now rewrite E.
Qed.

Lemma dict_get_set_ne k k' (v : V) d :
  k <> k' -> dict_get k' (dict_set k v d) = dict_get k' d.
Proof.
  intros Hne. induction d as [|[k0 v0] r IH]; simpl.
  - apply String.eqb_neq in Hne. now rewrite Hne.
  - destruct (String.eqb k0 k) eqn:E; simpl.
    + apply String.eqb_eq in E. subst k0.
      apply String.eqb_neq in Hne. now rewrite Hne.
    + now rewrite IH.
Qed.

Lemma dict_get_del_eq k d : dict_get k (dict_del k d) = None.
Proof.
  induction d as [|[k0 v0] r IH]; simpl; auto.
  destruct (String.eqb k0 k) eqn:E; simpl; auto.
  now rewrite E.
Qed.

Lemma dict_get_del_ne k k' d :
  k <> k' -> dict_get k' (dict_del k d) = dict_get k' d.
Proof.
  intros Hne. induction d as [|[k0 v0] r IH]; simpl; auto.
  destruct (String.eqb k0 k) eqn:E; simpl.
  - apply String.eqb_eq in E. subst k0.
    apply String.eqb_neq in Hne. now rewrite Hne.
  - now rewrite IH.
Qed.

Lemma dict_set_set k (v v' : V) d :
  dict_set k v (dict_set k v' d) = dict_set k v d.
Proof.
  induction d as [|[k0 v0] r IH]; simpl.
  - now rewrite String.eqb_refl.
  - destruct (String.eqb k0 k) eqn:E; simpl.
    + now rewrite String.eqb_refl.
    + now rewrite E, IH.
Qed.

Lemma dict_del_set k (v : V) d : dict_del k (dict_set k v d) = dict_del k d.
Proof.
  unfold dict_del. induction d as [|[k0 v0] r IH]; simpl.
  - now rewrite String.eqb_refl.
  - destruct (String.eqb k0 k) eqn:E; simpl.
    + now rewrite String.eqb_refl.
    + now rewrite E, IH.
Qed.

Lemma dict_mem_In k d : dict_mem k d = true <-> In k (dict_keys d).
Proof.
  unfold dict_mem. induction d as [|[k0 v0] r IH]; simpl.
  - split; [discriminate | tauto].
  - destruct (String.eqb k0 k) eqn:E.
    + apply String.eqb_eq in E. tauto.
    + apply String.eqb_neq in E. rewrite IH. tauto.
Qed.

Lemma dict_get_mem k (v : V) d : dict_get k d = Some v -> dict_mem k d = true.
Proof. unfold dict_mem. now intros ->. Qed.

Lemma dict_mem_get k d :
  dict_mem k d = true -> exists v, dict_get k d = Some v.
Proof. unfold dict_mem. destruct (dict_get k d); [eauto | discriminate]. Qed.

Lemma dict_mem_false k d : dict_mem k d = false -> dict_get k d = None.
Proof. unfold dict_mem. destruct (dict_get k d); [discriminate | auto]. Qed.

Lemma dict_mem_set k k' (v : V) d :
  dict_mem k' (dict_set k v d) = String.eqb k k' || dict_mem k' d.
Proof.
  unfold dict_mem. destruct (String.eqb k k') eqn:E.
  - apply String.eqb_eq in E. subst. now rewrite dict_get_set_eq.
  - apply String.eqb_neq in E. now rewrite dict_get_set_ne.
Qed.

Lemma dict_mem_del k k' d :
  dict_mem k' (dict_del k d) = negb (String.eqb k k') && dict_mem k' d.
Proof.
  unfold dict_mem. destruct (String.eqb k k') eqn:E.
  - apply String.eqb_eq in E. subst. now rewrite dict_get_del_eq.
  - apply String.eqb_neq in E. now rewrite dict_get_del_ne.
Qed.

Lemma dict_keys_del k d :
  dict_keys (dict_del k d)
  = filter (fun k' => negb (String.eqb k' k)) (dict_keys d).
Proof.
  unfold dict_keys, dict_del.
  induction d as [|[k0 v0] r IH]; simpl; auto.
  destruct (String.eqb k0 k); simpl; now rewrite IH.
Qed.

Lemma dict_keys_set k (v : V) d :
  dict_keys (dict_set k v d)
  = if dict_mem k d then dict_keys d else (dict_keys d ++ [k])%list.
Proof.
  unfold dict_mem. induction d as [|[k0 v0] r IH]; simpl; auto.
  destruct (String.eqb k0 k) eqn:E; simpl.
  - apply String.eqb_eq in E. now subst.
  - rewrite IH. now destruct (dict_get k r).
Qed.

Lemma dict_del_nil_keys k d :
  dict_del k d = [] -> forall k', In k' (dict_keys d) -> k' = k.
Proof.
  unfold dict_del, dict_keys.
  induction d as [|[k0 v0] r IH]; simpl; [tauto|].
  destruct (String.eqb k0 k) eqn:E; simpl; [|discriminate].
  apply String.eqb_eq in E. intros Hr k' [<-|Hin]; auto.
Qed.

Lemma NoDup_keys_del k d :
  NoDup (dict_keys d) -> NoDup (dict_keys (dict_del k d)).
Proof. intros H. rewrite dict_keys_del. now apply NoDup_filter. Qed.

Lemma NoDup_keys_set k (v : V) d :
  NoDup (dict_keys d) -> NoDup (dict_keys (dict_set k v d)).
Proof.
  intros H. rewrite dict_keys_set. destruct (dict_mem k d) eqn:E; auto.
  apply NoDup_app; auto.
  - constructor; [tauto | constructor].
  - intros x Hx [<-|[]]. apply dict_mem_In in Hx. congruence.
Qed.

Lemma Forall_dict_set (P : string * V -> Prop) k (v : V) d :
  Forall P d -> P (k, v) -> Forall P (dict_set k v d).
Proof.
  intros Hd Hv. induction d as [|[k0 v0] r IH]; simpl.
  - now constructor.
  - inversion Hd; subst. destruct (String.eqb k0 k); constructor; auto.
Qed.

Lemma Forall_dict_del (P : string * V -> Prop) k d :
  Forall P d -> Forall P (dict_del k d).
Proof.
  intros Hd. apply Forall_forall. intros x Hx.
  apply filter_In in Hx. rewrite Forall_forall in Hd. now apply Hd.
Qed.

Lemma In_dict_del k d kv : In kv (dict_del k d) -> In kv d /\ fst kv <> k.
Proof.
  intros H. apply filter_In in H. destruct H as [H1 H2]. split; auto.
  apply negb_true_iff in H2. now apply String.eqb_neq.
Qed.

End DictFacts.

(** ** What the fan-out puts on the wire *)

Definition stored (ref : string) (p : Potluck.t) (w : World) : World :=
  with_parties (dict_set ref p (parties (manager w))) w.

(** The system notice drawn in world [w]. *)
Definition system_notice (text : string) (w : World) : ChatMessage.t :=
  ChatMessage.mk (uuid_str (uuid4 (tick w))) "system" "System" (VStr text)
                 (utcnow (S (tick w))) "system".

Lemma _send_to_member_eq member message w :
  _send_to_member member message w
  = (Ret tt, sent (attempts (List.length (wire w)) [member] message) w).
Proof.
  unfold _send_to_member, try_except, send_json, sent, record_send. simpl.
  now destruct (send_fails _ _).
Qed.

Lemma attempts_length n l message :
  List.length (attempts n l message) = List.length l.
Proof. revert n. induction l; intros; simpl; auto. Qed.

Lemma sent_nil w : sent [] w = w.
Proof. destruct w. unfold sent. simpl. now rewrite app_nil_r. Qed.

Lemma sent_sent ds1 ds2 w : sent ds2 (sent ds1 w) = sent (ds1 ++ ds2)%list w.
Proof. unfold sent. simpl. now rewrite app_assoc. Qed.

Lemma fan_out_eq exclude message (l : list PartyMember.t) w :
  for_each l (fun member =>
                if is_excluded exclude member then ret tt
                else _send_to_member member message) w
  = (Ret tt,
     sent (attempts (List.length (wire w))
                    (filter (fun m => negb (is_excluded exclude m)) l)
                    message) w).
Proof.
  revert w. induction l as [|m r IH]; intros w; simpl.
  - unfold ret. now rewrite sent_nil.
  - unfold bind. destruct (is_excluded exclude m); simpl.
    + unfold ret. apply IH.
    + rewrite _send_to_member_eq. rewrite IH. rewrite sent_sent. simpl.
      rewrite length_app. simpl. now rewrite Nat.add_1_r.
Qed.

Lemma _broadcast_eq party message exclude w :
  _broadcast party message exclude w
  = (Ret tt,
     sent (attempts (List.length (wire w)) (recipients exclude party) message)
          w).
Proof. unfold _broadcast, recipients. apply fan_out_eq. Qed.

Lemma _broadcast_party_update_eq party w :
  _broadcast_party_update party w
  = (Ret tt,
     sent (attempts (List.length (wire w)) (recipients None party)
                    (VDict [("type", VStr "party_update");
                            ("party", Potluck.to_dict party)]))
          w).
Proof. unfold _broadcast_party_update. apply _broadcast_eq. Qed.

(** The session after a system notice, and the world after it went out. *)
Definition noticed (text : string) (party : Potluck.t) (w : World)
  : Potluck.t :=
  Potluck.add_chat_message (system_notice text w) party.

Definition after_notice (ref : string) (party : Potluck.t) (text : string)
                        (w : World) : World :=
  sent (attempts (List.length (wire w)) (recipients None (noticed text party w))
                 (chat_envelope (system_notice text w)))
       (stored ref (noticed text party w) (next_tick (next_tick w))).

Lemma _send_system_message_eq ref party text w :
  _send_system_message ref party text w
  = (Ret (noticed text party w), after_notice ref party text w).
Proof.
  unfold _send_system_message, bind, fresh_uuid, now_isoformat, store,
    get_parties, set_parties. simpl.
  rewrite _broadcast_eq. reflexivity.
Qed.

(** ** Running a coroutine step by step *)

Lemma bind_run {A B} (c : M A) (k : A -> M B) w a w1 :
  c w = (Ret a, w1) -> bind c k w = k a w1.
Proof. unfold bind. now intros ->. Qed.

Lemma bind_diverge {A B} (c : M A) (k : A -> M B) w w1 :
  c w = (Diverge, w1) -> bind c k w = (Diverge, w1).
Proof. unfold bind. now intros ->. Qed.

Lemma store_eq ref p w : store ref p w = (Ret tt, stored ref p w).
Proof. reflexivity. Qed.

(** One step of a coroutine applied to a world. *)
Ltac run_step :=
  match goal with
  | |- context [bind get_parties ?k ?w] =>
      rewrite (bind_run get_parties k w _ _ eq_refl)
  | |- context [bind get_user_party_map ?k ?w] =>
      rewrite (bind_run get_user_party_map k w _ _ eq_refl)
  | |- context [bind (set_parties ?ps) ?k ?w] =>
      rewrite (bind_run (set_parties ps) k w _ _ eq_refl)
  | |- context [bind (set_user_party_map ?u) ?k ?w] =>
      rewrite (bind_run (set_user_party_map u) k w _ _ eq_refl)
  | |- context [bind (store ?r ?p) ?k ?w] =>
      rewrite (bind_run (store r p) k w _ _ (store_eq r p w))
  | |- context [bind (ret ?a) ?k ?w] =>
      rewrite (bind_run (ret a) k w _ _ eq_refl)
  | |- context [bind fresh_uuid ?k ?w] =>
      rewrite (bind_run fresh_uuid k w _ _ eq_refl)
  | |- context [bind now_isoformat ?k ?w] =>
      rewrite (bind_run now_isoformat k w _ _ eq_refl)
  | |- context [bind (_send_system_message ?r ?p ?t) ?k ?w] =>
      rewrite (bind_run (_send_system_message r p t) k w _ _
                        (_send_system_message_eq r p t w))
  | |- context [bind (_broadcast_party_update ?p) ?k ?w] =>
      rewrite (bind_run (_broadcast_party_update p) k w _ _
                        (_broadcast_party_update_eq p w))
  | |- context [bind (_broadcast ?p ?m ?e) ?k ?w] =>
      rewrite (bind_run (_broadcast p m e) k w _ _ (_broadcast_eq p m e w))
  | |- context [bind (_send_to_member ?m ?msg) ?k ?w] =>
      rewrite (bind_run (_send_to_member m msg) k w _ _
                        (_send_to_member_eq m msg w))
  end; cbv beta.

Ltac run_steps := repeat run_step.

(** ** The effect of [leave_party] on the registry *)

Lemma add_chat_message_eq c p :
  exists h, Potluck.add_chat_message c p = Potluck.set_chat_history h p.
Proof.
  unfold Potluck.add_chat_message.
  destruct (_ <? _)%nat; eauto.
Qed.

(** The roster after the host has gone: the first remaining member is
    flagged and becomes the host. *)
Definition promote_first (p : Potluck.t) : Potluck.t :=
  match Potluck.members p with
  | (k, first) :: rest =>
      Potluck.set_host_id (PartyMember.user_id first)
        (Potluck.set_members ((k, PartyMember.set_is_host true first) :: rest)
                             p)
  | [] => p
  end.

Definition without_member (u : string) (p : Potluck.t) : Potluck.t :=
  Potluck.set_members (dict_del u (Potluck.members p)) p.

(** What [leave_party u] returns and the registry it leaves, up to the
    chat log of the session. *)
Definition leave_effect (u : string) (g : PotluckManager)
                        (r : outcome bool) (g' : PotluckManager) : Prop :=
  match dict_get u (user_party_map g) with
  | None => r = Ret false /\ g' = g
  | Some pid =>
      match dict_get pid (parties g) with
      | None =>
          r = Ret false
          /\ g' = {| parties := parties g;
                     user_party_map := dict_del u (user_party_map g) |}
      | Some p =>
          r = Ret true
          /\ if String.eqb (Potluck.host_id p) u then
               match dict_del u (Potluck.members p) with
               | [] =>
                   g' = {| parties := dict_del pid (parties g);
                           user_party_map := dict_del u (user_party_map g) |}
               | _ :: _ =>
                   exists h,
                   g' = {| parties :=
                             dict_set pid
                               (Potluck.set_chat_history h
                                  (promote_first (without_member u p)))
                               (parties g);
                           user_party_map := dict_del u (user_party_map g) |}
               end
             else
               exists h,
               g' = {| parties :=
                         dict_set pid
                           (Potluck.set_chat_history h (without_member u p))
                           (parties g);
                       user_party_map := dict_del u (user_party_map g) |}
      end
  end.

Lemma leave_party_effect u w :
  leave_effect u (manager w) (fst (leave_party u w))
               (manager (snd (leave_party u w))).
Proof.
  unfold leave_effect, leave_party. run_step.
  destruct (dict_get u (user_party_map (manager w))) as [pid|] eqn:Hu.
  2:{ simpl. auto. }
  run_step.
  destruct (dict_get pid (parties (manager w))) as [p|] eqn:Hp.
  2:{ run_steps. simpl. auto. }
  unfold Potluck.remove_member. run_steps.
  fold (without_member u p).
  set (w1 := with_user_party_map _ _).
  assert (Hw1 : manager w1
                = {| parties := dict_set pid (without_member u p)
                                         (parties (manager w));
                     user_party_map := dict_del u (user_party_map (manager w))
                  |}) by reflexivity.
  clearbody w1.
  assert (Hq : exists (q : Potluck.t) w2,
             (exists h, q = Potluck.set_chat_history h (without_member u p))
             /\ manager w2
                = {| parties := dict_set pid q (parties (manager w));
                     user_party_map :=
                       dict_del u (user_party_map (manager w)) |}
             /\ match dict_get u (Potluck.members p) with
                | Some m =>
                    _send_system_message pid (without_member u p)
                      (PartyMember.username m ++ " left the party")
                | None => ret (without_member u p)
                end w1 = (Ret q, w2)).
  { destruct (dict_get u (Potluck.members p)) as [m|].
    - rewrite _send_system_message_eq.
      eexists _, _. split; [|split; [|reflexivity]].
      + apply add_chat_message_eq.
      + unfold after_notice, stored. simpl. rewrite Hw1. simpl.
        now rewrite dict_set_set.
    - exists (without_member u p), w1. split; [|split; auto].
      exists (Potluck.chat_history p). now destruct p. }
  destruct Hq as (q & w2 & [h ->] & Hw2 & Hrun).
  rewrite (bind_run _ _ _ _ _ Hrun). clear Hrun w1 Hw1.
  change (Potluck.host_id (Potluck.set_chat_history h (without_member u p)))
    with (Potluck.host_id p).
  change (Potluck.members (Potluck.set_chat_history h (without_member u p)))
    with (dict_del u (Potluck.members p)).
  split.
  - destruct (String.eqb (Potluck.host_id p) u).
    + destruct (dict_del u (Potluck.members p)) as [|[k first] rest];
        run_steps; reflexivity.
    + run_steps. reflexivity.
  - destruct (String.eqb (Potluck.host_id p) u).
    + destruct (dict_del u (Potluck.members p)) as [|[k first] rest] eqn:Hd.
      * run_steps. simpl. rewrite Hw2. simpl. now rewrite dict_del_set.
      * run_steps. unfold after_notice, stored, noticed. simpl.
        rewrite Hw2. simpl. rewrite !dict_set_set.
        match goal with
        | |- context [Potluck.add_chat_message ?c ?q] =>
            destruct (add_chat_message_eq c q) as [h' ->]
        end.
        exists h'. unfold promote_first, without_member. simpl.
        rewrite Hd. reflexivity.
    + run_steps. simpl. rewrite Hw2. eauto.
Qed.

(** ** Registry invariants: the building blocks *)

Lemma party_ok_chat key h p :
  party_ok key p -> party_ok key (Potluck.set_chat_history h p).
Proof. intros [? ? ? ? ?]. now constructor. Qed.

Lemma party_ok_without key u p :
  party_ok key p -> Potluck.host_id p <> u -> party_ok key (without_member u p).
Proof.
  intros [Hid Hc Hn Hm Hh] Hne. constructor; simpl; auto.
  - now apply NoDup_keys_del.
  - now apply Forall_dict_del.
  - rewrite dict_mem_del, Hh.
    apply not_eq_sym, String.eqb_neq in Hne. now rewrite Hne.
Qed.

Lemma party_ok_promote key u p :
  party_ok key p -> Potluck.host_id p = u ->
  dict_del u (Potluck.members p) <> [] ->
  party_ok key (promote_first (without_member u p)).
Proof.
  intros [Hid Hc Hn Hm Hh] Hu Hne. unfold promote_first. simpl.
  pose proof (@NoDup_keys_del _ u _ Hn) as Hn'.
  pose proof (@Forall_dict_del _ _ u _ Hm) as Hm'.
  assert (Hk : forall kv, In kv (dict_del u (Potluck.members p)) ->
                          fst kv <> u).
  { intros kv Hin. now apply In_dict_del in Hin. }
  destruct (dict_del u (Potluck.members p)) as [|[k first] rest];
    [congruence|].
  pose proof (Forall_inv Hm') as [Hfk _]. simpl in Hfk.
  pose proof (Forall_inv_tail Hm') as Hrest.
  pose proof (NoDup_cons_iff k (dict_keys rest)) as [Hnd _].
  destruct (Hnd Hn') as [Hnotin _]. clear Hnd.
  constructor; simpl; auto.
  - constructor.
    + split; simpl; auto. rewrite Hfk. symmetry. apply String.eqb_refl.
    + apply Forall_forall. intros [k' m'] Hin.
      rewrite Forall_forall in Hrest.
      destruct (Hrest _ Hin) as [H1 H2]. simpl in *.
      split; auto. simpl. rewrite H2, Hfk.
      assert (k' <> Potluck.host_id p)
        by (rewrite Hu; apply (Hk (k', m')); now right).
      assert (k' <> k).
      { intros ->. apply Hnotin. apply in_map_iff. now exists (k, m'). }
      transitivity false; [|symmetry]; now apply String.eqb_neq.
  - unfold dict_mem. simpl. rewrite Hfk. now rewrite String.eqb_refl.
Qed.

Lemma promote_first_mem u k p :
  dict_mem k (Potluck.members (promote_first (without_member u p)))
  = dict_mem k (dict_del u (Potluck.members p)).
Proof.
  unfold promote_first. simpl.
  destruct (dict_del u (Potluck.members p)) as [|[k0 m0] r] eqn:E;
    simpl; rewrite ?E; auto.
  unfold dict_mem. simpl. now destruct (String.eqb k0 k).
Qed.

(** Replacing the session under [pid] (or adding one) while the index
    changes accordingly. *)
Lemma manager_ok_put g pid p' upm' :
  manager_ok g ->
  party_ok pid p' ->
  (forall u, dict_get u upm' = Some pid
             <-> dict_mem u (Potluck.members p') = true) ->
  (forall u pid', pid' <> pid ->
     (dict_get u upm' = Some pid'
      <-> dict_get u (user_party_map g) = Some pid')) ->
  manager_ok {| parties := dict_set pid p' (parties g);
                user_party_map := upm' |}.
Proof.
  intros [Hp Hi Hr] Hok Hsame Hother. constructor; simpl.
  - intros pid' p0 H. destruct (string_dec pid pid') as [<-|Hne].
    + rewrite dict_get_set_eq in H. now injection H as <-.
    + rewrite dict_get_set_ne in H by auto. eauto.
  - intros u pid' H. destruct (string_dec pid pid') as [<-|Hne].
    + exists p'. rewrite dict_get_set_eq. split; auto. now apply Hsame.
    + rewrite dict_get_set_ne by auto. apply Hi. apply Hother; auto.
  - intros pid' p0 u H Hm. destruct (string_dec pid pid') as [<-|Hne].
    + rewrite dict_get_set_eq in H. injection H as <-. now apply Hsame.
    + rewrite dict_get_set_ne in H by auto. apply Hother; eauto.
Qed.

(** Closing the session under [pid]. *)
Lemma manager_ok_remove g pid upm' :
  manager_ok g ->
  (forall u, dict_get u upm' <> Some pid) ->
  (forall u pid', pid' <> pid ->
     (dict_get u upm' = Some pid'
      <-> dict_get u (user_party_map g) = Some pid')) ->
  manager_ok {| parties := dict_del pid (parties g);
                user_party_map := upm' |}.
Proof.
  intros [Hp Hi Hr] Hnone Hother. constructor; simpl.
  - intros pid' p0 H. destruct (string_dec pid pid') as [<-|Hne].
    + now rewrite dict_get_del_eq in H.
    + rewrite dict_get_del_ne in H by auto. eauto.
  - intros u pid' H. destruct (string_dec pid pid') as [<-|Hne].
    + now apply Hnone in H.
    + rewrite dict_get_del_ne by auto. apply Hi. apply Hother; auto.
  - intros pid' p0 u H Hm. destruct (string_dec pid pid') as [<-|Hne].
    + now rewrite dict_get_del_eq in H.
    + rewrite dict_get_del_ne in H by auto. apply Hother; eauto.
Qed.

(** The index once [u] is dropped from it: [u]'s own session is [pid]. *)
Lemma index_without g u pid :
  dict_get u (user_party_map g) = Some pid ->
  forall u' pid', pid' <> pid ->
    (dict_get u' (dict_del u (user_party_map g)) = Some pid'
     <-> dict_get u' (user_party_map g) = Some pid').
Proof.
  intros Hu u' pid' Hne. destruct (string_dec u u') as [<-|Hn].
  - rewrite dict_get_del_eq, Hu. split; [discriminate | congruence].
  - now rewrite dict_get_del_ne.
Qed.

Lemma leave_effect_ok u g r g' :
  leave_effect u g r g' -> manager_ok g -> manager_ok g'.
Proof.
  unfold leave_effect. intros H Hg.
  destruct (dict_get u (user_party_map g)) as [pid|] eqn:Hu.
  2:{ now destruct H as [_ ->]. }
  destruct (ok_index Hg _ Hu) as (p & Hp & Hmem). rewrite Hp in H.
  destruct H as [_ H].
  pose proof (ok_parties Hg _ Hp) as Hpok.
  assert (Hsame : forall q,
             (forall k, dict_mem k (Potluck.members q)
                        = dict_mem k (dict_del u (Potluck.members p))) ->
             forall u', dict_get u' (dict_del u (user_party_map g)) = Some pid
                        <-> dict_mem u' (Potluck.members q) = true).
  { intros q Hq u'. rewrite Hq, dict_mem_del.
    destruct (string_dec u u') as [<-|Hn].
    - rewrite dict_get_del_eq, String.eqb_refl. simpl.
      split; discriminate.
    - rewrite dict_get_del_ne by auto.
      apply String.eqb_neq in Hn. rewrite Hn. simpl. split.
      + intros Hu'. destruct (ok_index Hg _ Hu') as (p0 & Hp0 & Hm0).
        congruence.
      + intros Hm0. eapply ok_roster; eauto. }
  destruct (String.eqb (Potluck.host_id p) u) eqn:Eh.
  - apply String.eqb_eq in Eh.
    destruct (dict_del u (Potluck.members p)) as [|kv rest] eqn:Hd.
    + subst g'. apply manager_ok_remove; auto.
      * intros u' Hu'. destruct (string_dec u u') as [<-|Hn].
        -- now rewrite dict_get_del_eq in Hu'.
        -- rewrite dict_get_del_ne in Hu' by auto.
           destruct (ok_index Hg _ Hu') as (p0 & Hp0 & Hm0).
           assert (p0 = p) by congruence. subst p0.
           apply dict_mem_In in Hm0.
           apply (@dict_del_nil_keys _ _ _ Hd) in Hm0. congruence.
      * now apply index_without.
    + destruct H as [h ->]. apply manager_ok_put; [assumption | | |].
      * apply party_ok_chat, party_ok_promote; auto. congruence.
      * apply Hsame. intros k. simpl. rewrite <- Hd.
        apply promote_first_mem.
      * now apply index_without.
  - apply String.eqb_neq in Eh. destruct H as [h ->].
    apply manager_ok_put; [assumption | | |].
    + now apply party_ok_chat, party_ok_without.
    + now apply Hsame.
    + now apply index_without.
Qed.

Lemma leave_party_ok u w :
  manager_ok (manager w) -> manager_ok (manager (snd (leave_party u w))).
Proof.
  apply (@leave_effect_ok u _ (fst (leave_party u w))).
  apply leave_party_effect.
Qed.

(** ** The implicit leave of [create_party] and [join_party] *)

Lemma leave_party_returns u w : exists b, fst (leave_party u w) = Ret b.
Proof.
  pose proof (leave_party_effect u w) as H. unfold leave_effect in H.
  destruct (dict_get u (user_party_map (manager w))) as [pid|].
  - destruct (dict_get pid (parties (manager w))); destruct H; eauto.
  - destruct H; eauto.
Qed.

(** The world once [u] has been made to leave the session they were in. *)
Definition left (u : string) (w : World) : World :=
  if dict_mem u (user_party_map (manager w)) then snd (leave_party u w)
  else w.

Lemma implicit_leave_eq u w :
  (if dict_mem u (user_party_map (manager w))
   then leave_party u ;; ret tt else ret tt) w
  = (Ret tt, left u w).
Proof.
  unfold left. destruct (dict_mem u (user_party_map (manager w))); auto.
  destruct (leave_party_returns u w) as [b Hb].
  unfold bind. destruct (leave_party u w) as [r w1]. simpl in *. now subst.
Qed.

Lemma left_ok u w : manager_ok (manager w) -> manager_ok (manager (left u w)).
Proof.
  unfold left. destruct (dict_mem _ _); auto. apply leave_party_ok.
Qed.

Lemma left_index u w : dict_get u (user_party_map (manager (left u w))) = None.
Proof.
  unfold left.
  destruct (dict_mem u (user_party_map (manager w))) eqn:E.
  - pose proof (leave_party_effect u w) as H. unfold leave_effect in H.
    unfold dict_mem in E.
    destruct (dict_get u (user_party_map (manager w))) as [pid|];
      [|discriminate].
    destruct (dict_get pid (parties (manager w))) as [p|].
    + destruct H as [_ H].
      destruct (String.eqb (Potluck.host_id p) u).
      * destruct (dict_del u (Potluck.members p));
          [rewrite H | destruct H as [h ->]]; apply dict_get_del_eq.
      * destruct H as [h ->]. apply dict_get_del_eq.
    + destruct H as [_ ->]. apply dict_get_del_eq.
  - now apply dict_mem_false.
Qed.

(** Enrolling [u], who is in no session, in the session under [pid]. *)
Lemma manager_ok_enrol g u pid p' :
  manager_ok g ->
  dict_get u (user_party_map g) = None ->
  party_ok pid p' ->
  (forall u', dict_mem u' (Potluck.members p')
              = String.eqb u u'
                || match dict_get pid (parties g) with
                   | Some p => dict_mem u' (Potluck.members p)
                   | None => false
                   end) ->
  manager_ok {| parties := dict_set pid p' (parties g);
                user_party_map := dict_set u pid (user_party_map g) |}.
Proof.
  intros Hg Hu Hok Hmem. apply manager_ok_put; auto.
  - intros u'. rewrite Hmem. destruct (string_dec u u') as [<-|Hn].
    + rewrite dict_get_set_eq, String.eqb_refl. simpl. tauto.
    + rewrite dict_get_set_ne by auto.
      apply String.eqb_neq in Hn. rewrite Hn. simpl. split.
      * intros H. destruct (ok_index Hg _ H) as (p & -> & Hm). auto.
      * destruct (dict_get pid (parties g)) as [p|] eqn:Hp; [|discriminate].
        intros H. eapply ok_roster; eauto.
  - intros u' pid' Hne. destruct (string_dec u u') as [<-|Hn].
    + rewrite dict_get_set_eq, Hu. split; [congruence | discriminate].
    + now rewrite dict_get_set_ne.
Qed.

Lemma party_ok_add key p m :
  party_ok key p ->
  dict_mem (PartyMember.user_id m) (Potluck.members p) = false ->
  PartyMember.is_host m = false ->
  party_ok key (Potluck.add_member m p).
Proof.
  intros [Hid Hc Hn Hm Hh] Hnew Hflag. constructor; simpl; auto.
  - now apply NoDup_keys_set.
  - apply Forall_dict_set; auto. split; simpl; auto.
    rewrite Hflag. symmetry. apply String.eqb_neq. intros E.
    rewrite E in Hnew. congruence.
  - rewrite dict_mem_set, Hh. apply orb_true_r.
Qed.

(** ** The effect of [join_party] on the registry *)

Definition joiner (u username : string) (ws : WebSocket) (w : World)
  : PartyMember.t :=
  PartyMember.mk u username ws false (utcnow (tick w)) (VBool false)
                 (VFloat 0).

Definition join_effect (code u username : string) (ws : WebSocket)
    (w : World) (r : outcome (option Potluck.t)) (w' : World) : Prop :=
  let pid := upper code in
  match dict_get pid (parties (manager w)) with
  | None => r = Ret None /\ w' = w
  | Some _ =>
      match dict_get pid (parties (manager (left u w))) with
      | None => r = Raise KeyError /\ w' = left u w
      | Some p =>
          exists h,
          let p' := Potluck.set_chat_history h
                      (Potluck.add_member (joiner u username ws (left u w))
                                          p) in
          r = Ret (Some p')
          /\ manager w'
             = {| parties := dict_set pid p' (parties (manager (left u w)));
                  user_party_map :=
                    dict_set u pid (user_party_map (manager (left u w))) |}
      end
  end.

Lemma join_loop_eq member (l : list ChatMessage.t) w :
  exists w', for_each l (fun msg =>
                _send_to_member member (chat_envelope msg)) w = (Ret tt, w')
             /\ manager w' = manager w.
Proof.
  revert w. induction l as [|c r IH]; intros w; simpl.
  - now exists w.
  - run_step. destruct (IH (sent (attempts (List.length (wire w)) [member]
                                          (chat_envelope c)) w))
      as (w' & -> & Hm).
    now exists w'.
Qed.

Lemma join_party_effect code u username ws w :
  join_effect code u username ws w
              (fst (join_party code u username ws w))
              (snd (join_party code u username ws w)).
Proof.
  unfold join_effect, join_party. cbv zeta. run_step.
  destruct (dict_get (upper code) (parties (manager w))) as [p0|] eqn:Hp0.
  2:{ unfold dict_mem. rewrite Hp0. now split. }
  rewrite (dict_get_mem _ _ _ Hp0). change (negb true) with false.
  cbv iota. run_step.
  rewrite (bind_run _ _ _ _ _ (implicit_leave_eq u w)).
  run_step.
  destruct (dict_get (upper code) (parties (manager (left u w))))
    as [p|] eqn:Hp.
  2:{ now split. }
  run_steps.
  match goal with
  | |- context [bind (for_each ?l ?f) ?k ?w0] =>
      destruct (join_loop_eq (joiner u username ws (left u w)) l w0)
        as (w' & Hrun & Hm);
      unfold joiner in *;
      rewrite (bind_run (for_each l f) k w0 _ _ Hrun)
  end.
  unfold after_notice, noticed in *.
  match goal with
  | |- context [Potluck.add_chat_message ?c ?q] =>
      destruct (add_chat_message_eq c q) as [h Hh]
  end.
  rewrite Hh in *.
  exists h. cbv zeta. split.
  - reflexivity.
  - unfold ret. simpl. rewrite Hm. unfold stored.
    simpl. now rewrite dict_set_set.
Qed.

Lemma join_party_ok code u username ws w :
  manager_ok (manager w) ->
  manager_ok (manager (snd (join_party code u username ws w))).
Proof.
  intros Hg. pose proof (join_party_effect code u username ws w) as H.
  unfold join_effect in H. cbv zeta in H.
  destruct (dict_get (upper code) (parties (manager w))).
  2:{ destruct H as [_ ->]. auto. }
  pose proof (left_ok u w Hg) as Hg1.
  pose proof (left_index u w) as Hu1.
  destruct (dict_get (upper code) (parties (manager (left u w))))
    as [p|] eqn:Hp.
  2:{ destruct H as [_ ->]. auto. }
  destruct H as (h & _ & ->).
  assert (Hnot : dict_mem u (Potluck.members p) = false).
  { destruct (dict_mem u (Potluck.members p)) eqn:E; auto.
    rewrite (ok_roster Hg1 _ _ Hp E) in Hu1. discriminate. }
  apply manager_ok_enrol; auto.
  - apply party_ok_chat, party_ok_add; eauto using ok_parties.
  - intros u'. rewrite Hp. simpl. apply dict_mem_set.
Qed.

(** ** The effect of [create_party] on the registry *)

Definition party_code (u : UUID) : string :=
  string_of_list_ascii (map code_char (firstn 6 (uuid_bytes u))).

Lemma generate_party_code_eq w :
  generate_party_code w = (Ret (party_code (uuid4 (tick w))), next_tick w).
Proof. reflexivity. Qed.

Lemma upper_code_char b : upper_ascii (code_char b) = code_char b.
Proof. destruct b; vm_compute; reflexivity. Qed.

Lemma upper_party_code u : upper (party_code u) = party_code u.
Proof.
  unfold party_code. induction (firstn 6 (uuid_bytes u)) as [|b r IH]; simpl.
  - reflexivity.
  - now rewrite upper_code_char, IH.
Qed.

(** The code-drawing loop ends on a code that is free and in upper case,
    or it has not ended when the fuel is spent; the registry is not
    touched either way. *)
Lemma redraw_while_taken_spec fuel code w :
  upper code = code ->
  manager (snd (redraw_while_taken fuel code w)) = manager w
  /\ match fst (redraw_while_taken fuel code w) with
     | Ret pid => dict_get pid (parties (manager w)) = None
                  /\ upper pid = pid
     | Raise _ => False
     | Diverge => True
     end.
Proof.
  revert code w. induction fuel as [|fuel IH]; intros code w Hc; simpl.
  - run_step. destruct (dict_mem code (parties (manager w))) eqn:E; simpl.
    + auto.
    + split; auto. split; auto. now apply dict_mem_false.
  - run_step. destruct (dict_mem code (parties (manager w))) eqn:E; simpl.
    + rewrite (bind_run _ _ _ _ _ (generate_party_code_eq w)).
      apply (IH _ (next_tick w)). apply upper_party_code.
    + split; auto. split; auto. now apply dict_mem_false.
Qed.

Definition first_host (host_id host_username : string) (ws : WebSocket)
                      (joined_at : string) : PartyMember.t :=
  PartyMember.mk host_id host_username ws true joined_at (VBool true)
                 (VFloat 0).

Definition create_effect (host_id host_username media_id media_title
                          media_type : string) (ws : WebSocket) (w : World)
    (r : outcome Potluck.t) (g' : PotluckManager) : Prop :=
  let g1 := manager (left host_id w) in
  (r = Diverge /\ g' = g1)
  \/ exists pid created_at joined_at h,
       let p' := Potluck.set_chat_history h
                   (Potluck.add_member
                      (first_host host_id host_username ws joined_at)
                      (Potluck.new pid host_id media_id media_title
                                   media_type created_at)) in
       dict_get pid (parties g1) = None
       /\ upper pid = pid
       /\ r = Ret p'
       /\ g' = {| parties := dict_set pid p' (parties g1);
                  user_party_map := dict_set host_id pid (user_party_map g1)
               |}.

Lemma create_party_effect fuel host_id host_username media_id media_title
      media_type ws w :
  create_effect host_id host_username media_id media_title media_type ws w
    (fst (create_party fuel host_id host_username media_id media_title
                       media_type ws w))
    (manager (snd (create_party fuel host_id host_username media_id
                                media_title media_type ws w))).
Proof.
  unfold create_effect, create_party. cbv zeta. run_step.
  rewrite (bind_run _ _ _ _ _ (implicit_leave_eq host_id w)).
  rewrite (bind_run _ _ _ _ _ (generate_party_code_eq (left host_id w))).
  set (w1 := next_tick (left host_id w)).
  set (code := party_code _).
  destruct (redraw_while_taken_spec fuel code w1 (upper_party_code _))
    as [Hm Hr].
  destruct (redraw_while_taken fuel code w1) as [[pid|e|] w2] eqn:Hrun;
    simpl in Hm, Hr.
  - destruct Hr as [Hfree Hup]. right.
    rewrite (bind_run _ _ _ _ _ Hrun). run_steps.
    unfold after_notice, noticed, stored.
    match goal with
    | |- context [Potluck.add_chat_message ?c ?q] =>
        destruct (add_chat_message_eq c q) as [h Hh]
    end.
    rewrite Hh.
    exists pid, (utcnow (tick w2)), (utcnow (S (tick w2))), h. cbv zeta.
    rewrite <- Hm.
    split; [now rewrite Hm|]. split; [assumption|]. split; [reflexivity|].
    unfold ret. simpl. now rewrite dict_set_set.
  - destruct Hr.
  - left. rewrite (bind_diverge _ _ _ _ Hrun). simpl. split; auto.
Qed.

Lemma party_ok_new pid host_id host_username media_id media_title media_type
      ws created_at joined_at :
  upper pid = pid ->
  party_ok pid
    (Potluck.add_member (first_host host_id host_username ws joined_at)
       (Potluck.new pid host_id media_id media_title media_type created_at)).
Proof.
  intros Hup. constructor; simpl; auto.
  - constructor; [intros [] | constructor].
  - constructor; [|constructor]. split; simpl; auto.
    symmetry. apply String.eqb_refl.
  - unfold dict_mem. simpl. now rewrite String.eqb_refl.
Qed.

Lemma create_party_ok fuel host_id host_username media_id media_title
      media_type ws w :
  manager_ok (manager w) ->
  manager_ok (manager (snd (create_party fuel host_id host_username media_id
                                         media_title media_type ws w))).
Proof.
  intros Hg.
  pose proof (create_party_effect fuel host_id host_username media_id
                                  media_title media_type ws w) as H.
  pose proof (left_ok host_id w Hg) as Hg1.
  pose proof (left_index host_id w) as Hu1.
  destruct H as [[_ ->] | (pid & ca & ja & h & H)]; auto.
  cbv zeta in H. destruct H as (Hfree & Hup & _ & ->).
  apply manager_ok_enrol; auto.
  - apply party_ok_chat, party_ok_new; auto.
  - intros u'. rewrite Hfree. simpl. unfold dict_mem. simpl.
    rewrite orb_false_r. now destruct (String.eqb host_id u').
Qed.

(** ** The effect of [handle_message] on the registry *)

(** What the invariants see of a roster entry. *)
Definition roster_view (kv : string * PartyMember.t)
  : string * string * bool :=
  (fst kv, PartyMember.user_id (snd kv), PartyMember.is_host (snd kv)).

(** Same session identity, host and roster (ids and host flags). *)
Definition same_roster (p p' : Potluck.t) : Prop :=
  Potluck.party_id p' = Potluck.party_id p
  /\ Potluck.host_id p' = Potluck.host_id p
  /\ map roster_view (Potluck.members p')
     = map roster_view (Potluck.members p).

Lemma roster_view_keys (d : dict PartyMember.t) :
  dict_keys d = map (fun v => fst (fst v)) (map roster_view d).
Proof.
  unfold dict_keys. rewrite map_map. now apply map_ext.
Qed.

Lemma same_roster_mem p p' k :
  same_roster p p' ->
  dict_mem k (Potluck.members p') = dict_mem k (Potluck.members p).
Proof.
  intros (_ & _ & Hv).
  assert (Hk : dict_keys (Potluck.members p')
               = dict_keys (Potluck.members p))
    by (now rewrite !roster_view_keys, Hv).
  destruct (dict_mem k (Potluck.members p)) eqn:E.
  - apply dict_mem_In. rewrite Hk. now apply dict_mem_In.
  - destruct (dict_mem k (Potluck.members p')) eqn:E'; auto.
    apply dict_mem_In in E'. rewrite Hk in E'. apply dict_mem_In in E'.
    congruence.
Qed.

Lemma party_ok_same_roster key p p' :
  party_ok key p -> same_roster p p' -> party_ok key p'.
Proof.
  intros [Hid Hc Hn Hm Hh] Hs. pose proof Hs as (Hi & Hho & Hv).
  constructor.
  - congruence.
  - assumption.
  - now rewrite roster_view_keys, Hv, <- roster_view_keys.
  - rewrite Hho.
    assert (Hview : forall d : dict PartyMember.t,
               Forall (member_ok (Potluck.host_id p)) d
               <-> Forall (fun v => snd (fst v) = fst (fst v)
                                    /\ snd v = String.eqb (fst (fst v))
                                                 (Potluck.host_id p))
                          (map roster_view d)).
    { intros d. rewrite Forall_map.
      split; intros H; eapply Forall_impl; try exact H;
        intros [k m]; unfold member_ok, roster_view; simpl; tauto. }
    apply Hview. rewrite Hv. now apply Hview.
  - rewrite Hho. now rewrite (same_roster_mem p p' _ Hs).
Qed.

Lemma update_member_view u (m m' : PartyMember.t) (d : dict PartyMember.t) :
  dict_get u d = Some m ->
  PartyMember.user_id m' = PartyMember.user_id m ->
  PartyMember.is_host m' = PartyMember.is_host m ->
  map roster_view (dict_set u m' d) = map roster_view d.
Proof.
  intros Hget Hid Hflag. induction d as [|[k v] r IH]; simpl in *.
  - discriminate.
  - destruct (String.eqb k u) eqn:E; simpl.
    + apply String.eqb_eq in E. subst k. injection Hget as ->.
      unfold roster_view. simpl. now rewrite Hid, Hflag.
    + now rewrite IH.
Qed.

Lemma add_chat_message_same_roster c p :
  same_roster p (Potluck.add_chat_message c p).
Proof.
  destruct (add_chat_message_eq c p) as [h ->]. now repeat split.
Qed.

(** Putting a session with the same roster back under its key: the
    registry invariant is kept. *)
Lemma manager_ok_store g pid p p' :
  manager_ok g ->
  dict_get pid (parties g) = Some p ->
  same_roster p p' ->
  manager_ok {| parties := dict_set pid p' (parties g);
                user_party_map := user_party_map g |}.
Proof.
  intros Hg Hp Hs. apply manager_ok_put; auto.
  - eapply party_ok_same_roster; eauto using ok_parties.
  - intros u. rewrite (same_roster_mem p p' u Hs). split.
    + intros H. destruct (ok_index Hg _ H) as (p0 & Hp0 & Hm). congruence.
    + intros H. eapply ok_roster; eauto.
  - tauto.
Qed.

(** How [handle_message] may change the registry: not at all, or one
    session is put back with the same roster, its position either kept or
    (by a playback command) set to the [time] of the message, to 0 when a
    [seek] gives none. *)
Definition message_effect (u : string) (message : dict pyval)
                          (g g' : PotluckManager) : Prop :=
  g' = g
  \/ exists pid p p',
       dict_get pid (parties g) = Some p
       /\ g' = {| parties := dict_set pid p' (parties g);
                  user_party_map := user_party_map g |}
       /\ same_roster p p'
       /\ (Potluck.current_time p' = Potluck.current_time p
           \/ (sender_is_host u g = true
               /\ is_playback_command message = true
               /\ (dict_get "time" message = Some (Potluck.current_time p')
                   \/ (dict_get "time" message = None
                       /\ Potluck.current_time p' = VInt 0)))).

Lemma bind_lift_err {A B} e (k : A -> M B) w :
  bind (lift (Err e)) k w = (Raise e, w).
Proof. reflexivity. Qed.

Lemma bind_lift_ok {A B} (a : A) (k : A -> M B) w :
  bind (lift (Ok a)) k w = k a w.
Proof. reflexivity. Qed.

Lemma handle_message_effect u message w :
  message_effect u message (manager w)
                 (manager (snd (handle_message u message w))).
Proof.
  unfold message_effect, handle_message. run_step.
  destruct (dict_get u (user_party_map (manager w))) as [pid|] eqn:Hu;
    [|now left].
  run_step.
  destruct (dict_get pid (parties (manager w))) as [p|] eqn:Hp; [|now left].
  destruct (dict_get u (Potluck.members p)) as [m|] eqn:Hm; [|now left].
  cbv zeta. unfold is_playback_command.
  set (ty := dict_get_default "type" VNone message).
  assert (Hput : forall p' w',
             same_roster p p' ->
             (Potluck.current_time p' = Potluck.current_time p
              \/ (sender_is_host u (manager w) = true
                  /\ py_eq_str ty "seek" || py_eq_str ty "play"
                  || py_eq_str ty "pause" = true
                  /\ (dict_get "time" message
                      = Some (Potluck.current_time p')
                      \/ (dict_get "time" message = None
                          /\ Potluck.current_time p' = VInt 0)))) ->
             manager w'
             = {| parties := dict_set pid p' (parties (manager w));
                  user_party_map := user_party_map (manager w) |} ->
             manager w' = manager w
             \/ exists pid0 p0 p'0,
                 dict_get pid0 (parties (manager w)) = Some p0
                 /\ manager w'
                    = {| parties := dict_set pid0 p'0 (parties (manager w));
                         user_party_map := user_party_map (manager w) |}
                 /\ same_roster p0 p'0
                 /\ (Potluck.current_time p'0 = Potluck.current_time p0
                     \/ (sender_is_host u (manager w) = true
                         /\ py_eq_str ty "seek" || py_eq_str ty "play"
                         || py_eq_str ty "pause" = true
                         /\ (dict_get "time" message
                             = Some (Potluck.current_time p'0)
                             \/ (dict_get "time" message = None
                                 /\ Potluck.current_time p'0 = VInt 0))))).
  { intros p' w' Hs Ht Hw. right. exists pid, p, p'. auto. }
  assert (Hhost : PartyMember.is_host m = true ->
                  sender_is_host u (manager w) = true).
  { unfold sender_is_host. now rewrite Hu, Hp, Hm. }
  assert (Hmem : forall m',
             PartyMember.user_id m' = PartyMember.user_id m ->
             PartyMember.is_host m' = PartyMember.is_host m ->
             same_roster p (update_member u m' p)).
  { intros m' H1 H2. repeat split; auto. simpl.
    now apply update_member_view with (m := m). }
  destruct (py_eq_str ty "chat") eqn:Echat.
  { run_step.
    destruct (py_slice_to 500 (dict_get_default "message" (VStr "") message))
      as [body|e].
    - rewrite bind_lift_ok. run_steps. rewrite _broadcast_eq.
      eapply Hput; only 3: reflexivity.
      + apply add_chat_message_same_roster.
      + left. destruct (add_chat_message_eq
                          (ChatMessage.mk (uuid_str (uuid4 (tick w))) u
                             (PartyMember.username m) body
                             (utcnow (tick (next_tick w))) "chat") p)
          as [h ->]. reflexivity.
    - rewrite bind_lift_err. now left. }
  destruct (py_eq_str ty "reaction") eqn:Ereact.
  { rewrite _broadcast_eq. now left. }
  destruct (py_eq_str ty "ready") eqn:Eready.
  { run_steps. rewrite _broadcast_party_update_eq.
    eapply Hput; only 3: reflexivity; [apply Hmem; reflexivity | now left]. }
  destruct (py_eq_str ty "seek" && PartyMember.is_host m) eqn:Eseek.
  { apply andb_prop in Eseek as [Es Eh]. run_steps. rewrite _broadcast_eq.
    eapply Hput; only 3: reflexivity; [now repeat split | ].
    right. rewrite Es. split; auto. split; auto. simpl.
    unfold dict_get_default.
    destruct (dict_get "time" message); auto. }
  destruct (py_eq_str ty "play" && PartyMember.is_host m) eqn:Eplay.
  { apply andb_prop in Eplay as [Es Eh]. run_steps. rewrite _broadcast_eq.
    eapply Hput; only 3: reflexivity; [now repeat split | ].
    simpl. unfold dict_get_default.
    destruct (dict_get "time" message); auto.
    right. rewrite Es, orb_true_r. auto. }
  destruct (py_eq_str ty "pause" && PartyMember.is_host m) eqn:Epause.
  { apply andb_prop in Epause as [Es Eh]. run_steps. rewrite _broadcast_eq.
    eapply Hput; only 3: reflexivity; [now repeat split | ].
    simpl. unfold dict_get_default.
    destruct (dict_get "time" message); auto.
    right. rewrite Es, orb_true_r. auto. }
  destruct (py_eq_str ty "time_update") eqn:Etime; [|now left].
  run_steps.
  assert (Hs : same_roster p
                 (update_member u
                    (PartyMember.set_current_time
                       (dict_get_default "time" (VInt 0) message) m) p))
    by (apply Hmem; reflexivity).
  change (Potluck.is_playing (update_member u
            (PartyMember.set_current_time
               (dict_get_default "time" (VInt 0) message) m) p))
    with (Potluck.is_playing p).
  destruct (Potluck.is_playing p).
  - destruct (drift_exceeds _ _ _) as [[|]|e].
    + rewrite bind_lift_ok, _send_to_member_eq.
      eapply Hput; only 3: reflexivity; [exact Hs | now left].
    + rewrite bind_lift_ok.
      eapply Hput; only 3: reflexivity; [exact Hs | now left].
    + rewrite bind_lift_err.
      eapply Hput; only 3: reflexivity; [exact Hs | now left].
  - eapply Hput; only 3: reflexivity; [exact Hs | now left].
Qed.

Lemma message_effect_ok u message g g' :
  message_effect u message g g' -> manager_ok g -> manager_ok g'.
Proof.
  intros [-> | (pid & p & p' & Hp & -> & Hs & _)] Hg; auto.
  now apply manager_ok_store with (p := p).
Qed.

Lemma handle_message_ok u message w :
  manager_ok (manager w) ->
  manager_ok (manager (snd (handle_message u message w))).
Proof.
  apply message_effect_ok with (u := u) (message := message).
  apply handle_message_effect.
Qed.

(** ** Reachable registries *)

Lemma empty_manager_ok : manager_ok empty_manager.
Proof. constructor; simpl; intros; discriminate. Qed.

Lemma run_ok o w : manager_ok (manager w) -> manager_ok (manager (run o w)).
Proof.
  destruct o; simpl.
  - apply create_party_ok.
  - apply join_party_ok.
  - apply leave_party_ok.
  - apply handle_message_ok.
Qed.

Lemma reachable_ok allowed w :
  reachable_via allowed w -> manager_ok (manager w).
Proof.
  induction 1 as [w Hw | w o Hr IH Ho].
  - rewrite Hw. apply empty_manager_ok.
  - now apply run_ok.
Qed.






(** ** Positions *)

Lemma positions_ok_put g pid p' upm' :
  positions_ok g ->
  py_nonneg (Potluck.current_time p') = true ->
  positions_ok {| parties := dict_set pid p' (parties g);
                  user_party_map := upm' |}.
Proof.
  intros Hg Hp' pid' p0. simpl. destruct (string_dec pid pid') as [<-|Hne].
  - rewrite dict_get_set_eq. now intros [= <-].
  - rewrite dict_get_set_ne by auto. apply Hg.
Qed.

Lemma positions_ok_remove g pid upm' :
  positions_ok g ->
  positions_ok {| parties := dict_del pid (parties g);
                  user_party_map := upm' |}.
Proof.
  intros Hg pid' p0. simpl. destruct (string_dec pid pid') as [<-|Hne].
  - now rewrite dict_get_del_eq.
  - rewrite dict_get_del_ne by auto. apply Hg.
Qed.

Lemma promote_first_current_time p :
  Potluck.current_time (promote_first p) = Potluck.current_time p.
Proof.
  unfold promote_first. now destruct (Potluck.members p) as [|[k m] r].
Qed.

Lemma leave_party_positions u w :
  positions_ok (manager w) -> positions_ok (manager (snd (leave_party u w))).
Proof.
  intros Hg. pose proof (leave_party_effect u w) as H.
  unfold leave_effect in H.
  destruct (dict_get u (user_party_map (manager w))) as [pid|].
  2:{ now destruct H as [_ ->]. }
  destruct (dict_get pid (parties (manager w))) as [p|] eqn:Hp.
  2:{ destruct H as [_ ->]. exact Hg. }
  destruct H as [_ H]. specialize (Hg _ _ Hp) as Hpos.
  destruct (String.eqb (Potluck.host_id p) u).
  - destruct (dict_del u (Potluck.members p)) eqn:Hd.
    + rewrite H. now apply positions_ok_remove.
    + destruct H as [h ->]. apply positions_ok_put; auto.
      simpl. now rewrite promote_first_current_time.
  - destruct H as [h ->]. now apply positions_ok_put.
Qed.

Lemma left_positions u w :
  positions_ok (manager w) -> positions_ok (manager (left u w)).
Proof.
  unfold left. destruct (dict_mem _ _); auto. apply leave_party_positions.
Qed.

Lemma run_positions w o :
  time_nonneg w o ->
  positions_ok (manager w) -> positions_ok (manager (run o w)).
Proof.
  intros Ho Hg. destruct o as [fuel h hn mi mt ty ws | code u un ws | u | u m];
    simpl.
  - pose proof (create_party_effect fuel h hn mi mt ty ws w) as H.
    pose proof (left_positions h w Hg) as Hg1.
    destruct H as [[_ ->] | (pid & ca & ja & hist & H)]; auto.
    cbv zeta in H. destruct H as (_ & _ & _ & ->).
    now apply positions_ok_put.
  - pose proof (join_party_effect code u un ws w) as H.
    unfold join_effect in H. cbv zeta in H.
    pose proof (left_positions u w Hg) as Hg1.
    destruct (dict_get (upper code) (parties (manager w))).
    2:{ now destruct H as [_ ->]. }
    destruct (dict_get (upper code) (parties (manager (left u w))))
      as [p|] eqn:Hp.
    2:{ now destruct H as [_ ->]. }
    destruct H as (hist & _ & ->). apply positions_ok_put; auto.
    simpl. exact (Hg1 _ _ Hp).
  - now apply leave_party_positions.
  - pose proof (handle_message_effect u m w) as H. simpl in Ho.
    destruct H as [-> | (pid & p & p' & Hp & -> & _ & Ht)]; auto.
    apply positions_ok_put; auto.
    destruct Ht as [-> | (Hh & Hc & [Hv | [_ ->]])]; eauto.
Qed.

(** C6, as the code has it. In every registry reached by calls in which a
    host's [seek], [play] or [pause], when it carries a [time], carries a
    number [>= 0], the position of every registered session is a number
    [>= 0]. *)
Theorem position_nonneg_when_commands_are w :
  reachable_via time_nonneg w -> positions_ok (manager w).
Proof.
  induction 1 as [w Hw | w o Hr IH Ho].
  - rewrite Hw. intros pid p. discriminate.
  - now apply run_positions.
Qed.

(** ** Events of a member *)

(** [handle_message] for a sender who is routed to a session. *)
Ltac route Hu Hp Hm :=
  unfold handle_message; run_step; rewrite Hu; run_step; rewrite Hp, Hm;
  cbv zeta.

(** Decide the tests of the [if]/[elif] chain for a known [type]. *)
Ltac kind_tests :=
  repeat match goal with
         | |- context [py_eq_str (VStr ?a) ?b] =>
             let v := eval vm_compute in (py_eq_str (VStr a) b) in
             change (py_eq_str (VStr a) b) with v
         end;
  cbv iota;
  repeat match goal with
         | |- context [andb false ?b] => change (andb false b) with false
         | |- context [andb true ?b] => change (andb true b) with b
         end;
  cbv iota.

Lemma type_of_kind message k :
  dict_get "type" message = Some (VStr k) ->
  dict_get_default "type" VNone message = VStr k.
Proof. unfold dict_get_default. now intros ->. Qed.



Definition playback_kinds : list string := ["seek"; "play"; "pause"].

Definition known_kinds : list string :=
  ["chat"; "reaction"; "ready"; "seek"; "play"; "pause"; "time_update"].

(** C5. A [seek], [play] or [pause] from a member whose [is_host] flag is
    not set changes nothing: the call returns, the registry (sessions,
    rosters, playback state, chat logs, index) is as before, and no call of
    [send_json] is made. *)
Theorem non_host_playback_ignored u message w pid party member k :
  dict_get u (user_party_map (manager w)) = Some pid ->
  dict_get pid (parties (manager w)) = Some party ->
  dict_get u (Potluck.members party) = Some member ->
  PartyMember.is_host member = false ->
  In k playback_kinds ->
  dict_get "type" message = Some (VStr k) ->
  handle_message u message w = (Ret tt, w).
Proof.
  intros Hu Hp Hm Hflag Hk Hty. route Hu Hp Hm.
  rewrite (type_of_kind _ _ Hty), Hflag.
  simpl in Hk. destruct Hk as [<-|[<-|[<-|[]]]]; reflexivity.
Qed.

(** C10. An event of a member whose [type] is none of [chat], [reaction],
    [ready], [seek], [play], [pause], [time_update] (or is missing, or is
    not a string) changes nothing: the call returns, the registry is as
    before, and no call of [send_json] is made. *)
Theorem unknown_kind_ignored u message w pid party member :
  dict_get u (user_party_map (manager w)) = Some pid ->
  dict_get pid (parties (manager w)) = Some party ->
  dict_get u (Potluck.members party) = Some member ->
  (forall k, In k known_kinds -> dict_get "type" message <> Some (VStr k)) ->
  handle_message u message w = (Ret tt, w).
Proof.
  intros Hu Hp Hm Hty. route Hu Hp Hm.
  assert (Hno : forall k, In k known_kinds ->
                  py_eq_str (dict_get_default "type" VNone message) k = false).
  { intros k Hk. specialize (Hty k Hk). unfold dict_get_default.
    destruct (dict_get "type" message) as [[]|]; simpl; auto.
    destruct (String.eqb s k) eqn:E; auto.
    apply String.eqb_eq in E. congruence. }
  rewrite !Hno by (simpl; tauto). reflexivity.
Qed.

(** ** Events with a field missing *)

Lemma dict_get_default_set_eq {V} k (v d0 : V) (m : dict V) :
  dict_get_default k d0 (dict_set k v m) = v.
Proof. unfold dict_get_default. now rewrite dict_get_set_eq. Qed.

Lemma dict_get_default_set_ne {V} k k' (v d0 : V) (m : dict V) :
  k <> k' ->
  dict_get_default k' d0 (dict_set k v m) = dict_get_default k' d0 m.
Proof. intros H. unfold dict_get_default. now rewrite dict_get_set_ne. Qed.

Lemma dict_get_default_none {V} k (d0 : V) (m : dict V) :
  dict_get k m = None -> dict_get_default k d0 m = d0.
Proof. unfold dict_get_default. now intros ->. Qed.

Ltac route_both Hu Hp Hm :=
  unfold handle_message;
  repeat first [run_step | rewrite Hu | rewrite Hp | rewrite Hm];
  cbv zeta.

(** C7, as the code has it. An event of a member whose payload field is
    missing is not dropped: it is handled exactly as the same event with the
    default written out, which is [time = 0] for [seek] and [time_update],
    the session's current position for [play] and [pause], and the empty
    string for the [message] of a [chat]. *)
Theorem missing_field_takes_default u message w pid party member k :
  dict_get u (user_party_map (manager w)) = Some pid ->
  dict_get pid (parties (manager w)) = Some party ->
  dict_get u (Potluck.members party) = Some member ->
  dict_get "type" message = Some (VStr k) ->
  (dict_get "time" message = None ->
   (k = "seek" \/ k = "time_update" ->
    handle_message u message w
    = handle_message u (dict_set "time" (VInt 0) message) w)
   /\ (k = "play" \/ k = "pause" ->
       handle_message u message w
       = handle_message u
           (dict_set "time" (Potluck.current_time party) message) w))
  /\ (dict_get "message" message = None ->
      k = "chat" ->
      handle_message u message w
      = handle_message u (dict_set "message" (VStr "") message) w).
Proof.
  intros Hu Hp Hm Hty.
  assert (Hne1 : "time" <> "type") by discriminate.
  assert (Hne2 : "message" <> "type") by discriminate.
  split; [intros Hnone; split; intros Hk | intros Hnone Hk];
    route_both Hu Hp Hm;
    rewrite ?dict_get_default_set_ne by discriminate;
    rewrite (type_of_kind _ _ Hty);
    rewrite ?dict_get_default_set_eq;
    rewrite ?(dict_get_default_none _ _ _ Hnone).
  - destruct Hk as [-> | ->]; kind_tests; reflexivity.
  - destruct Hk as [-> | ->]; kind_tests; reflexivity.
  - subst k. kind_tests. reflexivity.
Qed.

(** ** Joining the session one is already in *)

Lemma sole_member_left w u pid p :
  manager_ok (manager w) ->
  dict_get pid (parties (manager w)) = Some p ->
  dict_keys (Potluck.members p) = [u] ->
  dict_get pid (parties (manager (left u w))) = None.
Proof.
  intros Hg Hp Hkeys.
  assert (Hin : dict_mem u (Potluck.members p) = true).
  { apply dict_mem_In. rewrite Hkeys. now left. }
  pose proof (ok_roster Hg _ _ Hp Hin) as Hu.
  pose proof (ok_parties Hg _ Hp) as [_ _ _ _ Hh].
  assert (Hhost : Potluck.host_id p = u).
  { apply dict_mem_In in Hh. rewrite Hkeys in Hh. now destruct Hh as [|[]]. }
  assert (Hlast : dict_del u (Potluck.members p) = []).
  { destruct (Potluck.members p) as [|[k m] [|? ?]]; try discriminate.
    injection Hkeys as ->. unfold dict_del. simpl.
    now rewrite String.eqb_refl. }
  unfold left. rewrite (dict_get_mem _ _ _ Hu).
  pose proof (leave_party_effect u w) as H. unfold leave_effect in H.
  rewrite Hu, Hp, Hlast in H. apply String.eqb_eq in Hhost.
  rewrite Hhost in H. destruct H as [_ ->]. simpl. apply dict_get_del_eq.
Qed.

(** C4, where the code departs from it. In a reachable registry, a
    participant who is the only member (hence the host) of a session and
    joins that same session by its code gets no session back: the implicit
    leave closes the session, and the lookup [self.parties[party_id]] that
    follows raises [KeyError]; the session is gone from the registry and the
    participant from the index. *)
Theorem join_own_party_as_sole_member_raises code u username ws w p :
  reachable w ->
  dict_get (upper code) (parties (manager w)) = Some p ->
  dict_keys (Potluck.members p) = [u] ->
  fst (join_party code u username ws w) = Raise KeyError
  /\ get_party code (manager (snd (join_party code u username ws w))) = None
  /\ dict_get u (user_party_map
                   (manager (snd (join_party code u username ws w)))) = None.
Proof.
  intros Hr Hp Hkeys. pose proof (reachable_ok _ w Hr) as Hg.
  pose proof (sole_member_left w u _ p Hg Hp Hkeys) as Hgone.
  pose proof (join_party_effect code u username ws w) as H.
  unfold join_effect in H. cbv zeta in H. rewrite Hp, Hgone in H.
  destruct H as [-> ->]. unfold get_party. rewrite Hgone.
  repeat split. apply left_index.
Qed.

(** The rest of C4 holds: when the code matches a session of which the
    joiner is not the only member, [join_party] returns that session with
    the joiner on its roster as a member who is not the host, and indexed
    under the session's code. *)
Lemma join_party_succeeds code u username ws w p :
  reachable w ->
  dict_get (upper code) (parties (manager w)) = Some p ->
  dict_keys (Potluck.members p) <> [u] ->
  exists p' m,
    fst (join_party code u username ws w) = Ret (Some p')
    /\ get_party code (manager (snd (join_party code u username ws w)))
       = Some p'
    /\ dict_get u (Potluck.members p') = Some m
    /\ PartyMember.is_host m = false
    /\ dict_get u (user_party_map
                     (manager (snd (join_party code u username ws w))))
       = Some (upper code).
Proof.
  intros Hr Hp Hkeys. pose proof (reachable_ok _ w Hr) as Hg.
  pose proof (ok_parties Hg _ Hp) as [_ _ Hn _ Hh].
  assert (Hstill : exists q,
             dict_get (upper code) (parties (manager (left u w))) = Some q).
  { unfold left.
    destruct (dict_mem u (user_party_map (manager w))) eqn:E; [|eauto].
    pose proof (leave_party_effect u w) as H. unfold leave_effect in H.
    apply dict_mem_get in E as [pid Hu]. rewrite Hu in H.
    destruct (ok_index Hg _ Hu) as (p0 & Hp0 & Hm0). rewrite Hp0 in H.
    destruct H as [_ H].
    destruct (string_dec pid (upper code)) as [->|Hne].
    - assert (p0 = p) by congruence. subst p0.
      assert (Hrest : dict_del u (Potluck.members p) <> []).
      { intros Hd. apply Hkeys.
        pose proof (dict_del_nil_keys _ _ Hd) as Hall.
        destruct (Potluck.members p) as [|[k m] r]; [discriminate|].
        simpl in *. apply NoDup_cons_iff in Hn as [Hnotin _].
        rewrite (Hall k) in * by now left.
        destruct r as [|[k' m'] r']; auto.
        exfalso. apply Hnotin. left. apply Hall. right. now left. }
      destruct (String.eqb (Potluck.host_id p) u).
      + destruct (dict_del u (Potluck.members p)); [congruence|].
        destruct H as [h ->]. simpl. rewrite dict_get_set_eq. eauto.
      + destruct H as [h ->]. simpl. rewrite dict_get_set_eq. eauto.
    - assert (Hkeep : forall g',
                 (g' = {| parties := dict_del pid (parties (manager w));
                          user_party_map :=
                            dict_del u (user_party_map (manager w)) |}
                  \/ exists q,
                      g' = {| parties := dict_set pid q (parties (manager w));
                              user_party_map :=
                                dict_del u (user_party_map (manager w)) |}) ->
                 dict_get (upper code) (parties g') = Some p).
      { intros g' [-> | [q ->]]; simpl.
        - now rewrite dict_get_del_ne.
        - now rewrite dict_get_set_ne. }
      exists p. apply Hkeep.
      destruct (String.eqb (Potluck.host_id p0) u).
      + destruct (dict_del u (Potluck.members p0)); [now left|].
        destruct H as [h ->]. right. eauto.
      + destruct H as [h ->]. right. eauto. }
  destruct Hstill as [q Hq].
  pose proof (join_party_effect code u username ws w) as H.
  unfold join_effect in H. cbv zeta in H. rewrite Hp, Hq in H.
  destruct H as (h & Hret & Hg').
  eexists _, (joiner u username ws (left u w)).
  split; [exact Hret|]. unfold get_party. rewrite Hg'. simpl.
  rewrite !dict_get_set_eq. repeat split.
Qed.

(** ** Properties every session keeps

    A property of a session that holds of a new session and that the
    setters used by the manager keep holds of every registered session of
    every reachable registry. *)

Lemma bind_raise {A B} (c : M A) (k : A -> M B) w e w1 :
  c w = (Raise e, w1) -> bind c k w = (Raise e, w1).
Proof. unfold bind. now intros ->. Qed.

Section SessionInvariant.

Variable K : Potluck.t -> Prop.
Hypothesis K_new :
  forall pid h mi mt ty ca, K (Potluck.new pid h mi mt ty ca).
Hypothesis K_chat : forall c p, K p -> K (Potluck.add_chat_message c p).
Hypothesis K_members : forall ms p, K p -> K (Potluck.set_members ms p).
Hypothesis K_host : forall h p, K p -> K (Potluck.set_host_id h p).
Hypothesis K_time : forall v p, K p -> K (Potluck.set_current_time v p).
Hypothesis K_playing : forall b p, K p -> K (Potluck.set_is_playing b p).

Definition sessions_satisfy (w : World) : Prop :=
  forall pid p, dict_get pid (parties (manager w)) = Some p -> K p.

Lemma sessions_sent ds w : sessions_satisfy w -> sessions_satisfy (sent ds w).
Proof. exact (fun H => H). Qed.

Lemma sessions_next_tick w :
  sessions_satisfy w -> sessions_satisfy (next_tick w).
Proof. exact (fun H => H). Qed.

Lemma sessions_index u w :
  sessions_satisfy w -> sessions_satisfy (with_user_party_map u w).
Proof. exact (fun H => H). Qed.

Lemma sessions_stored ref p w :
  K p -> sessions_satisfy w -> sessions_satisfy (stored ref p w).
Proof.
  intros Kp HI pid q. simpl. destruct (string_dec ref pid) as [<-|Hne].
  - rewrite dict_get_set_eq. now intros [= <-].
  - rewrite dict_get_set_ne by auto. apply HI.
Qed.

Lemma sessions_closed pid w :
  sessions_satisfy w ->
  sessions_satisfy (with_parties (dict_del pid (parties (manager w))) w).
Proof.
  intros HI pid' q. simpl. destruct (string_dec pid pid') as [<-|Hne].
  - now rewrite dict_get_del_eq.
  - rewrite dict_get_del_ne by auto. apply HI.
Qed.

Lemma sessions_after_notice ref p text w :
  K p -> sessions_satisfy w -> sessions_satisfy (after_notice ref p text w).
Proof.
  intros Kp HI. unfold after_notice.
  apply sessions_sent, sessions_stored; [now apply K_chat|].
  now apply sessions_next_tick, sessions_next_tick.
Qed.

Lemma K_update_member u m p : K p -> K (update_member u m p).
Proof. apply K_members. Qed.

Ltac sessions_solve :=
  repeat match goal with
         | |- sessions_satisfy (sent _ _) => apply sessions_sent
         | |- sessions_satisfy (next_tick _) => apply sessions_next_tick
         | |- sessions_satisfy (with_user_party_map _ _) =>
             apply sessions_index
         | |- sessions_satisfy (after_notice _ _ _ _) =>
             apply sessions_after_notice
         | |- sessions_satisfy (stored _ _ _) => apply sessions_stored
         | |- sessions_satisfy (with_parties (dict_del _ _) _) =>
             apply sessions_closed
         | |- sessions_satisfy (with_parties (dict_set ?r ?p _) ?w) =>
             apply (sessions_stored r p w)
         | |- K (Potluck.add_chat_message _ _) => apply K_chat
         | |- K (noticed _ _ _) => apply K_chat
         | |- K (update_member _ _ _) => apply K_update_member
         | |- K (Potluck.add_member _ _) => apply K_members
         | |- K (Potluck.set_members _ _) => apply K_members
         | |- K (Potluck.set_host_id _ _) => apply K_host
         | |- K (Potluck.set_current_time _ _) => apply K_time
         | |- K (Potluck.set_is_playing _ _) => apply K_playing
         | |- K (Potluck.new _ _ _ _ _ _) => apply K_new
         | _ => assumption
         end.

Lemma leave_party_sessions u w :
  sessions_satisfy w -> sessions_satisfy (snd (leave_party u w)).
Proof.
  intros HI. unfold leave_party. run_step.
  destruct (dict_get u (user_party_map (manager w))) as [pid|] eqn:Hu;
    [|exact HI].
  run_step.
  destruct (dict_get pid (parties (manager w))) as [p|] eqn:Hp.
  2:{ run_steps. exact HI. }
  pose proof (HI _ _ Hp) as Kp.
  unfold Potluck.remove_member. run_steps.
  set (w1 := with_user_party_map _ _).
  assert (H1 : sessions_satisfy w1) by (subst w1; sessions_solve).
  clearbody w1.
  assert (Hq : exists (q : Potluck.t) w2,
             K q /\ sessions_satisfy w2
             /\ match dict_get u (Potluck.members p) with
                | Some m =>
                    _send_system_message pid
                      (Potluck.set_members (dict_del u (Potluck.members p)) p)
                      (PartyMember.username m ++ " left the party")
                | None =>
                    ret (Potluck.set_members
                           (dict_del u (Potluck.members p)) p)
                end w1 = (Ret q, w2)).
  { destruct (dict_get u (Potluck.members p)) as [m|].
    - rewrite _send_system_message_eq. eexists _, _.
      split; [|split; [|reflexivity]]; sessions_solve.
    - eexists _, w1. split; [|split; [|reflexivity]]; sessions_solve. }
  destruct Hq as (q & w2 & Kq & H2 & Hrun).
  rewrite (bind_run _ _ _ _ _ Hrun).
  destruct (String.eqb (Potluck.host_id q) u).
  - destruct (Potluck.members q) as [|[k first] rest];
      run_steps; unfold ret; cbn [snd]; sessions_solve.
  - run_steps. unfold ret. cbn [snd]. sessions_solve.
Qed.

Lemma left_sessions u w : sessions_satisfy w -> sessions_satisfy (left u w).
Proof.
  unfold left. destruct (dict_mem _ _); auto. apply leave_party_sessions.
Qed.

Lemma join_loop_manager member (l : list ChatMessage.t) w :
  manager (snd (for_each l (fun msg =>
                   _send_to_member member (chat_envelope msg)) w))
  = manager w.
Proof.
  destruct (join_loop_eq member l w) as (w' & -> & Hm). exact Hm.
Qed.

Lemma join_party_sessions code u username ws w :
  sessions_satisfy w ->
  sessions_satisfy (snd (join_party code u username ws w)).
Proof.
  intros HI. unfold join_party. cbv zeta. run_step.
  destruct (dict_mem (upper code) (parties (manager w)));
    [change (negb true) with false | exact HI].
  cbv iota.
  run_step. rewrite (bind_run _ _ _ _ _ (implicit_leave_eq u w)).
  pose proof (left_sessions u w HI) as H1.
  run_step.
  destruct (dict_get (upper code) (parties (manager (left u w))))
    as [p|] eqn:Hp; [|exact H1].
  pose proof (H1 _ _ Hp) as Kp.
  run_steps.
  match goal with
  | |- context [bind (for_each ?l ?f) ?k ?w0] =>
      destruct (join_loop_eq
                  (PartyMember.mk u username ws false
                     (utcnow (tick (left u w))) (VBool false) (VFloat 0))
                  l w0) as (w' & Hrun & Hm);
      rewrite (bind_run (for_each l f) k w0 _ _ Hrun);
      assert (H0 : sessions_satisfy w0) by sessions_solve
  end.
  unfold ret. cbn [snd]. intros pid q. rewrite Hm. apply H0.
Qed.

Lemma redraw_while_taken_manager fuel code w :
  manager (snd (redraw_while_taken fuel code w)) = manager w.
Proof.
  revert code w. induction fuel as [|fuel IH]; intros code w; simpl;
    run_step; destruct (dict_mem code (parties (manager w))); auto.
  rewrite (bind_run _ _ _ _ _ (generate_party_code_eq w)). now rewrite IH.
Qed.

Lemma create_party_sessions fuel h hn mi mt ty ws w :
  sessions_satisfy w ->
  sessions_satisfy (snd (create_party fuel h hn mi mt ty ws w)).
Proof.
  intros HI. unfold create_party. run_step.
  rewrite (bind_run _ _ _ _ _ (implicit_leave_eq h w)).
  rewrite (bind_run _ _ _ _ _ (generate_party_code_eq (left h w))).
  pose proof (left_sessions h w HI) as H1.
  set (w1 := next_tick (left h w)). set (code := party_code _).
  pose proof (redraw_while_taken_manager fuel code w1) as Hm.
  assert (H2 : sessions_satisfy (snd (redraw_while_taken fuel code w1))).
  { intros pid q. rewrite Hm. apply H1. }
  destruct (redraw_while_taken fuel code w1) as [[pid|e|] w2] eqn:Hrun;
    simpl in H2.
  - rewrite (bind_run _ _ _ _ _ Hrun). run_steps. unfold ret. cbn [snd].
    unfold Potluck.add_member. sessions_solve.
  - rewrite (bind_raise _ _ _ _ _ Hrun). exact H2.
  - rewrite (bind_diverge _ _ _ _ Hrun). exact H2.
Qed.

Lemma handle_message_sessions u message w :
  sessions_satisfy w -> sessions_satisfy (snd (handle_message u message w)).
Proof.
  intros HI. unfold handle_message. run_step.
  destruct (dict_get u (user_party_map (manager w))) as [pid|]; [|exact HI].
  run_step.
  destruct (dict_get pid (parties (manager w))) as [p|] eqn:Hp; [|exact HI].
  pose proof (HI _ _ Hp) as Kp.
  destruct (dict_get u (Potluck.members p)) as [m|]; [|exact HI].
  cbv zeta.
  destruct (py_eq_str _ "chat").
  { run_step. destruct (py_slice_to _ _) as [body|e].
    - rewrite bind_lift_ok. run_steps. rewrite _broadcast_eq. cbn [snd].
      sessions_solve.
    - rewrite bind_lift_err. cbn [snd]. sessions_solve. }
  destruct (py_eq_str _ "reaction").
  { rewrite _broadcast_eq. cbn [snd]. sessions_solve. }
  destruct (py_eq_str _ "ready").
  { run_steps. rewrite _broadcast_party_update_eq. cbn [snd].
    sessions_solve. }
  destruct (py_eq_str _ "seek" && _).
  { run_steps. rewrite _broadcast_eq. cbn [snd]. sessions_solve. }
  destruct (py_eq_str _ "play" && _).
  { run_steps. rewrite _broadcast_eq. cbn [snd]. sessions_solve. }
  destruct (py_eq_str _ "pause" && _).
  { run_steps. rewrite _broadcast_eq. cbn [snd]. sessions_solve. }
  destruct (py_eq_str _ "time_update"); [|exact HI].
  run_steps.
  destruct (Potluck.is_playing _).
  - destruct (drift_exceeds _ _ _) as [[|]|e].
    + rewrite bind_lift_ok, _send_to_member_eq. cbn [snd]. sessions_solve.
    + rewrite bind_lift_ok. unfold ret. cbn [snd]. sessions_solve.
    + rewrite bind_lift_err. cbn [snd]. sessions_solve.
  - unfold ret. cbn [snd]. sessions_solve.
Qed.

Theorem sessions_invariant allowed w :
  reachable_via allowed w -> sessions_satisfy w.
Proof.
  induction 1 as [w Hw | w o Hr IH Ho].
  - intros pid p. rewrite Hw. discriminate.
  - destruct o; simpl.
    + now apply create_party_sessions.
    + now apply join_party_sessions.
    + now apply leave_party_sessions.
    + now apply handle_message_sessions.
Qed.

End SessionInvariant.

(** ** The bounded chat log *)

Lemma slice_last_length {A} n (l : list A) :
  1 <= n -> List.length (slice_last n l) = Nat.min n (List.length l).
Proof.
  intros Hn. unfold slice_last. destruct n as [|n]; [lia|].
  rewrite length_skipn. lia.
Qed.

Lemma slice_last_suffix {A} n (l : list A) :
  exists dropped,
    l = (dropped ++ slice_last n l)%list
    /\ (List.length l <= n -> dropped = []).
Proof.
  unfold slice_last. destruct n as [|n].
  - exists []. auto.
  - exists (firstn (List.length l - S n) l). split.
    + symmetry. apply firstn_skipn.
    + intros H. replace (List.length l - S n) with 0 by lia. reflexivity.
Qed.

(** X1. [add_chat_message] puts the message last and evicts only from the
    old end: the new log is what is left of [old + [message]] after dropping
    its oldest entries, none when that fits the limit, and it holds
    [min(limit, len(old) + 1)] entries (the limit being at least 1). *)
Theorem add_chat_message_evicts_oldest c p :
  1 <= Potluck.max_chat_history p ->
  let new := Potluck.chat_history (Potluck.add_chat_message c p) in
  (exists dropped kept,
      (Potluck.chat_history p ++ [c] = dropped ++ new)%list
      /\ new = (kept ++ [c])%list
      /\ (List.length (Potluck.chat_history p) < Potluck.max_chat_history p
          -> dropped = []))
  /\ List.length new
     = Nat.min (Potluck.max_chat_history p)
               (S (List.length (Potluck.chat_history p))).
Proof.
  intros Hmax. cbv zeta. unfold Potluck.add_chat_message.
  set (h := (Potluck.chat_history p ++ [c])%list).
  assert (Hlen : List.length h = S (List.length (Potluck.chat_history p)))
    by (subst h; rewrite length_app; simpl; lia).
  destruct (Potluck.max_chat_history p <? List.length h)%nat eqn:E; simpl.
  - apply Nat.ltb_lt in E.
    destruct (slice_last_suffix (Potluck.max_chat_history p) h)
      as (dropped & Hd & _).
    split.
    + assert (Hne : slice_last (Potluck.max_chat_history p) h <> []).
      { intros Hnil.
        pose proof (slice_last_length (Potluck.max_chat_history p) h Hmax)
          as Hl.
        rewrite Hnil in Hl. simpl in Hl. lia. }
      destruct (exists_last Hne) as (kept & x & Hk).
      exists dropped, kept. split; [exact Hd|]. split; [|lia].
      rewrite Hk in Hd |- *. subst h.
      rewrite app_assoc in Hd. apply app_inj_tail in Hd as [_ ->].
      reflexivity.
    + rewrite slice_last_length by auto. now rewrite Hlen.
  - apply Nat.ltb_ge in E. split.
    + exists [], (Potluck.chat_history p). auto.
    + rewrite Hlen in *. lia.
Qed.

Definition log_capped (p : Potluck.t) : Prop :=
  Potluck.max_chat_history p = 100
  /\ List.length (Potluck.chat_history p) <= 100.

Lemma log_capped_chat c p :
  log_capped p -> log_capped (Potluck.add_chat_message c p).
Proof.
  intros [Hmax Hlen]. unfold log_capped, Potluck.add_chat_message.
  cbv zeta. rewrite Hmax.
  destruct (_ <? _)%nat eqn:E; unfold Potluck.set_chat_history;
    cbn [Potluck.chat_history Potluck.max_chat_history];
    (split; [exact Hmax|]).
  - rewrite slice_last_length by lia. lia.
  - apply Nat.ltb_ge in E. exact E.
Qed.

(** X2. In every reachable registry the chat log of every registered
    session holds at most 100 entries. *)
Theorem chat_log_capped w pid p :
  reachable w ->
  dict_get pid (parties (manager w)) = Some p ->
  List.length (Potluck.chat_history p) <= 100.
Proof.
  intros Hr Hp.
  refine (proj2 (sessions_invariant log_capped _ log_capped_chat _ _ _ _
                                    _ w Hr pid p Hp));
    try (intros; assumption).
  intros. split; simpl; lia.
Qed.

Definition settings_fixed (p : Potluck.t) : Prop :=
  Potluck.playback_rate p = 1%float
  /\ Potluck.sync_threshold p = 2%float
  /\ Potluck.require_ready p = true
  /\ Potluck.max_chat_history p = 100.

(** X3. No operation ever changes a session's settings: in every reachable
    registry every session has playback rate 1.0, sync threshold 2.0,
    [require_ready] set and a chat limit of 100. *)
Theorem settings_never_change w pid p :
  reachable w ->
  dict_get pid (parties (manager w)) = Some p ->
  Potluck.playback_rate p = 1%float
  /\ Potluck.sync_threshold p = 2%float
  /\ Potluck.require_ready p = true
  /\ Potluck.max_chat_history p = 100.
Proof.
  intros Hr Hp.
  refine (sessions_invariant settings_fixed _ _ _ _ _ _ _ w Hr pid p Hp);
    try (intros; assumption).
  - intros. repeat split.
  - intros c q H. unfold Potluck.add_chat_message.
    now destruct (_ <? _)%nat.
Qed.

(** ** Party codes *)

(** A character of the code alphabet that is none of the look-alikes. *)
Definition code_char_ok (c : ascii) : Prop :=
  In c (list_ascii_of_string chars)
  /\ c <> "0"%char /\ c <> "O"%char /\ c <> "1"%char /\ c <> "I"%char.

Definition code_ok (s : string) : Prop :=
  String.length s = 6 /\ Forall code_char_ok (list_ascii_of_string s).

Lemma code_char_in_alphabet b : code_char_ok (code_char b).
Proof.
  unfold code_char_ok.
  destruct b; vm_compute; (split; [tauto | repeat split; discriminate]).
Qed.

Lemma string_of_list_length (l : list ascii) :
  String.length (string_of_list_ascii l) = List.length l.
Proof. induction l; simpl; auto. Qed.

(** X4. A code drawn from a UUID of at least six bytes (a UUID has sixteen)
    has six characters, each from the 32-character alphabet and none of
    them 0, O, 1 or I; drawing it advances the counter of draws and leaves
    registry and wire alone. *)
Theorem generate_party_code_shape w :
  6 <= List.length (uuid_bytes (uuid4 (tick w))) ->
  exists code,
    generate_party_code w = (Ret code, next_tick w)
    /\ String.length code = 6
    /\ Forall code_char_ok (list_ascii_of_string code)
    /\ upper code = code.
Proof.
  intros Hlen. exists (party_code (uuid4 (tick w))).
  split; [reflexivity|]. unfold party_code. repeat split.
  - rewrite string_of_list_length, length_map, length_firstn. lia.
  - rewrite list_ascii_of_string_of_list_ascii. apply Forall_forall.
    intros c Hc. apply in_map_iff in Hc as (b & <- & _).
    apply code_char_in_alphabet.
  - apply upper_party_code.
Qed.

Lemma party_code_ok n :
  6 <= List.length (uuid_bytes (uuid4 n)) -> code_ok (party_code (uuid4 n)).
Proof.
  intros Hlen. unfold code_ok, party_code. split.
  - rewrite string_of_list_length, length_map, length_firstn. lia.
  - rewrite list_ascii_of_string_of_list_ascii. apply Forall_forall.
    intros c Hc. apply in_map_iff in Hc as (b & <- & _).
    apply code_char_in_alphabet.
Qed.

(** The draws the loop makes are the draws numbered from the counter on. *)
Lemma redraw_while_taken_draws fuel code w :
  match fst (redraw_while_taken fuel code w) with
  | Ret pid =>
      pid = code
      \/ exists i, i < fuel /\ pid = party_code (uuid4 (tick w + i))
  | Raise _ => False
  | Diverge =>
      dict_mem code (parties (manager w)) = true
      /\ forall i, i < fuel ->
           dict_mem (party_code (uuid4 (tick w + i))) (parties (manager w))
           = true
  end.
Proof.
  revert code w. induction fuel as [|fuel IH]; intros code w; simpl;
    run_step; destruct (dict_mem code (parties (manager w))) eqn:E; simpl;
    auto.
  - split; auto. intros i Hi. lia.
  - rewrite (bind_run _ _ _ _ _ (generate_party_code_eq w)).
    specialize (IH (party_code (uuid4 (tick w))) (next_tick w)).
    destruct (fst (redraw_while_taken fuel (party_code (uuid4 (tick w)))
                     (next_tick w))) as [pid|e|]; auto.
    + right. destruct IH as [-> | (i & Hi & ->)].
      * exists 0. split; [lia|]. now rewrite Nat.add_0_r.
      * exists (S i). split; [lia|]. simpl.
        now replace (tick w + S i) with (S (tick w + i)) by lia.
    + destruct IH as [H0 Hrest]. split; auto.
      intros [|i] Hi.
      * now rewrite Nat.add_0_r.
      * replace (tick w + S i) with (S (tick w + i)) by lia.
        apply (Hrest i). lia.
Qed.

(** X5. [create_party] fails to return only when every code it drew, the
    first and one per unit of fuel, was already registered; so it returns
    as soon as one of these draws is free. *)
Theorem create_party_gives_up_only_when_codes_taken
        fuel h hn mi mt ty ws w :
  fst (create_party fuel h hn mi mt ty ws w) = Diverge ->
  forall i, i <= fuel ->
    dict_mem (party_code (uuid4 (tick (left h w) + i)))
             (parties (manager (left h w)))
    = true.
Proof.
  unfold create_party. run_step.
  rewrite (bind_run _ _ _ _ _ (implicit_leave_eq h w)).
  rewrite (bind_run _ _ _ _ _ (generate_party_code_eq (left h w))).
  set (w1 := next_tick (left h w)).
  set (code := party_code (uuid4 (tick (left h w)))).
  pose proof (redraw_while_taken_draws fuel code w1) as Hd.
  destruct (redraw_while_taken fuel code w1) as [[pid|e|] w2] eqn:Hrun;
    simpl in Hd.
  - rewrite (bind_run _ _ _ _ _ Hrun). run_steps. discriminate.
  - destruct Hd.
  - intros _ [|i] Hi.
    + rewrite Nat.add_0_r. apply Hd.
    + destruct Hd as [_ Hrest]. specialize (Hrest i).
      simpl in Hrest.
      replace (tick (left h w) + S i) with (S (tick (left h w) + i))
        by lia.
      apply Hrest. lia.
Qed.

(** The code of a party that [create_party] returns is one of its draws. *)
Lemma create_party_code fuel h hn mi mt ty ws w p' :
  fst (create_party fuel h hn mi mt ty ws w) = Ret p' ->
  exists n, Potluck.party_id p' = party_code (uuid4 n).
Proof.
  unfold create_party. run_step.
  rewrite (bind_run _ _ _ _ _ (implicit_leave_eq h w)).
  rewrite (bind_run _ _ _ _ _ (generate_party_code_eq (left h w))).
  set (w1 := next_tick (left h w)).
  set (code := party_code (uuid4 (tick (left h w)))).
  pose proof (redraw_while_taken_draws fuel code w1) as Hd.
  destruct (redraw_while_taken fuel code w1) as [[pid|e|] w2] eqn:Hrun;
    simpl in Hd.
  - rewrite (bind_run _ _ _ _ _ Hrun). run_steps. unfold ret. simpl.
    intros [= <-]. unfold noticed.
    match goal with
    | |- context [Potluck.add_chat_message ?c ?q] =>
        destruct (add_chat_message_eq c q) as [hist ->]
    end.
    simpl. subst code. destruct Hd as [-> | (i & _ & ->)]; eauto.
  - destruct Hd.
  - rewrite (bind_diverge _ _ _ _ Hrun). discriminate.
Qed.

Definition codes_drawn (g : PotluckManager) : Prop :=
  forall pid p, dict_get pid (parties g) = Some p ->
    exists n, pid = party_code (uuid4 n).

Lemma codes_drawn_put g pid p' upm' :
  codes_drawn g ->
  (exists n, pid = party_code (uuid4 n)) ->
  codes_drawn {| parties := dict_set pid p' (parties g);
                 user_party_map := upm' |}.
Proof.
  intros Hg Hpid pid' q. simpl. destruct (string_dec pid pid') as [<-|Hne].
  - auto.
  - rewrite dict_get_set_ne by auto. apply Hg.
Qed.

Lemma codes_drawn_remove g pid upm' :
  codes_drawn g ->
  codes_drawn {| parties := dict_del pid (parties g);
                 user_party_map := upm' |}.
Proof.
  intros Hg pid' q. simpl. destruct (string_dec pid pid') as [<-|Hne].
  - now rewrite dict_get_del_eq.
  - rewrite dict_get_del_ne by auto. apply Hg.
Qed.

Lemma leave_party_codes u w :
  codes_drawn (manager w) -> codes_drawn (manager (snd (leave_party u w))).
Proof.
  intros Hg. pose proof (leave_party_effect u w) as H.
  unfold leave_effect in H.
  destruct (dict_get u (user_party_map (manager w))) as [pid|].
  2:{ now destruct H as [_ ->]. }
  destruct (dict_get pid (parties (manager w))) as [p|] eqn:Hp.
  2:{ destruct H as [_ ->]. exact Hg. }
  destruct H as [_ H]. pose proof (Hg _ _ Hp) as Hpid.
  destruct (String.eqb (Potluck.host_id p) u).
  - destruct (dict_del u (Potluck.members p)).
    + rewrite H. now apply codes_drawn_remove.
    + destruct H as [h ->]. now apply codes_drawn_put.
  - destruct H as [h ->]. now apply codes_drawn_put.
Qed.

Lemma left_codes u w :
  codes_drawn (manager w) -> codes_drawn (manager (left u w)).
Proof.
  unfold left. destruct (dict_mem _ _); auto. apply leave_party_codes.
Qed.

Lemma run_codes o w :
  codes_drawn (manager w) -> codes_drawn (manager (run o w)).
Proof.
  intros Hg. destruct o as [fuel h hn mi mt ty ws | code u un ws | u | u m];
    simpl.
  - pose proof (create_party_effect fuel h hn mi mt ty ws w) as H.
    pose proof (left_codes h w Hg) as Hg1.
    destruct H as [[_ ->] | (pid & ca & ja & hist & H)]; auto.
    cbv zeta in H. destruct H as (_ & _ & Hret & ->).
    apply codes_drawn_put; auto.
    apply create_party_code in Hret. exact Hret.
  - pose proof (join_party_effect code u un ws w) as H.
    unfold join_effect in H. cbv zeta in H.
    pose proof (left_codes u w Hg) as Hg1.
    destruct (dict_get (upper code) (parties (manager w))).
    2:{ now destruct H as [_ ->]. }
    destruct (dict_get (upper code) (parties (manager (left u w))))
      as [p|] eqn:Hp.
    2:{ now destruct H as [_ ->]. }
    destruct H as (hist & _ & ->). apply codes_drawn_put; eauto.
  - now apply leave_party_codes.
  - pose proof (handle_message_effect u m w) as H.
    destruct H as [-> | (pid & p & p' & Hp & -> & _)]; auto.
    apply codes_drawn_put; eauto.
Qed.

Lemma reachable_codes_drawn allowed w :
  reachable_via allowed w -> codes_drawn (manager w).
Proof.
  induction 1 as [w Hw | w o Hr IH Ho].
  - rewrite Hw. intros pid' q. discriminate.
  - now apply run_codes.
Qed.

(** X6. When every UUID has at least six bytes, every session of a
    reachable registry is registered under a code of six characters of the
    alphabet (none of them 0, O, 1 or I), and carries that code as its
    [party_id]. *)
Theorem registered_codes_well_formed w pid p :
  (forall n, 6 <= List.length (uuid_bytes (uuid4 n))) ->
  reachable w ->
  dict_get pid (parties (manager w)) = Some p ->
  Potluck.party_id p = pid
  /\ String.length pid = 6
  /\ Forall code_char_ok (list_ascii_of_string pid).
Proof.
  intros Hwf Hr Hp. split.
  - exact (ok_id (ok_parties (reachable_ok _ w Hr) _ Hp)).
  - destruct (reachable_codes_drawn _ w Hr _ _ Hp) as [n ->].
    apply party_code_ok, Hwf.
Qed.

(** ** Leaving *)

(** X7. [leave_party] for a participant who is in no session returns
    [False] and changes nothing: no registry change, no send, no draw. *)
Theorem leave_party_without_session u w :
  dict_get u (user_party_map (manager w)) = None ->
  leave_party u w = (Ret false, w).
Proof. intros Hu. unfold leave_party. run_step. now rewrite Hu. Qed.

Lemma leave_party_index u w :
  dict_get u (user_party_map (manager (snd (leave_party u w)))) = None.
Proof.
  pose proof (leave_party_effect u w) as H. unfold leave_effect in H.
  destruct (dict_get u (user_party_map (manager w))) as [pid|] eqn:Hu.
  - destruct (dict_get pid (parties (manager w))) as [p|].
    + destruct H as [_ H].
      destruct (String.eqb (Potluck.host_id p) u).
      * destruct (dict_del u (Potluck.members p));
          [rewrite H | destruct H as [h ->]]; apply dict_get_del_eq.
      * destruct H as [h ->]. apply dict_get_del_eq.
    + destruct H as [_ ->]. apply dict_get_del_eq.
  - destruct H as [_ ->]. exact Hu.
Qed.

(** X8. One call of [leave_party], made on a registry in which the
    participant is on no roster but that of the session the index gives for
    them, leaves the participant in no session: the index has no entry for
    them, no roster lists them, and leaving again returns [False] and
    changes nothing. *)
Theorem leave_party_leaves_no_trace u w :
  (forall pid p, dict_get pid (parties (manager w)) = Some p ->
                 dict_mem u (Potluck.members p) = true ->
                 dict_get u (user_party_map (manager w)) = Some pid) ->
  let w' := snd (leave_party u w) in
  dict_get u (user_party_map (manager w')) = None
  /\ (forall pid p, dict_get pid (parties (manager w')) = Some p ->
                    dict_mem u (Potluck.members p) = false)
  /\ leave_party u w' = (Ret false, w').
Proof.
  intros Hown. cbv zeta. pose proof (leave_party_index u w) as Hi.
  split; [exact Hi|]. split.
  - intros pid' p' Hp'.
    destruct (dict_mem u (Potluck.members p')) eqn:E; auto. exfalso.
    pose proof (leave_party_effect u w) as H. unfold leave_effect in H.
    destruct (dict_get u (user_party_map (manager w))) as [pid|] eqn:Hu.
    2:{ destruct H as [_ Hg]. rewrite Hg in Hp'.
        specialize (Hown _ _ Hp' E). discriminate. }
    assert (Hother : pid' <> pid ->
                     dict_get pid' (parties (manager w)) = Some p' -> False).
    { intros Hne Hq. specialize (Hown _ _ Hq E). congruence. }
    destruct (dict_get pid (parties (manager w))) as [p|] eqn:Hp.
    2:{ destruct H as [_ Hg]. rewrite Hg in Hp'. cbn [parties] in Hp'.
        destruct (String.eqb pid' pid) eqn:Ee.
        - apply String.eqb_eq in Ee. subst pid'. congruence.
        - apply String.eqb_neq in Ee. now apply Hother. }
    destruct H as [_ H].
    assert (Hgone : forall h q,
               Potluck.members q = Potluck.members (without_member u p)
               \/ q = promote_first (without_member u p) ->
               dict_mem u (Potluck.members (Potluck.set_chat_history h q))
               = false).
    { intros h q [Hq | ->]; cbn [Potluck.members Potluck.set_chat_history].
      - rewrite Hq. unfold without_member. cbn [Potluck.members
          Potluck.set_members]. rewrite dict_mem_del, String.eqb_refl.
        reflexivity.
      - rewrite promote_first_mem, dict_mem_del, String.eqb_refl.
        reflexivity. }
    assert (Hput : forall h q,
               Potluck.members q = Potluck.members (without_member u p)
               \/ q = promote_first (without_member u p) ->
               dict_get pid'
                 (dict_set pid (Potluck.set_chat_history h q)
                           (parties (manager w))) = Some p' -> False).
    { intros h q Hq Hget.
      destruct (String.eqb pid' pid) eqn:Ee.
      - apply String.eqb_eq in Ee. subst pid'.
        rewrite dict_get_set_eq in Hget. injection Hget as <-.
        rewrite (Hgone h q Hq) in E. discriminate.
      - apply String.eqb_neq in Ee.
        rewrite dict_get_set_ne in Hget by congruence.
        now apply Hother. }
    destruct (String.eqb (Potluck.host_id p) u).
    + destruct (dict_del u (Potluck.members p)) eqn:Ed.
      * rewrite H in Hp'. cbn [parties] in Hp'.
        destruct (String.eqb pid' pid) eqn:Ee.
        -- apply String.eqb_eq in Ee. subst pid'.
           rewrite dict_get_del_eq in Hp'. discriminate.
        -- apply String.eqb_neq in Ee.
           rewrite dict_get_del_ne in Hp' by congruence.
           now apply Hother.
      * destruct H as [h Hg]. rewrite Hg in Hp'. cbn [parties] in Hp'.
        apply (Hput h _ (or_intror eq_refl) Hp').
    + destruct H as [h Hg]. rewrite Hg in Hp'. cbn [parties] in Hp'.
      apply (Hput h _ (or_introl eq_refl) Hp').
  - revert Hi. generalize (snd (leave_party u w)). intros w' Hi.
    unfold leave_party. run_step. now rewrite Hi.
Qed.

(** X9. [leave_party] touches only the session the leaver is indexed
    under and only the leaver's index entry: every other session is
    registered afterwards exactly as before, and every other participant
    keeps their index entry. *)
Theorem leave_party_touches_own_session_only u w :
  let w' := snd (leave_party u w) in
  (forall pid, dict_get u (user_party_map (manager w)) <> Some pid ->
               dict_get pid (parties (manager w'))
               = dict_get pid (parties (manager w)))
  /\ (forall u', u' <> u ->
                 dict_get u' (user_party_map (manager w'))
                 = dict_get u' (user_party_map (manager w))).
Proof.
  cbv zeta. pose proof (leave_party_effect u w) as H.
  unfold leave_effect in H.
  destruct (dict_get u (user_party_map (manager w))) as [pid0|] eqn:Hu.
  2:{ destruct H as [_ ->]. auto. }
  assert (Hshape :
    (manager (snd (leave_party u w))
     = {| parties := parties (manager w);
          user_party_map := dict_del u (user_party_map (manager w)) |})
    \/ (manager (snd (leave_party u w))
        = {| parties := dict_del pid0 (parties (manager w));
             user_party_map := dict_del u (user_party_map (manager w)) |})
    \/ (exists q,
          manager (snd (leave_party u w))
          = {| parties := dict_set pid0 q (parties (manager w));
               user_party_map := dict_del u (user_party_map (manager w)) |})).
  { destruct (dict_get pid0 (parties (manager w))) as [p|].
    - destruct H as [_ H].
      destruct (String.eqb (Potluck.host_id p) u).
      + destruct (dict_del u (Potluck.members p)).
        * right. left. exact H.
        * destruct H as [h ->]. right. right. eauto.
      + destruct H as [h ->]. right. right. eauto.
    - destruct H as [_ ->]. now left. }
  split.
  - intros pid Hne. assert (pid0 <> pid) by congruence.
    destruct Hshape as [-> | [-> | [q ->]]]; simpl; auto.
    + now apply dict_get_del_ne.
    + now apply dict_get_set_ne.
  - intros u' Hne.
    destruct Hshape as [-> | [-> | [q ->]]]; simpl;
      apply dict_get_del_ne; auto.
Qed.

(** The connections a list of sends went to, in order. *)
Definition targets (ds : list Delivery) : list WebSocket :=
  map (fun d => fst (fst d)) ds.

Definition payloads (ds : list Delivery) : list pyval :=
  map (fun d => snd (fst d)) ds.

Lemma targets_attempts n l message :
  targets (attempts n l message) = map PartyMember.websocket l.
Proof.
  revert n. induction l as [|m r IH]; intros n; simpl; auto.
  now rewrite <- (IH (S n)).
Qed.

Lemma payloads_attempts n l message :
  payloads (attempts n l message) = map (fun _ => message) l.
Proof.
  revert n. induction l as [|m r IH]; intros n; simpl; auto.
  now rewrite <- (IH (S n)).
Qed.

Lemma targets_app ds1 ds2 :
  targets (ds1 ++ ds2) = (targets ds1 ++ targets ds2)%list.
Proof. apply map_app. Qed.

Lemma payloads_app ds1 ds2 :
  payloads (ds1 ++ ds2) = (payloads ds1 ++ payloads ds2)%list.
Proof. apply map_app. Qed.

Lemma noticed_shape text p w :
  exists kept,
    noticed text p w
    = Potluck.set_chat_history (kept ++ [system_notice text w])%list p.
Proof.
  unfold noticed, Potluck.add_chat_message.
  set (c := system_notice text w).
  destruct (_ <? _)%nat.
  - unfold slice_last. destruct (Potluck.max_chat_history p) as [|n].
    + now exists (Potluck.chat_history p).
    + exists (skipn (List.length (Potluck.chat_history p ++ [c]) - S n)
                    (Potluck.chat_history p)).
      rewrite skipn_app, length_app. simpl.
      replace (List.length (Potluck.chat_history p) + 1 - S n
               - List.length (Potluck.chat_history p)) with 0 by lia.
      reflexivity.
  - now exists (Potluck.chat_history p).
Qed.

Lemma noticed_members text p w :
  Potluck.members (noticed text p w) = Potluck.members p.
Proof. destruct (noticed_shape text p w) as [kept ->]. reflexivity. Qed.

Lemma to_dict_chat h p :
  Potluck.to_dict (Potluck.set_chat_history h p) = Potluck.to_dict p.
Proof. reflexivity. Qed.

Lemma to_dict_noticed text p w :
  Potluck.to_dict (noticed text p w) = Potluck.to_dict p.
Proof. destruct (noticed_shape text p w) as [kept ->]. reflexivity. Qed.

Lemma recipients_all p : recipients None p = dict_values (Potluck.members p).
Proof.
  unfold recipients. simpl. induction (dict_values (Potluck.members p));
    simpl; congruence.
Qed.

Lemma after_notice_wire ref p text w :
  wire (after_notice ref p text w)
  = (wire w ++ attempts (List.length (wire w))
                        (recipients None (noticed text p w))
                        (chat_envelope (system_notice text w)))%list.
Proof. reflexivity. Qed.

Lemma after_notice_manager ref p text w :
  manager (after_notice ref p text w)
  = {| parties := dict_set ref (noticed text p w) (parties (manager w));
       user_party_map := user_party_map (manager w) |}.
Proof. reflexivity. Qed.

(** X10. When the host leaves and others remain, the first remaining
    member in roster order is flagged and becomes the host, the rest of the
    roster and the playback state are kept, the log ends with the system
    notice "<name> is now the host", and each remaining member is sent three
    messages (the departure notice, the new-host notice, the roster update),
    roster by roster in that order. *)
Theorem host_leaves_first_member_promoted u w pid p m k first rest :
  dict_get u (user_party_map (manager w)) = Some pid ->
  dict_get pid (parties (manager w)) = Some p ->
  dict_get u (Potluck.members p) = Some m ->
  Potluck.host_id p = u ->
  dict_del u (Potluck.members p) = (k, first) :: rest ->
  let w' := snd (leave_party u w) in
  let remaining :=
    map PartyMember.websocket (first :: dict_values rest) in
  exists p' older host_notice ds,
    fst (leave_party u w) = Ret true
    /\ dict_get pid (parties (manager w')) = Some p'
    /\ Potluck.members p'
       = (k, PartyMember.set_is_host true first) :: rest
    /\ Potluck.host_id p' = PartyMember.user_id first
    /\ Potluck.is_playing p' = Potluck.is_playing p
    /\ Potluck.current_time p' = Potluck.current_time p
    /\ Potluck.chat_history p' = (older ++ [host_notice])%list
    /\ ChatMessage.message host_notice
       = VStr (PartyMember.username first ++ " is now the host")
    /\ ChatMessage.message_type host_notice = "system"
    /\ wire w' = (wire w ++ ds)%list
    /\ targets ds = (remaining ++ remaining ++ remaining)%list
    /\ exists left_notice,
         ChatMessage.message left_notice
         = VStr (PartyMember.username m ++ " left the party")
         /\ ChatMessage.message_type left_notice = "system"
         /\ payloads ds
            = (map (fun _ => chat_envelope left_notice) remaining
               ++ map (fun _ => chat_envelope host_notice) remaining
               ++ map (fun _ =>
                         VDict [("type", VStr "party_update");
                                ("party", Potluck.to_dict p')])
                      remaining)%list.
Proof.
  intros Hu Hp Hm Hhost Hdel. cbv zeta.
  unfold leave_party. run_step. rewrite Hu. run_step. rewrite Hp.
  unfold Potluck.remove_member. run_steps. rewrite Hm. run_step.
  match goal with
  | |- context [noticed ?t ?q ?w0] =>
      destruct (noticed_shape t q w0) as (kept1 & E1); rewrite E1
  end.
  cbn [Potluck.host_id Potluck.members Potluck.set_chat_history
       Potluck.set_members].
  apply String.eqb_eq in Hhost. rewrite Hhost, Hdel. run_steps.
  match goal with
  | |- context [after_notice pid ?q ?t ?w0] =>
      destruct (noticed_shape t q w0) as (kept2 & E2)
  end.
  eexists _, kept2, _, _. unfold ret. cbn [fst snd].
  split; [reflexivity|].
  cbn [manager sent]. rewrite !after_notice_manager.
  cbn [parties]. rewrite dict_get_set_eq.
  split; [reflexivity|]. rewrite E2.
  cbn [Potluck.members Potluck.host_id Potluck.is_playing
       Potluck.current_time Potluck.chat_history Potluck.set_chat_history
       Potluck.set_members Potluck.set_host_id].
  do 5 (split; [reflexivity|]).
  split; [reflexivity|]. split; [reflexivity|].
  cbn [wire sent].
  repeat first
    [ rewrite after_notice_wire
    | progress cbn [wire stored with_parties with_user_party_map] ].
  rewrite <- !app_assoc. split; [reflexivity|].
  split.
  { rewrite !targets_app, !targets_attempts, !recipients_all.
    rewrite ?noticed_members.
    cbn [Potluck.members Potluck.set_chat_history Potluck.set_members
         Potluck.set_host_id dict_values map snd PartyMember.websocket
         PartyMember.set_is_host].
    reflexivity. }
  eexists. split; [|split].
  3:{ rewrite !payloads_app, !payloads_attempts, !recipients_all.
      rewrite ?noticed_members, ?to_dict_noticed, ?to_dict_chat.
      cbn [Potluck.members Potluck.set_chat_history Potluck.set_members
           Potluck.set_host_id].
      unfold dict_values. cbn [map snd]. rewrite !map_map. reflexivity. }
  all: reflexivity.
Qed.

(** X11. When a member who is not the host leaves, the session stays
    registered with the same host and playback state and with the roster
    less that member, the log ends with the system notice "<name> left the
    party", and each remaining member is sent two messages (the notice, the
    roster update); nothing else is sent. *)
Theorem member_leaves_session_stays u w pid p m :
  dict_get u (user_party_map (manager w)) = Some pid ->
  dict_get pid (parties (manager w)) = Some p ->
  dict_get u (Potluck.members p) = Some m ->
  Potluck.host_id p <> u ->
  let w' := snd (leave_party u w) in
  let remaining :=
    map PartyMember.websocket (dict_values (dict_del u (Potluck.members p))) in
  exists p' older left_notice ds,
    fst (leave_party u w) = Ret true
    /\ dict_get pid (parties (manager w')) = Some p'
    /\ Potluck.members p' = dict_del u (Potluck.members p)
    /\ Potluck.host_id p' = Potluck.host_id p
    /\ Potluck.is_playing p' = Potluck.is_playing p
    /\ Potluck.current_time p' = Potluck.current_time p
    /\ Potluck.chat_history p' = (older ++ [left_notice])%list
    /\ ChatMessage.message left_notice
       = VStr (PartyMember.username m ++ " left the party")
    /\ ChatMessage.message_type left_notice = "system"
    /\ wire w' = (wire w ++ ds)%list
    /\ targets ds = (remaining ++ remaining)%list
    /\ payloads ds
       = (map (fun _ => chat_envelope left_notice) remaining
          ++ map (fun _ =>
                    VDict [("type", VStr "party_update");
                           ("party", Potluck.to_dict p')])
                 remaining)%list.
Proof.
  intros Hu Hp Hm Hhost. cbv zeta.
  unfold leave_party. run_step. rewrite Hu. run_step. rewrite Hp.
  unfold Potluck.remove_member. run_steps. rewrite Hm. run_step.
  match goal with
  | |- context [noticed ?t ?q ?w0] =>
      destruct (noticed_shape t q w0) as (kept1 & E1); rewrite E1
  end.
  cbn [Potluck.host_id Potluck.members Potluck.set_chat_history
       Potluck.set_members].
  apply String.eqb_neq in Hhost. rewrite Hhost. run_steps.
  eexists _, kept1, _, _. unfold ret. cbn [fst snd].
  split; [reflexivity|].
  cbn [manager sent]. rewrite !after_notice_manager.
  cbn [parties]. rewrite dict_get_set_eq.
  split; [reflexivity|]. rewrite E1.
  cbn [Potluck.members Potluck.host_id Potluck.is_playing
       Potluck.current_time Potluck.chat_history Potluck.set_chat_history
       Potluck.set_members Potluck.set_host_id].
  do 5 (split; [reflexivity|]).
  split; [reflexivity|]. split; [reflexivity|].
  cbn [wire sent].
  repeat first
    [ rewrite after_notice_wire
    | progress cbn [wire stored with_parties with_user_party_map] ].
  rewrite <- !app_assoc. split; [reflexivity|].
  split.
  { rewrite !targets_app, !targets_attempts, !recipients_all.
    rewrite ?noticed_members.
    cbn [Potluck.members Potluck.set_chat_history Potluck.set_members].
    reflexivity. }
  rewrite !payloads_app, !payloads_attempts, !recipients_all.
  rewrite ?noticed_members, ?to_dict_noticed, ?to_dict_chat.
  cbn [Potluck.members Potluck.set_chat_history Potluck.set_members].
  unfold dict_values. rewrite !map_map. reflexivity.
Qed.

(** ** Creating *)

Lemma redraw_while_taken_free fuel code w :
  dict_mem code (parties (manager w)) = false ->
  redraw_while_taken fuel code w = (Ret code, w).
Proof.
  intros H. destruct fuel; simpl; run_step; now rewrite H.
Qed.

(** X12. When the first code drawn is free, [create_party] returns a
    session registered under that code and indexed for the host: paused at
    position 0.0, with the host as its only member (flagged host and
    ready), and a one-entry log, the system notice "<name> created the
    watch party", which is sent to the host's connection and to nobody
    else. *)
Theorem create_party_new_session fuel h hn mi mt ty ws w :
  let w1 := left h w in
  let code := party_code (uuid4 (tick w1)) in
  dict_mem code (parties (manager w1)) = false ->
  let w' := snd (create_party fuel h hn mi mt ty ws w) in
  exists p' notice ok,
    fst (create_party fuel h hn mi mt ty ws w) = Ret p'
    /\ dict_get code (parties (manager w')) = Some p'
    /\ dict_get h (user_party_map (manager w')) = Some code
    /\ Potluck.party_id p' = code
    /\ Potluck.host_id p' = h
    /\ Potluck.is_playing p' = false
    /\ Potluck.current_time p' = VFloat 0
    /\ (exists joined_at,
           Potluck.members p'
           = [(h, PartyMember.mk h hn ws true joined_at (VBool true)
                                 (VFloat 0))])
    /\ Potluck.chat_history p' = [notice]
    /\ ChatMessage.message notice = VStr (hn ++ " created the watch party")
    /\ ChatMessage.message_type notice = "system"
    /\ wire w' = (wire w1 ++ [(ws, chat_envelope notice, ok)])%list.
Proof.
  cbv zeta. intros Hfree. unfold create_party. run_step.
  rewrite (bind_run _ _ _ _ _ (implicit_leave_eq h w)).
  rewrite (bind_run _ _ _ _ _ (generate_party_code_eq (left h w))).
  rewrite (bind_run _ _ _ _ _
             (redraw_while_taken_free fuel _ (next_tick (left h w)) Hfree)).
  run_steps. unfold ret. cbn [fst snd].
  eexists _, _, _. split; [reflexivity|].
  rewrite after_notice_manager. cbn [parties user_party_map manager
    with_user_party_map with_parties].
  rewrite !dict_get_set_eq. split; [reflexivity|]. split; [reflexivity|].
  unfold noticed, Potluck.add_chat_message.
  cbn [Potluck.add_member Potluck.new Potluck.set_members Potluck.members
       Potluck.chat_history Potluck.max_chat_history app List.length
       PartyMember.user_id dict_set].
  change (100 <? 1)%nat with false. cbv iota.
  cbn [Potluck.set_chat_history Potluck.party_id Potluck.host_id
       Potluck.is_playing Potluck.current_time Potluck.members
       Potluck.chat_history Potluck.media_id Potluck.media_title
       Potluck.media_type Potluck.created_at Potluck.playback_rate
       Potluck.max_chat_history Potluck.require_ready
       Potluck.sync_threshold].
  do 4 (split; [reflexivity|]).
  split; [eexists; reflexivity|].
  do 3 (split; [reflexivity|]).
  rewrite after_notice_wire, recipients_all, noticed_members.
  cbn [Potluck.add_member Potluck.new Potluck.set_members Potluck.members
       PartyMember.user_id dict_set dict_values map snd attempts wire
       with_user_party_map with_parties next_tick PartyMember.websocket].
  reflexivity.
Qed.

(** X13. [create_party] never replaces a registered session: every session
    registered once the host's implicit leave is done is registered under
    the same code, unchanged, after the call, and the other participants
    keep their index entries. *)
Theorem create_party_keeps_other_sessions fuel h hn mi mt ty ws w :
  let w1 := left h w in
  let w' := snd (create_party fuel h hn mi mt ty ws w) in
  (forall pid q, dict_get pid (parties (manager w1)) = Some q ->
                 dict_get pid (parties (manager w')) = Some q)
  /\ (forall u, u <> h ->
                dict_get u (user_party_map (manager w'))
                = dict_get u (user_party_map (manager w1))).
Proof.
  cbv zeta.
  pose proof (create_party_effect fuel h hn mi mt ty ws w) as H.
  destruct H as [[_ ->] | (pid0 & ca & ja & hist & H)]; [auto|].
  cbv zeta in H. destruct H as (Hfree & _ & _ & ->). simpl. split.
  - intros pid q Hq. rewrite dict_get_set_ne; auto. congruence.
  - intros u Hne. now rewrite dict_get_set_ne by auto.
Qed.

(** ** Joining *)

Lemma dict_keys_set_new {V} k (v : V) (d : dict V) :
  dict_get k d = None -> dict_set k v d = (d ++ [(k, v)])%list.
Proof.
  induction d as [|[k0 v0] r IH]; simpl; auto.
  destruct (String.eqb k0 k); [discriminate|]. intros H. now rewrite IH.
Qed.

Lemma upper_bytes s :
  list_ascii_of_string (upper s)
  = map (fun c => let n := nat_of_ascii c in
                  if (97 <=? n)%nat && (n <=? 122)%nat
                  then ascii_of_nat (n - 32) else c)
        (list_ascii_of_string s).
Proof. induction s as [|c r IH]; simpl; [reflexivity | now rewrite IH]. Qed.

(** X14. [join_party] with an ASCII code that, with its letters a-z put
    in upper case and every other character kept, matches no registered
    session returns [None] and changes nothing: the joiner even stays in
    the session they were in. *)
Theorem join_party_unknown_code code u username ws w :
  is_ascii code = true ->
  (forall pid,
      list_ascii_of_string pid
      = map (fun c => let n := nat_of_ascii c in
                      if (97 <=? n)%nat && (n <=? 122)%nat
                      then ascii_of_nat (n - 32) else c)
            (list_ascii_of_string code) ->
      dict_get pid (parties (manager w)) = None) ->
  join_party code u username ws w = (Ret None, w).
Proof.
  intros _ H. unfold join_party. cbv zeta. run_step.
  unfold dict_mem. now rewrite (H (upper code) (upper_bytes code)).
Qed.

(** The sends of the history replay: one per message, all to one
    connection, the first being call number [n]. *)
Fixpoint replay (n : nat) (ws : WebSocket) (messages : list pyval)
  : list Delivery :=
  match messages with
  | [] => []
  | msg :: r => (ws, msg, negb (send_fails n ws)) :: replay (S n) ws r
  end.

Lemma replay_targets n ws messages :
  targets (replay n ws messages) = map (fun _ => ws) messages.
Proof.
  revert n. induction messages as [|m r IH]; intros n; simpl; auto.
  now rewrite <- (IH (S n)).
Qed.

Lemma replay_payloads n ws messages :
  payloads (replay n ws messages) = messages.
Proof.
  revert n. induction messages as [|m r IH]; intros n; simpl; auto.
  now rewrite (IH (S n)).
Qed.

Lemma join_loop_exact member (l : list ChatMessage.t) w :
  for_each l (fun msg => _send_to_member member (chat_envelope msg)) w
  = (Ret tt,
     sent (replay (List.length (wire w)) (PartyMember.websocket member)
                  (map chat_envelope l)) w).
Proof.
  revert w. induction l as [|c r IH]; intros w; simpl.
  - unfold ret. now rewrite sent_nil.
  - run_step. rewrite IH, sent_sent. simpl.
    rewrite length_app. simpl. now rewrite Nat.add_1_r.
Qed.

Lemma wire_chain {A} (a b c d e : list A) :
  ((((a ++ b) ++ c) ++ d) ++ e = a ++ b ++ c ++ d ++ e)%list.
Proof. now rewrite <- !app_assoc. Qed.

Lemma slice_last_snoc {A} n (l : list A) (x : A) :
  exists earlier, slice_last n (l ++ [x]) = (earlier ++ [x])%list.
Proof.
  unfold slice_last. destruct n as [|n].
  - now exists l.
  - exists (skipn (List.length (l ++ [x]) - S n) l).
    rewrite skipn_app, length_app. simpl.
    replace (List.length l + 1 - S n - List.length l) with 0 by lia.
    reflexivity.
Qed.

(** X15. A join that finds the session (still registered once the joiner's
    implicit leave is done) returns it with the joiner added last to the
    roster as a member who is neither host nor ready, and indexes the
    joiner under the code. On the wire, in this order: the roster update
    and then the notice "<name> joined the party" go to every member, the
    joiner included; the joiner is sent the session's playback state as a
    [sync]; and the joiner is sent the last 20 log entries, oldest first,
    the last of them being the join notice itself. *)
Theorem join_party_welcomes_the_joiner code u username ws w p :
  dict_get (upper code) (parties (manager w)) <> None ->
  dict_get (upper code) (parties (manager (left u w))) = Some p ->
  dict_get u (Potluck.members p) = None ->
  let w1 := left u w in
  let w' := snd (join_party code u username ws w) in
  let everyone :=
    (map PartyMember.websocket (dict_values (Potluck.members p)) ++ [ws])%list
  in
  exists p' joined_at older notice updates notices ok history earlier,
    fst (join_party code u username ws w) = Ret (Some p')
    /\ dict_get (upper code) (parties (manager w')) = Some p'
    /\ dict_get u (user_party_map (manager w')) = Some (upper code)
    /\ Potluck.members p'
       = (Potluck.members p
          ++ [(u, PartyMember.mk u username ws false joined_at
                                 (VBool false) (VFloat 0))])%list
    /\ Potluck.host_id p' = Potluck.host_id p
    /\ Potluck.chat_history p' = (older ++ [notice])%list
    /\ ChatMessage.message notice = VStr (username ++ " joined the party")
    /\ wire w'
       = (wire w1 ++ updates ++ notices
          ++ [(ws, VDict (sync_fields p), ok)] ++ history)%list
    /\ targets updates = everyone
    /\ targets notices = everyone
    /\ payloads notices = map (fun _ => chat_envelope notice) everyone
    /\ targets history = map (fun _ => ws) (payloads history)
    /\ payloads history
       = map chat_envelope (slice_last 20 (Potluck.chat_history p'))
    /\ payloads history = (earlier ++ [chat_envelope notice])%list
    /\ payloads updates
       = map (fun _ => VDict [("type", VStr "party_update");
                              ("party", Potluck.to_dict p')])
             everyone.
Proof.
  intros Hreg Hp Hnew. cbv zeta. unfold join_party. cbv zeta. run_step.
  assert (Hmem : dict_mem (upper code) (parties (manager w)) = true).
  { unfold dict_mem.
    destruct (dict_get (upper code) (parties (manager w))); congruence. }
  rewrite Hmem. change (negb true) with false. cbv iota. run_step.
  rewrite (bind_run _ _ _ _ _ (implicit_leave_eq u w)). run_step.
  rewrite Hp. run_steps.
  match goal with
  | |- context [bind (for_each ?l ?f) ?k ?w0] =>
      rewrite (bind_run (for_each l f) k w0 _ _
                 (join_loop_exact
                    (PartyMember.mk u username ws false
                       (utcnow (tick (left u w))) (VBool false) (VFloat 0))
                    l w0))
  end.
  match goal with
  | |- context [noticed ?t ?q ?w0] =>
      destruct (noticed_shape t q w0) as (kept & E);
      destruct (slice_last_snoc 20 kept (system_notice t w0))
        as (earlier & Es)
  end.
  eexists _, _, kept, _, _, _, _, _, (map chat_envelope earlier).
  unfold ret. cbn [fst snd]. split; [reflexivity|].
  cbn [manager sent]. rewrite after_notice_manager. rewrite E.
  cbn [parties user_party_map manager with_user_party_map sent stored
       with_parties next_tick].
  rewrite !dict_get_set_eq. split; [reflexivity|]. split; [reflexivity|].
  unfold Potluck.add_member.
  cbn [Potluck.members Potluck.host_id Potluck.chat_history
       Potluck.set_chat_history Potluck.set_members PartyMember.user_id].
  rewrite ?(dict_keys_set_new u _ (Potluck.members p) Hnew).
  split; [reflexivity|]. split; [reflexivity|]. split; [reflexivity|].
  split; [reflexivity|].
  cbn [wire sent].
  repeat first
    [ rewrite after_notice_wire
    | progress cbn [wire stored with_parties with_user_party_map next_tick
                    sent] ].
  cbn [attempts PartyMember.websocket].
  split; [apply wire_chain|].
  rewrite !targets_attempts, !payloads_attempts, !recipients_all,
    ?noticed_members.
  unfold Potluck.add_member.
  cbn [Potluck.members Potluck.set_members PartyMember.user_id].
  rewrite ?(dict_keys_set_new u _ (Potluck.members p) Hnew).
  unfold dict_values. rewrite !map_app, !map_map. cbn [map snd
    PartyMember.websocket].
  split; [reflexivity|]. split; [reflexivity|].
  split; [rewrite ?map_app, ?map_map; reflexivity|].
  rewrite replay_targets, replay_payloads, map_map.
  split; [reflexivity|]. split; [reflexivity|].
  split; [exact (eq_trans (f_equal (map chat_envelope) Es) (map_app _ _ _))|].
  rewrite ?map_app, ?map_map. reflexivity.
Qed.

(** ** What each event does *)

(** [utf8_prefix] cuts the text in two at the start of a code point, and
    what it keeps has [min(n, len(text))] code points. *)
Lemma utf8_prefix_cut n s :
  exists rest,
    s = (utf8_prefix n s ++ rest)%string
    /\ match rest with
       | EmptyString => True
       | String c _ => utf8_continuation c = false
       end.
Proof.
  revert n. induction s as [|c r IH]; intros n; simpl.
  - now exists EmptyString.
  - destruct (utf8_continuation c) eqn:E.
    + destruct (IH n) as (rest & Hr & Hb). exists rest. split; auto.
      simpl. now rewrite <- Hr.
    + destruct n as [|n].
      * exists (String c r). simpl. auto.
      * destruct (IH n) as (rest & Hr & Hb). exists rest. split; auto.
        simpl. now rewrite <- Hr.
Qed.

Lemma utf8_prefix_length n s :
  utf8_length (utf8_prefix n s) = Nat.min n (utf8_length s).
Proof.
  revert n. induction s as [|c r IH]; intros n; simpl.
  - now rewrite Nat.min_0_r.
  - destruct (utf8_continuation c) eqn:E; simpl; rewrite ?E; simpl.
    + apply IH.
    + destruct n as [|n]; simpl; rewrite ?E; simpl; auto.
Qed.

(** On ASCII text a code point is a byte. *)
Lemma utf8_prefix_ascii n s :
  is_ascii s = true -> utf8_prefix n s = substring 0 n s.
Proof.
  unfold is_ascii. revert n. induction s as [|c r IH]; intros n H; simpl in *.
  - now destruct n.
  - apply andb_prop in H as [Hc Hr]. apply Nat.ltb_lt in Hc.
    unfold utf8_continuation.
    replace (128 <=? nat_of_ascii c)%nat with false
      by (symmetry; apply Nat.leb_gt; exact Hc).
    simpl. destruct n as [|n]; auto. now rewrite IH.
Qed.

Lemma add_chat_message_shape c p :
  exists kept,
    Potluck.add_chat_message c p
    = Potluck.set_chat_history (kept ++ [c])%list p.
Proof.
  unfold Potluck.add_chat_message.
  destruct (_ <? _)%nat.
  - unfold slice_last. destruct (Potluck.max_chat_history p) as [|n].
    + now exists (Potluck.chat_history p).
    + exists (skipn (List.length (Potluck.chat_history p ++ [c]) - S n)
                    (Potluck.chat_history p)).
      rewrite skipn_app, length_app. simpl.
      replace (List.length (Potluck.chat_history p) + 1 - S n
               - List.length (Potluck.chat_history p)) with 0 by lia.
      reflexivity.
  - now exists (Potluck.chat_history p).
Qed.

(** X16. A [chat] event with a text message is logged and fanned out: the
    session gets one new last log entry carrying the sender's id and name,
    kind "chat" and the first 500 code points of the text (the empty text
    when no message is given): the text is cut at the start of a code
    point, what is kept has [min(500, len(text))] code points, and for
    ASCII text it is the first 500 bytes.  Nothing else of the session
    changes; and every member, the sender included, is sent that entry
    once, in roster order. *)
Theorem chat_is_logged_and_broadcast u message w pid party member text :
  dict_get u (user_party_map (manager w)) = Some pid ->
  dict_get pid (parties (manager w)) = Some party ->
  dict_get u (Potluck.members party) = Some member ->
  dict_get "type" message = Some (VStr "chat") ->
  dict_get_default "message" (VStr "") message = VStr text ->
  let w' := snd (handle_message u message w) in
  exists entry older ds,
    fst (handle_message u message w) = Ret tt
    /\ manager w'
       = {| parties :=
              dict_set pid
                (Potluck.set_chat_history (older ++ [entry])%list party)
                (parties (manager w));
            user_party_map := user_party_map (manager w) |}
    /\ ChatMessage.user_id entry = u
    /\ ChatMessage.username entry = PartyMember.username member
    /\ ChatMessage.message_type entry = "chat"
    /\ (exists kept rest,
           ChatMessage.message entry = VStr kept
           /\ text = (kept ++ rest)%string
           /\ utf8_length kept = Nat.min 500 (utf8_length text)
           /\ match rest with
              | EmptyString => True
              | String c _ => utf8_continuation c = false
              end
           /\ (is_ascii text = true -> kept = substring 0 500 text))
    /\ wire w' = (wire w ++ ds)%list
    /\ targets ds
       = map PartyMember.websocket (dict_values (Potluck.members party))
    /\ payloads ds
       = map (fun _ => chat_envelope entry)
             (dict_values (Potluck.members party)).
Proof.
  intros Hu Hp Hm Hty Hmsg. cbv zeta. route Hu Hp Hm.
  rewrite (type_of_kind _ _ Hty). kind_tests. run_step.
  rewrite Hmsg. cbn [py_slice_to]. rewrite bind_lift_ok. run_steps.
  rewrite _broadcast_eq.
  match goal with
  | |- context [Potluck.add_chat_message ?c ?q] =>
      destruct (add_chat_message_shape c q) as (kept & E); rewrite E
  end.
  eexists _, kept, _. cbn [fst snd].
  split; [reflexivity|]. split; [reflexivity|].
  cbn [ChatMessage.user_id ChatMessage.username ChatMessage.message_type
       ChatMessage.message].
  do 3 (split; [reflexivity|]).
  split.
  { destruct (utf8_prefix_cut 500 text) as (rest & Hcut & Hb).
    exists (utf8_prefix 500 text), rest.
    split; [reflexivity|]. split; [exact Hcut|].
    split; [apply utf8_prefix_length|]. split; [exact Hb|].
    apply utf8_prefix_ascii. }
  split; [reflexivity|].
  rewrite targets_attempts, payloads_attempts, recipients_all.
  split; reflexivity.
Qed.

(** X17. A [chat] event whose message is neither text nor a list (a
    number, a boolean, [None], an object) is not dropped: the handler
    raises [TypeError] on slicing it, after drawing the id of the entry;
    registry and wire are as before. *)
Theorem chat_with_unsliceable_message_raises
        u message w pid party member v :
  dict_get u (user_party_map (manager w)) = Some pid ->
  dict_get pid (parties (manager w)) = Some party ->
  dict_get u (Potluck.members party) = Some member ->
  dict_get "type" message = Some (VStr "chat") ->
  dict_get "message" message = Some v ->
  match v with VStr _ | VList _ => False | _ => True end ->
  handle_message u message w = (Raise TypeError, next_tick w).
Proof.
  intros Hu Hp Hm Hty Hmsg Hv. route Hu Hp Hm.
  rewrite (type_of_kind _ _ Hty). kind_tests. run_step.
  unfold dict_get_default. rewrite Hmsg.
  destruct v; try destruct Hv; reflexivity.
Qed.

(** X18. A [reaction] event is fanned out and not kept: registry and
    counters are as before, and every member, the sender included, is sent
    the reaction with the sender's id and name and the emoji of the event
    (the default one when none is given). *)
Theorem reaction_is_broadcast_not_logged u message w pid party member :
  dict_get u (user_party_map (manager w)) = Some pid ->
  dict_get pid (parties (manager w)) = Some party ->
  dict_get u (Potluck.members party) = Some member ->
  dict_get "type" message = Some (VStr "reaction") ->
  let w' := snd (handle_message u message w) in
  let reaction :=
    VDict [("type", VStr "reaction"); ("user_id", VStr u);
           ("username", VStr (PartyMember.username member));
           ("emoji", dict_get_default "emoji" (VStr default_emoji) message)]
  in
  exists ds,
    fst (handle_message u message w) = Ret tt
    /\ manager w' = manager w
    /\ tick w' = tick w
    /\ wire w' = (wire w ++ ds)%list
    /\ targets ds
       = map PartyMember.websocket (dict_values (Potluck.members party))
    /\ payloads ds
       = map (fun _ => reaction) (dict_values (Potluck.members party)).
Proof.
  intros Hu Hp Hm Hty. cbv zeta. route Hu Hp Hm.
  rewrite (type_of_kind _ _ Hty). kind_tests. rewrite _broadcast_eq.
  eexists. cbn [fst snd]. do 4 (split; [reflexivity|]).
  rewrite targets_attempts, payloads_attempts, recipients_all.
  split; reflexivity.
Qed.

(** X19. A [ready] event stores the payload ([True] when none is given) as
    the sender's own ready flag and changes nothing else of the session;
    every member is then sent the session summary, which shows the new
    flag. *)
Theorem ready_sets_own_flag u message w pid party member :
  dict_get u (user_party_map (manager w)) = Some pid ->
  dict_get pid (parties (manager w)) = Some party ->
  dict_get u (Potluck.members party) = Some member ->
  dict_get "type" message = Some (VStr "ready") ->
  let w' := snd (handle_message u message w) in
  let member' :=
    PartyMember.set_is_ready (dict_get_default "ready" (VBool true) message)
                             member in
  let party' := update_member u member' party in
  exists ds,
    fst (handle_message u message w) = Ret tt
    /\ manager w'
       = {| parties := dict_set pid party' (parties (manager w));
            user_party_map := user_party_map (manager w) |}
    /\ dict_get u (Potluck.members party') = Some member'
    /\ (forall u', u' <> u ->
                   dict_get u' (Potluck.members party')
                   = dict_get u' (Potluck.members party))
    /\ wire w' = (wire w ++ ds)%list
    /\ targets ds
       = map PartyMember.websocket (dict_values (Potluck.members party'))
    /\ payloads ds
       = map (fun _ => VDict [("type", VStr "party_update");
                              ("party", Potluck.to_dict party')])
             (dict_values (Potluck.members party')).
Proof.
  intros Hu Hp Hm Hty. cbv zeta. route Hu Hp Hm.
  rewrite (type_of_kind _ _ Hty). kind_tests. run_steps.
  rewrite _broadcast_party_update_eq.
  eexists. cbn [fst snd]. do 2 (split; [reflexivity|]).
  split; [apply dict_get_set_eq|].
  split; [intros u' Hne; apply dict_get_set_ne; auto|].
  split; [reflexivity|].
  rewrite targets_attempts, payloads_attempts, recipients_all.
  split; reflexivity.
Qed.

(** X20. A [seek] of the host sets the session's position to the [time]
    of the event (0 when none is given) and nothing else; the sync directive
    with the new position goes to every member but the sender, in roster
    order. (A sender whose id is the empty string is not excluded.) *)
Theorem host_seek_syncs_the_others u message w pid party member :
  dict_get u (user_party_map (manager w)) = Some pid ->
  dict_get pid (parties (manager w)) = Some party ->
  dict_get u (Potluck.members party) = Some member ->
  PartyMember.is_host member = true ->
  dict_get "type" message = Some (VStr "seek") ->
  let w' := snd (handle_message u message w) in
  let t := dict_get_default "time" (VInt 0) message in
  let party' := Potluck.set_current_time t party in
  let others :=
    filter (fun m => negb (String.eqb (PartyMember.user_id m) u))
           (dict_values (Potluck.members party)) in
  let sync :=
    VDict [("type", VStr "sync");
           ("is_playing", VBool (Potluck.is_playing party));
           ("current_time", t);
           ("playback_rate", VFloat (Potluck.playback_rate party))] in
  exists ds,
    fst (handle_message u message w) = Ret tt
    /\ manager w'
       = {| parties := dict_set pid party' (parties (manager w));
            user_party_map := user_party_map (manager w) |}
    /\ wire w' = (wire w ++ ds)%list
    /\ (u <> "" -> targets ds = map PartyMember.websocket others)
    /\ (u = "" ->
        targets ds
        = map PartyMember.websocket (dict_values (Potluck.members party)))
    /\ Forall (fun msg => msg = sync) (payloads ds).
Proof.
  intros Hu Hp Hm Hhost Hty. cbv zeta. route Hu Hp Hm.
  rewrite (type_of_kind _ _ Hty), Hhost. kind_tests. run_steps.
  rewrite _broadcast_eq.
  eexists. cbn [fst snd]. do 3 (split; [reflexivity|]).
  rewrite targets_attempts, payloads_attempts. unfold recipients.
  cbn [Potluck.members Potluck.set_current_time is_excluded].
  split; [|split].
  - intros Hne. apply String.eqb_neq in Hne. rewrite Hne. reflexivity.
  - intros ->. simpl. f_equal.
    induction (dict_values (Potluck.members party)); simpl; congruence.
  - apply Forall_forall. intros x Hx. apply in_map_iff in Hx as (m & <- & _).
    reflexivity.
Qed.

(** X21. A [play] or [pause] of the host sets [is_playing] accordingly and
    the position to the [time] of the event (the position is kept when none
    is given); the sync directive with the new state goes to every member,
    the host included, in roster order. *)
Theorem host_play_pause_syncs_everyone
        u message w pid party member k (playing : bool) :
  dict_get u (user_party_map (manager w)) = Some pid ->
  dict_get pid (parties (manager w)) = Some party ->
  dict_get u (Potluck.members party) = Some member ->
  PartyMember.is_host member = true ->
  dict_get "type" message = Some (VStr k) ->
  (k = "play" /\ playing = true) \/ (k = "pause" /\ playing = false) ->
  let w' := snd (handle_message u message w) in
  let t := dict_get_default "time" (Potluck.current_time party) message in
  let party' :=
    Potluck.set_current_time t (Potluck.set_is_playing playing party) in
  let sync :=
    VDict [("type", VStr "sync"); ("is_playing", VBool playing);
           ("current_time", t);
           ("playback_rate", VFloat (Potluck.playback_rate party))] in
  exists ds,
    fst (handle_message u message w) = Ret tt
    /\ manager w'
       = {| parties := dict_set pid party' (parties (manager w));
            user_party_map := user_party_map (manager w) |}
    /\ wire w' = (wire w ++ ds)%list
    /\ targets ds
       = map PartyMember.websocket (dict_values (Potluck.members party))
    /\ payloads ds
       = map (fun _ => sync) (dict_values (Potluck.members party)).
Proof.
  intros Hu Hp Hm Hhost Hty Hk. cbv zeta. route Hu Hp Hm.
  rewrite (type_of_kind _ _ Hty), Hhost.
  destruct Hk as [[-> ->] | [-> ->]]; kind_tests; run_steps;
    rewrite _broadcast_eq;
    eexists; cbn [fst snd]; (do 3 (split; [reflexivity|]));
    rewrite targets_attempts, payloads_attempts, recipients_all;
    split; reflexivity.
Qed.

(** X22. An event from a participant who is in no session is dropped:
    the call returns and nothing changes. *)
Theorem event_without_session_is_dropped u message w :
  dict_get u (user_party_map (manager w)) = None ->
  handle_message u message w = (Ret tt, w).
Proof. intros Hu. unfold handle_message. run_step. now rewrite Hu. Qed.

(** X23. [_send_to_member] never raises: it makes exactly one call of
    [send_json], to the member's connection, and returns whether that call
    succeeded or failed; the registry is not touched. *)
Theorem send_to_member_never_raises member message w :
  fst (_send_to_member member message w) = Ret tt
  /\ manager (snd (_send_to_member member message w)) = manager w
  /\ wire (snd (_send_to_member member message w))
     = (wire w
        ++ [(PartyMember.websocket member, message,
             negb (send_fails (List.length (wire w))
                              (PartyMember.websocket member)))])%list.
Proof.
  unfold _send_to_member, try_except, send_json.
  destruct (send_fails _ _); simpl; auto.
Qed.

(** ** Lookups and the public listing *)

Lemma insert_desc_in {A} key (x y : A) l :
  In y (insert_desc key x l) <-> y = x \/ In y l.
Proof.
  induction l as [|z r IH]; simpl.
  - intuition.
  - destruct (key z <=? key x)%Z; simpl; [intuition|].
    rewrite IH. intuition.
Qed.

Lemma insert_desc_length {A} key (x : A) l :
  List.length (insert_desc key x l) = S (List.length l).
Proof.
  induction l as [|z r IH]; simpl; auto.
  destruct (key z <=? key x)%Z; simpl; auto.
Qed.

Lemma sorted_desc_in {A} key (y : A) l : In y (sorted_desc key l) <-> In y l.
Proof.
  induction l as [|x r IH]; simpl; [tauto|].
  rewrite insert_desc_in, IH. intuition.
Qed.

Lemma sorted_desc_length {A} key (l : list A) :
  List.length (sorted_desc key l) = List.length l.
Proof.
  induction l as [|x r IH]; simpl; auto.
  now rewrite insert_desc_length, IH.
Qed.

Definition descending {A} (key : A -> Z) (l : list A) : Prop :=
  StronglySorted (fun a b => (key b <= key a)%Z) l.

Lemma insert_desc_sorted {A} key (x : A) l :
  descending key l -> descending key (insert_desc key x l).
Proof.
  unfold descending. induction l as [|z r IH]; simpl; intros Hs.
  - constructor; constructor.
  - apply StronglySorted_inv in Hs as [Hr Hz].
    destruct (key z <=? key x)%Z eqn:E.
    + apply Z.leb_le in E. constructor; [constructor; auto|].
      constructor; auto. rewrite Forall_forall in *. intros b Hb.
      specialize (Hz b Hb). lia.
    + apply Z.leb_gt in E. constructor; auto.
      apply Forall_forall. intros b Hb. apply insert_desc_in in Hb.
      destruct Hb as [-> | Hb]; [lia|].
      rewrite Forall_forall in Hz. auto.
Qed.

Lemma sorted_desc_sorted {A} key (l : list A) :
  descending key (sorted_desc key l).
Proof.
  induction l as [|x r IH]; simpl.
  - constructor.
  - now apply insert_desc_sorted.
Qed.

Lemma in_firstn_in {A} n (l : list A) x : In x (firstn n l) -> In x l.
Proof.
  revert n. induction l as [|y r IH]; intros [|n]; simpl; intros H;
    try (now destruct H).
  destruct H as [->|H]; eauto.
Qed.

Lemma descending_firstn {A} key n (l : list A) :
  descending key l -> descending key (firstn n l).
Proof.
  unfold descending. revert n. induction l as [|x r IH]; intros [|n] Hs;
    simpl; try constructor.
  - apply IH. now apply StronglySorted_inv in Hs.
  - apply StronglySorted_inv in Hs as [_ Hx].
    rewrite Forall_forall in *. intros b Hb. apply Hx.
    eapply in_firstn_in; eauto.
Qed.

(** X24. [list_public_parties] returns summaries of registered sessions
    only, in descending order of member count; for a limit that is not
    negative it returns [min(limit, number of sessions)] of them, and with a
    limit of at least the number of sessions it lists every session. *)
Theorem list_public_parties_sorted_and_bounded limit g :
  descending member_count_of (list_public_parties limit g)
  /\ (forall s, In s (list_public_parties limit g) ->
        exists pid p, In (pid, p) (parties g) /\ s = party_summary p)
  /\ ((0 <= limit)%Z ->
      List.length (list_public_parties limit g)
      = Nat.min (Z.to_nat limit) (List.length (parties g)))
  /\ ((Z.of_nat (List.length (parties g)) <= limit)%Z ->
      forall pid p, In (pid, p) (parties g) ->
        In (party_summary p) (list_public_parties limit g)).
Proof.
  unfold list_public_parties, slice_to.
  set (all := sorted_desc member_count_of
                (map party_summary (dict_values (parties g)))).
  assert (Hall : forall s, In s all ->
            exists pid p, In (pid, p) (parties g) /\ s = party_summary p).
  { intros s Hs. apply sorted_desc_in in Hs.
    apply in_map_iff in Hs as (p & <- & Hp).
    apply in_map_iff in Hp as ([pid q] & <- & Hq). eauto. }
  assert (Hlen : List.length all = List.length (parties g)).
  { subst all. unfold dict_values.
    now rewrite sorted_desc_length, !length_map. }
  split; [|split; [|split]].
  - destruct (0 <=? limit)%Z; apply descending_firstn, sorted_desc_sorted.
  - intros s Hs. apply Hall.
    destruct (0 <=? limit)%Z; eapply in_firstn_in; eauto.
  - intros Hl. apply Z.leb_le in Hl. rewrite Hl.
    now rewrite length_firstn, Hlen.
  - intros Hl pid p Hin.
    assert (H0 : (0 <=? limit)%Z = true) by (apply Z.leb_le; lia).
    rewrite H0, firstn_all2 by lia.
    apply sorted_desc_in, in_map_iff. exists p. split; auto.
    apply in_map_iff. now exists (pid, p).
Qed.

End Manager.

(** * Calls that interleave

    The manager's methods are coroutines, and the manager takes no lock:
    whenever a call waits in [await websocket.send_json(...)], other calls
    may run on the same objects.  This part models that: a call runs up to
    its next [send_json] and is then suspended; a scheduler decides which
    suspended call goes on.

    What differs from the model above
    - a party is an object with an identity: [parties] holds addresses
      into a heap, and a suspended call keeps the address it looked up, also
      when the registry no longer has it;
    - [for member in party.members.values()] reads the roster again at
      every turn, and raises [RuntimeError] when its size has changed. *)

Module Async.

Definition address : Type := nat.

(** A party object.  [epoch] is not a field of the source: it counts the
    keys that were added to or removed from [members], so that a loop over
    the roster can tell whether the roster is still the one it started
    on. *)
Record Cell : Type := {
  obj : Potluck.t;
  epoch : nat
}.

Record Memory : Type := {
  heap : list Cell;
  parties : dict address;
  user_party_map : dict string;
  wire : list Delivery;
  tick : nat
}.

(** A call that has been started: it is over, or it waits in
    [await websocket.send_json(...)] and [resume] takes it to its next
    wait on the memory as it is by then.  [Unspecified] ends a call whose
    next step the model does not define (see [for_values]). *)
#[warnings="-register-all"]
Inductive coro (A : Type) : Type :=
| Done (r : outcome A)
| Await (resume : Memory -> coro A * Memory)
| Unspecified.
Arguments Done {A} r.
Arguments Await {A} resume.
Arguments Unspecified {A}.

(** A coroutine function: called on the memory, it runs to its first wait
    (or to its end). *)
Definition Co (A : Type) : Type := Memory -> coro A * Memory.

Definition ret {A} (a : A) : Co A := fun m => (Done (Ret a), m).
Definition raise {A} (e : exn) : Co A := fun m => (Done (Raise e), m).
Definition diverge {A} : Co A := fun m => (Done Diverge, m).
Definition unspecified {A} : Co A := fun m => (Unspecified, m).

(** What is left to do of [c ; k] once [c] has got as far as [c]. *)
Fixpoint and_then {A B} (c : coro A) (k : A -> Co B) (m : Memory)
  : coro B * Memory :=
  match c with
  | Done (Ret a) => k a m
  | Done (Raise e) => (Done (Raise e), m)
  | Done Diverge => (Done Diverge, m)
  | Unspecified => (Unspecified, m)
  | Await resume =>
      (Await (fun m' => let (c', m'') := resume m' in and_then c' k m''), m)
  end.

Definition bind {A B} (c : Co A) (k : A -> Co B) : Co B :=
  fun m => let (c', m') := c m in and_then c' k m'.

(** [try: c except Exception as e: h e] *)
Fixpoint or_else {A} (c : coro A) (h : exn -> Co A) (m : Memory)
  : coro A * Memory :=
  match c with
  | Done (Raise e) => h e m
  | Done r => (Done r, m)
  | Unspecified => (Unspecified, m)
  | Await resume =>
      (Await (fun m' => let (c', m'') := resume m' in or_else c' h m''), m)
  end.

Definition try_except {A} (c : Co A) (h : exn -> Co A) : Co A :=
  fun m => let (c', m') := c m in or_else c' h m'.

Declare Scope async_scope.
Delimit Scope async_scope with async.
Notation "x <- c ;; k" := (bind c (fun x => k))
  (at level 61, c at next level, right associativity) : async_scope.
Notation "c ;; k" := (bind c (fun _ => k))
  (at level 61, right associativity) : async_scope.
Local Open Scope async_scope.

Definition lift {A} (r : result A) : Co A :=
  match r with
  | Ok a => ret a
  | Err e => raise e
  end.

Definition get_parties : Co (dict address) :=
  fun m => (Done (Ret (parties m)), m).

Definition get_user_party_map : Co (dict string) :=
  fun m => (Done (Ret (user_party_map m)), m).

Definition set_parties (ps : dict address) : Co unit :=
  fun m => (Done (Ret tt),
            {| heap := heap m; parties := ps;
               user_party_map := user_party_map m;
               wire := wire m; tick := tick m |}).

Definition set_user_party_map (u : dict string) : Co unit :=
  fun m => (Done (Ret tt),
            {| heap := heap m; parties := parties m; user_party_map := u;
               wire := wire m; tick := tick m |}).

Definition with_heap (h : list Cell) (m : Memory) : Memory :=
  {| heap := h; parties := parties m; user_party_map := user_party_map m;
     wire := wire m; tick := tick m |}.

(** The object at an address.  Objects are never freed, so an address
    that was handed out is always found. *)
Definition get_cell (a : address) : Co Cell :=
  fun m =>
    match nth_error (heap m) a with
    | Some c => (Done (Ret c), m)
    | None => (Unspecified, m)
    end.

Definition get_obj (a : address) : Co Potluck.t :=
  c <- get_cell a ;; ret (obj c).

Fixpoint replace_nth {A} (n : nat) (x : A) (l : list A) : list A :=
  match l, n with
  | [], _ => []
  | _ :: r, O => x :: r
  | y :: r, S n' => y :: replace_nth n' x r
  end.

Definition put_cell (a : address) (c : Cell) : Co unit :=
  fun m => (Done (Ret tt), with_heap (replace_nth a c (heap m)) m).

(** A new object *)
Definition new_object (p : Potluck.t) : Co address :=
  fun m => (Done (Ret (List.length (heap m))),
            with_heap (heap m ++ [{| obj := p; epoch := 0 |}]) m).

(** Assignments to fields of the party or of one of its members: the keys
    of the roster stay. *)
Definition assign (a : address) (f : Potluck.t -> Potluck.t) : Co unit :=
  c <- get_cell a ;;
  put_cell a {| obj := f (obj c); epoch := epoch c |}.

(** [party.add_member(member)] *)
Definition add_member (a : address) (member : PartyMember.t) : Co unit :=
  c <- get_cell a ;;
  put_cell a
    {| obj := Potluck.add_member member (obj c);
       epoch := if dict_mem (PartyMember.user_id member)
                            (Potluck.members (obj c))
                then epoch c else S (epoch c) |}.

(** [party.remove_member(user_id)] *)
Definition remove_member (a : address) (user_id : string)
  : Co (option PartyMember.t) :=
  c <- get_cell a ;;
  let (member, p) := Potluck.remove_member user_id (obj c) in
  put_cell a {| obj := p;
                epoch := match member with
                         | Some _ => S (epoch c)
                         | None => epoch c
                         end |} ;;
  ret member.

(** [for x in l: body x] over a list of the call's own *)
Fixpoint for_each {A} (l : list A) (body : A -> Co unit) : Co unit :=
  match l with
  | [] => ret tt
  | x :: r => body x ;; for_each r body
  end.

Section Coroutines.

Variable uuid4 : nat -> UUID.
Variable utcnow : nat -> string.
Variable send_fails : nat -> WebSocket -> bool.

Definition next_tick (m : Memory) : Memory :=
  {| heap := heap m; parties := parties m;
     user_party_map := user_party_map m; wire := wire m;
     tick := S (tick m) |}.

Definition fresh_uuid : Co UUID :=
  fun m => (Done (Ret (uuid4 (tick m))), next_tick m).

Definition now_isoformat : Co string :=
  fun m => (Done (Ret (utcnow (tick m))), next_tick m).

Definition record_send (ws : WebSocket) (message : pyval) (ok : bool)
                       (m : Memory) : Memory :=
  {| heap := heap m; parties := parties m;
     user_party_map := user_party_map m;
     wire := (wire m ++ [(ws, message, ok)])%list;
     tick := tick m |}.

(** [await websocket.send_json(message)]: the message is handed to the
    connection, and the caller waits; when it is resumed, the call returns
    or raises. *)
Definition send_json (ws : WebSocket) (message : pyval) : Co unit :=
  fun m =>
    let ok := negb (send_fails (List.length (wire m)) ws) in
    (Await (fun m' =>
              (Done (if ok then Ret tt else Raise SendFailure), m')),
     record_send ws message ok m).

Definition generate_party_code : Co string :=
  u <- fresh_uuid ;;
  ret (string_of_list_ascii (map code_char (firstn 6 (uuid_bytes u)))).

Definition _send_to_member (member : PartyMember.t) (message : pyval)
  : Co unit :=
  try_except (send_json (PartyMember.websocket member) message)
             (fun _ => ret tt).

(** [for member in party.members.values(): body member].

    The iterator was made when the roster had [size] entries and the
    party was in epoch [started]; [todo] of the entries are still to
    come.  At every turn the iterator looks at the roster as it is:
    - its size differs: [RuntimeError] (dictionary changed size during
      iteration);
    - its size is the same but keys were removed and added meanwhile:
      what CPython does depends on the layout of the dict's table, which
      this model does not have; the call ends as [Unspecified];
    - otherwise the next entry, or the end of the loop. *)
Fixpoint for_values (todo : nat) (party : address) (size started : nat)
                    (body : PartyMember.t -> Co unit) : Co unit :=
  c <- get_cell party ;;
  let roster := dict_values (Potluck.members (obj c)) in
  if negb (List.length roster =? size)%nat then raise RuntimeError
  else if negb (epoch c =? started)%nat then unspecified
  else
    match todo with
    | O => ret tt
    | S todo' =>
        match nth_error roster (size - todo) with
        | Some member => body member ;;
                         for_values todo' party size started body
        | None => ret tt
        end
    end.

Definition _broadcast (party : address) (message : pyval)
                      (exclude : option string) : Co unit :=
  c <- get_cell party ;;
  let size := List.length (dict_values (Potluck.members (obj c))) in
  for_values size party size (epoch c)
             (fun member =>
                if is_excluded exclude member then ret tt
                else _send_to_member member message).

Definition _broadcast_party_update (party : address) : Co unit :=
  p <- get_obj party ;;
  _broadcast party
             (VDict [("type", VStr "party_update");
                     ("party", Potluck.to_dict p)])
             None.

Definition _send_system_message (party : address) (text : string)
  : Co unit :=
  u <- fresh_uuid ;;
  ts <- now_isoformat ;;
  let msg := ChatMessage.mk (uuid_str u) "system" "System" (VStr text) ts
                            "system" in
  assign party (Potluck.add_chat_message msg) ;;
  _broadcast party (chat_envelope msg) None.

Definition leave_party (user_id : string) : Co bool :=
  upm <- get_user_party_map ;;
  match dict_get user_id upm with
  | None => ret false
  | Some party_id =>
      ps <- get_parties ;;
      match dict_get party_id ps with
      | None => set_user_party_map (dict_del user_id upm) ;; ret false
      | Some party =>
          member <- remove_member party user_id ;;
          set_user_party_map (dict_del user_id upm) ;;
          match member with
          | Some m =>
              _send_system_message party
                (PartyMember.username m ++ " left the party")
          | None => ret tt
          end ;;
          p <- get_obj party ;;
          if String.eqb (Potluck.host_id p) user_id then
            match Potluck.members p with
            | (k, first) :: rest =>
                (* transfer to the first member in iteration order *)
                let new_host := PartyMember.set_is_host true first in
                assign party
                  (fun p =>
                     Potluck.set_host_id (PartyMember.user_id new_host)
                       (Potluck.set_members ((k, new_host) :: rest) p)) ;;
                _send_system_message party
                  (PartyMember.username new_host ++ " is now the host") ;;
                _broadcast_party_update party ;;
                ret true
            | [] =>
                (* close the empty party: [del self.parties[party_id]] *)
                ps <- get_parties ;;
                if dict_mem party_id ps then
                  set_parties (dict_del party_id ps) ;; ret true
                else raise KeyError
            end
          else
            _broadcast_party_update party ;;
            ret true
      end
  end.

Fixpoint redraw_while_taken (fuel : nat) (party_id : string) : Co string :=
  ps <- get_parties ;;
  if dict_mem party_id ps then
    match fuel with
    | O => diverge
    | S fuel' =>
        party_id <- generate_party_code ;;
        redraw_while_taken fuel' party_id
    end
  else ret party_id.

Definition create_party (fuel : nat)
    (host_id host_username media_id media_title media_type : string)
    (websocket : WebSocket) : Co address :=
  upm <- get_user_party_map ;;
  (if dict_mem host_id upm then leave_party host_id ;; ret tt else ret tt) ;;
  party_id <- generate_party_code ;;
  party_id <- redraw_while_taken fuel party_id ;;
  created_at <- now_isoformat ;;
  party <- new_object (Potluck.new party_id host_id media_id media_title
                                   media_type created_at) ;;
  joined_at <- now_isoformat ;;
  let host_member := PartyMember.mk host_id host_username websocket true
                                    joined_at (VBool true) (VFloat 0) in
  add_member party host_member ;;
  ps <- get_parties ;;
  set_parties (dict_set party_id party ps) ;;
  upm <- get_user_party_map ;;
  set_user_party_map (dict_set host_id party_id upm) ;;
  _send_system_message party
    (host_username ++ " created the watch party") ;;
  ret party.

Definition join_party (party_id user_id username : string)
                      (websocket : WebSocket) : Co (option address) :=
  let party_id := upper party_id in
  ps <- get_parties ;;
  if negb (dict_mem party_id ps) then ret None
  else
    upm <- get_user_party_map ;;
    (if dict_mem user_id upm then leave_party user_id ;; ret tt else ret tt) ;;
    ps <- get_parties ;;
    match dict_get party_id ps with
    | None => raise KeyError   (* [self.parties[party_id]] *)
    | Some party =>
        joined_at <- now_isoformat ;;
        let member := PartyMember.mk user_id username websocket false
                                     joined_at (VBool false) (VFloat 0) in
        add_member party member ;;
        upm <- get_user_party_map ;;
        set_user_party_map (dict_set user_id party_id upm) ;;
        _broadcast_party_update party ;;
        _send_system_message party (username ++ " joined the party") ;;
        p <- get_obj party ;;
        _send_to_member member (VDict (sync_fields p)) ;;
        p <- get_obj party ;;
        for_each (slice_last 20 (Potluck.chat_history p))
                 (fun msg => _send_to_member member (chat_envelope msg)) ;;
        ret (Some party)
    end.

Definition handle_message (user_id : string) (message : dict pyval)
  : Co unit :=
  upm <- get_user_party_map ;;
  match dict_get user_id upm with
  | None => ret tt
  | Some party_id =>
  ps <- get_parties ;;
  match dict_get party_id ps with
  | None => ret tt
  | Some party =>
  p <- get_obj party ;;
  match dict_get user_id (Potluck.members p) with
  | None => ret tt
  | Some member =>
  let msg_type := dict_get_default "type" VNone message in
  if py_eq_str msg_type "chat" then
    u <- fresh_uuid ;;
    body <- lift (py_slice_to 500
                    (dict_get_default "message" (VStr "") message)) ;;
    ts <- now_isoformat ;;
    let chat_msg := ChatMessage.mk (uuid_str u) user_id
                      (PartyMember.username member) body ts "chat" in
    assign party (Potluck.add_chat_message chat_msg) ;;
    _broadcast party (chat_envelope chat_msg) None
  else if py_eq_str msg_type "reaction" then
    _broadcast party
      (VDict [("type", VStr "reaction");
              ("user_id", VStr user_id);
              ("username", VStr (PartyMember.username member));
              ("emoji",
                dict_get_default "emoji" (VStr default_emoji) message)])
      None
  else if py_eq_str msg_type "ready" then
    let member := PartyMember.set_is_ready
                    (dict_get_default "ready" (VBool true) message) member in
    assign party (update_member user_id member) ;;
    _broadcast_party_update party
  else if py_eq_str msg_type "seek" && PartyMember.is_host member then
    assign party (Potluck.set_current_time
                    (dict_get_default "time" (VInt 0) message)) ;;
    p <- get_obj party ;;
    _broadcast party (VDict (sync_fields p)) (Some user_id)
  else if py_eq_str msg_type "play" && PartyMember.is_host member then
    assign party
      (fun p =>
         let p := Potluck.set_is_playing true p in
         Potluck.set_current_time
           (dict_get_default "time" (Potluck.current_time p) message) p) ;;
    p <- get_obj party ;;
    _broadcast party (VDict (sync_fields p)) None
  else if py_eq_str msg_type "pause" && PartyMember.is_host member then
    assign party
      (fun p =>
         let p := Potluck.set_is_playing false p in
         Potluck.set_current_time
           (dict_get_default "time" (Potluck.current_time p) message) p) ;;
    p <- get_obj party ;;
    _broadcast party (VDict (sync_fields p)) None
  else if py_eq_str msg_type "time_update" then
    let member := PartyMember.set_current_time
                    (dict_get_default "time" (VInt 0) message) member in
    assign party (update_member user_id member) ;;
    p <- get_obj party ;;
    if Potluck.is_playing p then
      out_of_sync <- lift (drift_exceeds (PartyMember.current_time member)
                                         (Potluck.current_time p)
                                         (Potluck.sync_threshold p)) ;;
      if (out_of_sync : bool) then
        _send_to_member member
          (VDict (sync_fields p ++ [("resync", VBool true)])%list)
      else ret tt
    else ret tt
  else ret tt
  end end end.

(** ** The scheduler *)

(** What a finished call gave back. *)
Inductive answer : Type :=
| Session (party : address)
| NoSession
| Flag (b : bool)
| Nothing.

Definition call (o : op) : Co answer :=
  match o with
  | Create fuel h hn mi mt ty ws =>
      party <- create_party fuel h hn mi mt ty ws ;; ret (Session party)
  | Join pid u un ws =>
      r <- join_party pid u un ws ;;
      ret match r with Some party => Session party | None => NoSession end
  | Leave u => b <- leave_party u ;; ret (Flag b)
  | Message u msg => handle_message u msg ;; ret Nothing
  end.

(** The manager and the calls that were started on it, in the order in
    which they were started. *)
Record System : Type := {
  memory : Memory;
  tasks : list (coro answer)
}.

(** One decision of the event loop: a new call starts and runs to its
    first wait; a waiting call is resumed and runs to its next wait; a
    waiting call is resumed again and again, with no other call in
    between, until it is over. *)
Inductive event : Type :=
| Start (o : op)
| Resume (i : nat)
| Finish (i : nat).

Fixpoint finish {A} (c : coro A) (m : Memory) : coro A * Memory :=
  match c with
  | Await resume => let (c', m') := resume m in finish c' m'
  | _ => (c, m)
  end.

(** The call goes on to its end while the rest of the program runs:
    each time the call waits, the others change the memory by [others]
    before the call is resumed. *)
Fixpoint among {A} (others : Memory -> Memory) (c : coro A) (m : Memory)
  : coro A * Memory :=
  match c with
  | Await resume => let (c', m') := resume (others m) in among others c' m'
  | _ => (c, m)
  end.

Definition run_among {A} (others : Memory -> Memory) (f : Co A)
  : Co A :=
  fun m => let (c, m') := f m in among others c m'.

Definition step (s : System) (e : event) : System :=
  match e with
  | Start o =>
      let (c, m) := call o (memory s) in
      {| memory := m; tasks := (tasks s ++ [c])%list |}
  | Resume i =>
      match nth_error (tasks s) i with
      | Some (Await resume) =>
          let (c, m) := resume (memory s) in
          {| memory := m; tasks := replace_nth i c (tasks s) |}
      | _ => s
      end
  | Finish i =>
      match nth_error (tasks s) i with
      | Some c =>
          let (c', m) := finish c (memory s) in
          {| memory := m; tasks := replace_nth i c' (tasks s) |}
      | None => s
      end
  end.

Definition play (schedule : list event) (s : System) : System :=
  fold_left step schedule s.

End Coroutines.

Definition boot : System :=
  {| memory := {| heap := []; parties := []; user_party_map := [];
                  wire := []; tick := 0 |};
     tasks := [] |}.

(** How far a call has got. *)
Inductive progress : Type :=
| Returned (a : answer)
| Raised (e : exn)
| Looping
| Waiting
| Undefined.


(** The registry as the model above has it: every code with the contents
    of its party object. *)
Definition view (m : Memory) : PotluckManager :=
  Build_PotluckManager
    (flat_map (fun kv => match nth_error (heap m) (snd kv) with
                         | Some c => [(fst kv, obj c)]
                         | None => []
                         end)
              (parties m))
    (user_party_map m).

(** The same with the sends and the counter. *)
Definition flat (m : Memory) : World :=
  Build_World (view m) (wire m) (tick m).

(** ** Running a call among others *)





Fixpoint coro_induction {A} (P : coro A -> Prop)
    (HDone : forall r, P (Done r))
    (HAwait : forall resume,
        (forall m, P (fst (resume m))) -> P (Await resume))
    (HUnspecified : P Unspecified) (c : coro A) : P c :=
  match c with
  | Done r => HDone r
  | Await resume =>
      HAwait resume
        (fun m => coro_induction P HDone HAwait HUnspecified
                                 (fst (resume m)))
  | Unspecified => HUnspecified
  end.

(** How a call that ran among others went on from [c]. *)
Definition continued {A B} (others : Memory -> Memory) (k : A -> Co B)
    (r : coro A * Memory) : coro B * Memory :=
  match r with
  | (Done (Ret a), m) => run_among others (k a) m
  | (Done (Raise e), m) => (Done (Raise e), m)
  | (Done Diverge, m) => (Done Diverge, m)
  | (Await _, m) => (Unspecified, m)
  | (Unspecified, m) => (Unspecified, m)
  end.

Lemma among_ends {A} others (c : coro A) m :
  match fst (among others c m) with Await _ => False | _ => True end.
Proof.
  revert m. induction c as [r | resume IH |] using coro_induction;
    intros m; simpl; auto.
  specialize (IH (others m)). destruct (resume (others m)) as [c' m'].
  apply IH.
Qed.

Lemma among_and_then {A B} others (c : coro A) (k : A -> Co B) m :
  among others (fst (and_then c k m)) (snd (and_then c k m))
  = continued others k (among others c m).
Proof.
  revert m. induction c as [[a|e|] | resume IH |] using coro_induction;
    intros m; simpl; auto.
  - unfold run_among. now destruct (k a m).
  - specialize (IH (others m)). destruct (resume (others m)) as [c' m'].
    simpl in IH. specialize (IH m').
    destruct (and_then c' k m') as [c2 m2]. exact IH.
Qed.

Lemma run_among_bind {A B} others (c : Co A) (k : A -> Co B) m :
  run_among others (bind c k) m = continued others k (run_among others c m).
Proof.
  unfold run_among, bind. destruct (c m) as [c' m'].
  pose proof (among_and_then others c' k m') as H.
  destruct (and_then c' k m'). exact H.
Qed.

End Async.

(** ** A broadcast among other calls *)

Section Interleaving.

Variable uuid4 : nat -> UUID.
Variable utcnow : nat -> string.
Variable send_fails : nat -> WebSocket -> bool.

(** What the rest of the program does to the memory while a call waits. *)
Variable others : Async.Memory -> Async.Memory.

(** What a fan-out needs of a roster entry: its key, and the id and the
    connection of the member. *)
Definition contact (kv : string * PartyMember.t)
  : string * string * WebSocket :=
  (fst kv, PartyMember.user_id (snd kv), PartyMember.websocket (snd kv)).

(** The roster of the party object at [party] is still the one of [c0]:
    no key was added or removed since, and the ids and connections are
    the same.  (Flags and reported positions of the members may differ.) *)
Definition roster_kept (party : Async.address) (c0 : Async.Cell)
                       (m : Async.Memory) : Prop :=
  exists c,
    nth_error (Async.heap m) party = Some c
    /\ Async.epoch c = Async.epoch c0
    /\ map contact (Potluck.members (Async.obj c))
       = map contact (Potluck.members (Async.obj c0)).

(** One member's turn in a fan-out of [message]: the send, and then the
    others running while the call waits. *)
Definition turn (message : pyval) (m : Async.Memory) (ws : WebSocket)
  : Async.Memory :=
  others (Async.record_send ws message
            (negb (send_fails (List.length (Async.wire m)) ws)) m).

Lemma _send_to_member_among member message m :
  Async.run_among others (Async._send_to_member send_fails member message) m
  = (Async.Done (Ret tt), turn message m (PartyMember.websocket member)).
Proof.
  unfold Async.run_among, Async._send_to_member, Async.try_except,
    Async.send_json, turn.
  simpl. destruct (send_fails _ _); reflexivity.
Qed.

Lemma roster_kept_send party c0 ws message ok m :
  roster_kept party c0 m ->
  roster_kept party c0 (Async.record_send ws message ok m).
Proof. intros (c & H). now exists c. Qed.

Lemma skipn_nth_error {A} (l : list A) i x :
  nth_error l i = Some x -> skipn i l = x :: skipn (S i) l.
Proof.
  revert i. induction l as [|y r IH]; intros [|i] H; simpl in *;
    try discriminate.
  - now injection H as ->.
  - now apply IH.
Qed.

Definition excluded_id (exclude : option string) (user_id : string) : bool :=
  match exclude with
  | None => false
  | Some e => negb (String.eqb e "") && String.eqb user_id e
  end.

(** The turns of the members [l] of a fan-out, the excluded one being
    passed over. *)
Definition turns (message : pyval) (exclude : option string)
    (l : list (string * string * WebSocket)) (m : Async.Memory)
  : Async.Memory :=
  fold_left (fun m c => if excluded_id exclude (snd (fst c)) then m
                        else turn message m (snd c))
            l m.

Lemma for_values_among party c0 message exclude :
  (forall m, roster_kept party c0 m -> roster_kept party c0 (others m)) ->
  let size := List.length (Potluck.members (Async.obj c0)) in
  forall todo m,
    todo <= size ->
    roster_kept party c0 m ->
    Async.run_among others
      (Async.for_values todo party size (Async.epoch c0)
         (fun member =>
            if is_excluded exclude member then Async.ret tt
            else Async._send_to_member send_fails member message)) m
    = (Async.Done (Ret tt),
       turns message exclude
             (skipn (size - todo)
                    (map contact (Potluck.members (Async.obj c0)))) m).
Proof.
  intros Hothers size todo.
  induction todo as [|todo IH]; intros m Hle (c & Hc & He & Hm).
  - simpl. unfold Async.run_among, Async.bind, Async.get_cell.
    rewrite Hc. simpl. unfold dict_values. rewrite length_map.
    assert (Hlen : List.length (Potluck.members (Async.obj c)) = size).
    { unfold size. rewrite <- (length_map contact), Hm. apply length_map. }
    rewrite Hlen, Nat.eqb_refl, He, Nat.eqb_refl. simpl.
    rewrite Nat.sub_0_r.
    replace (skipn size (map contact (Potluck.members (Async.obj c0))))
      with (@nil (string * string * WebSocket)); [reflexivity|].
    symmetry. apply skipn_all2. unfold size. now rewrite length_map.
  - assert (Hlen : List.length (Potluck.members (Async.obj c)) = size).
    { unfold size. rewrite <- (length_map contact), Hm. apply length_map. }
    destruct (nth_error (Potluck.members (Async.obj c)) (size - S todo))
      as [[k member]|] eqn:Hnth.
    2:{ apply nth_error_None in Hnth. lia. }
    assert (Hskip :
      skipn (size - S todo) (map contact (Potluck.members (Async.obj c0)))
      = contact (k, member)
        :: skipn (size - todo)
                 (map contact (Potluck.members (Async.obj c0)))).
    { rewrite <- Hm.
      replace (size - todo) with (S (size - S todo)) by lia.
      apply skipn_nth_error. now rewrite nth_error_map, Hnth. }
    rewrite Hskip.
    cbn [Async.for_values]. rewrite Async.run_among_bind.
    unfold Async.run_among at 1. unfold Async.get_cell. rewrite Hc.
    cbn [Async.among Async.continued].
    unfold dict_values. rewrite length_map, Hlen, Nat.eqb_refl, He,
      Nat.eqb_refl. cbn [negb].
    rewrite nth_error_map, Hnth. cbn [option_map snd].
    unfold turns. cbn [fold_left contact fst snd].
    assert (Hex : is_excluded exclude member
                  = excluded_id exclude (PartyMember.user_id member))
      by (destruct exclude; reflexivity).
    rewrite <- Hex.
    rewrite Async.run_among_bind.
    destruct (is_excluded exclude member).
    + unfold Async.run_among at 1. cbn [Async.ret Async.among
        Async.continued].
      apply IH; [lia|]. now exists c.
    + rewrite _send_to_member_among. cbn [Async.continued].
      apply IH; [lia|]. apply Hothers, roster_kept_send. now exists c.
Qed.

Lemma turns_recipients message exclude (roster : dict PartyMember.t) m :
  turns message exclude (map contact roster) m
  = fold_left (fun m r => turn message m (PartyMember.websocket r))
      match exclude with
      | Some e =>
          if String.eqb e "" then dict_values roster
          else filter (fun r => negb (String.eqb (PartyMember.user_id r) e))
                      (dict_values roster)
      | None => dict_values roster
      end m.
Proof.
  unfold turns.
  assert (Hgen : forall keep : PartyMember.t -> bool,
             (forall r, excluded_id exclude (PartyMember.user_id r)
                        = negb (keep r)) ->
             forall m,
               fold_left
                 (fun m c => if excluded_id exclude (snd (fst c)) then m
                             else turn message m (snd c))
                 (map contact roster) m
               = fold_left
                   (fun m r => turn message m (PartyMember.websocket r))
                   (filter keep (dict_values roster)) m).
  { intros keep Hk. induction roster as [|[k r] rest IH]; intros m0;
      [reflexivity|].
    cbn [map dict_values fold_left contact fst snd filter].
    change (map snd rest) with (dict_values rest).
    rewrite Hk. destruct (keep r); cbn [negb fold_left]; apply IH. }
  assert (Hall : forall l : list PartyMember.t,
             filter (fun _ => true) l = l).
  { induction l as [|x l IH]; simpl; congruence. }
  destruct exclude as [e|]; [destruct (String.eqb e "") eqn:Ee|].
  - rewrite (Hgen (fun _ => true)), Hall; [reflexivity|].
    intros r. cbn [excluded_id]. now rewrite Ee.
  - apply Hgen. intros r. cbn [excluded_id]. rewrite Ee.
    cbn [negb andb]. now rewrite negb_involutive.
  - rewrite (Hgen (fun _ => true)), Hall; reflexivity.
Qed.


End Interleaving.

Section Alone.

Variable send_fails : nat -> WebSocket -> bool.

Lemma flat_sends (l : list PartyMember.t) message m :
  Async.flat
    (fold_left
       (fun m r =>
          Async.record_send (PartyMember.websocket r) message
            (negb (send_fails (List.length (Async.wire m))
                              (PartyMember.websocket r))) m)
       l m)
  = sent (attempts send_fails (List.length (Async.wire m)) l message)
         (Async.flat m).
Proof.
  revert m. induction l as [|r l IH]; intros m; cbn [fold_left attempts].
  - unfold sent, Async.flat. cbn. now rewrite app_nil_r.
  - rewrite IH. unfold sent, Async.flat, Async.record_send, Async.view.
    cbn. rewrite length_app, Nat.add_1_r, <- app_assoc. reflexivity.
Qed.

Lemma filter_true {A} (l : list A) : filter (fun _ => true) l = l.
Proof. induction l as [|x l IH]; simpl; congruence. Qed.

(** With nobody else running, the broadcast that reads the roster at
    every turn does what [_broadcast] on the roster as a value does. *)
Lemma _broadcast_alone party message exclude m c0 :
  nth_error (Async.heap m) party = Some c0 ->
  let r := Async.run_among (fun m => m)
             (Async._broadcast send_fails party message exclude) m in
  fst r = Async.Done (Ret tt)
  /\ (fst (_broadcast send_fails (Async.obj c0) message exclude
                      (Async.flat m)),
      Async.flat (snd r))
     = _broadcast send_fails (Async.obj c0) message exclude (Async.flat m).
Proof.
  intros Hc.
  assert (E : Async.run_among (fun m => m)
                (Async._broadcast send_fails party message exclude) m
              = (Async.Done (Ret tt),
                 turns send_fails (fun m => m) message exclude
                       (map contact (Potluck.members (Async.obj c0))) m)).
  { unfold Async._broadcast. rewrite Async.run_among_bind.
    unfold Async.run_among at 1. unfold Async.get_cell. rewrite Hc.
    cbn [Async.among Async.continued].
    unfold dict_values at 1 2. rewrite length_map.
    rewrite (for_values_among send_fails (fun m => m) party c0 message
               exclude (fun m1 H => H)
               (List.length (Potluck.members (Async.obj c0))) m);
      [|lia|now exists c0].
    now rewrite Nat.sub_diag. }
  cbv zeta. rewrite E. cbn [fst snd]. split; [reflexivity|].
  rewrite turns_recipients. unfold turn. rewrite flat_sends.
  rewrite _broadcast_eq. cbn [fst]. f_equal. f_equal. f_equal.
  unfold recipients.
  destruct exclude as [e|]; cbn [is_excluded].
  - destruct (String.eqb e "") eqn:Ee.
    + transitivity (filter (fun _ : PartyMember.t => true)
                           (dict_values (Potluck.members (Async.obj c0))));
        [symmetry; apply filter_true | now apply filter_ext].
    + apply filter_ext. intros x. rewrite ?Ee. reflexivity.
  - symmetry. apply filter_true.
Qed.

End Alone.

(** ** What a call can find when it goes on *)

Section Hazards.

Variable uuid4 : nat -> UUID.
Variable utcnow : nat -> string.
Variable send_fails : nat -> WebSocket -> bool.
Variable others : Async.Memory -> Async.Memory.

(** X27. A broadcast (nobody excluded) that is resumed after its first
    send on a roster of another size raises [RuntimeError] there: the first
    member of the roster has been sent the message, nobody else is, and the
    exception goes to the caller. *)
Theorem broadcast_raises_on_resized_roster party message m c0 k first rest :
  nth_error (Async.heap m) party = Some c0 ->
  Potluck.members (Async.obj c0) = (k, first) :: rest ->
  let m1 :=
    Async.record_send (PartyMember.websocket first) message
      (negb (send_fails (List.length (Async.wire m))
                        (PartyMember.websocket first))) m in
  (exists c1,
      nth_error (Async.heap (others m1)) party = Some c1
      /\ List.length (Potluck.members (Async.obj c1))
         <> List.length (Potluck.members (Async.obj c0))) ->
  Async.run_among others (Async._broadcast send_fails party message None) m
  = (Async.Done (Raise RuntimeError), others m1).
Proof.
  intros Hc Hms m1 (c1 & Hc1 & Hlen).
  unfold Async._broadcast. rewrite Async.run_among_bind.
  unfold Async.run_among at 1. unfold Async.get_cell. rewrite Hc.
  cbn [Async.among Async.continued].
  unfold dict_values. rewrite length_map, Hms. cbn [List.length].
  cbn [Async.for_values]. rewrite Async.run_among_bind.
  unfold Async.run_among at 1. unfold Async.get_cell. rewrite Hc.
  cbn [Async.among Async.continued].
  unfold dict_values. rewrite length_map, Hms. cbn [List.length].
  rewrite !Nat.eqb_refl. cbn [negb].
  rewrite Nat.sub_diag. cbn [map nth_error snd is_excluded].
  rewrite Async.run_among_bind, _send_to_member_among.
  cbn [Async.continued]. unfold turn. fold m1.
  destruct (List.length rest) as [|n] eqn:Hn;
    cbn [Async.for_values]; rewrite Async.run_among_bind;
    unfold Async.run_among at 1; unfold Async.get_cell; rewrite Hc1;
    cbn [Async.among Async.continued];
    unfold dict_values; rewrite length_map;
    rewrite Hms in Hlen; cbn [List.length] in Hlen; rewrite Hn in Hlen;
    apply Nat.eqb_neq in Hlen; rewrite Hlen; reflexivity.
Qed.


Lemma bind_done {A B} (c : Async.Co A) (k : A -> Async.Co B) m a m' :
  c m = (Async.Done (Ret a), m') -> Async.bind c k m = k a m'.
Proof. unfold Async.bind. now intros ->. Qed.

Lemma bind_waits {A B} (c : Async.Co A) (k : A -> Async.Co B) m r m' :
  c m = (Async.Await r, m') ->
  exists r', Async.bind c k m = (Async.Await r', m').
Proof. unfold Async.bind. intros ->. simpl. eauto. Qed.

(** One step of a call that does not wait. *)
Ltac co_step :=
  match goal with
  | |- context [Async.bind Async.get_parties ?k ?m] =>
      rewrite (bind_done Async.get_parties k m _ _ eq_refl)
  | |- context [Async.bind Async.get_user_party_map ?k ?m] =>
      rewrite (bind_done Async.get_user_party_map k m _ _ eq_refl)
  | |- context [Async.bind (Async.set_parties ?ps) ?k ?m] =>
      rewrite (bind_done (Async.set_parties ps) k m _ _ eq_refl)
  | |- context [Async.bind (Async.set_user_party_map ?u) ?k ?m] =>
      rewrite (bind_done (Async.set_user_party_map u) k m _ _ eq_refl)
  | |- context [Async.bind (Async.ret ?a) ?k ?m] =>
      rewrite (bind_done (Async.ret a) k m _ _ eq_refl)
  | |- context [Async.bind (Async.fresh_uuid ?f) ?k ?m] =>
      rewrite (bind_done (Async.fresh_uuid f) k m _ _ eq_refl)
  | |- context [Async.bind (Async.now_isoformat ?f) ?k ?m] =>
      rewrite (bind_done (Async.now_isoformat f) k m _ _ eq_refl)
  end; cbv beta.

Lemma nth_error_replace_nth {A} a (x : A) l :
  a < List.length l -> nth_error (Async.replace_nth a x l) a = Some x.
Proof.
  revert a. induction l as [|y l IH]; intros [|a] H; simpl in *;
    try lia; auto. apply IH. lia.
Qed.

Lemma length_replace_nth {A} a (x : A) l :
  List.length (Async.replace_nth a x l) = List.length l.
Proof.
  revert a. induction l as [|y l IH]; intros [|a]; simpl; auto.
Qed.

Lemma assign_eq a f m c :
  nth_error (Async.heap m) a = Some c ->
  Async.assign a f m
  = (Async.Done (Ret tt),
     Async.with_heap
       (Async.replace_nth a {| Async.obj := f (Async.obj c);
                               Async.epoch := Async.epoch c |}
                          (Async.heap m)) m).
Proof.
  intros Hc. unfold Async.assign, Async.bind, Async.get_cell.
  now rewrite Hc.
Qed.

Lemma remove_member_eq a u m c :
  nth_error (Async.heap m) a = Some c ->
  Async.remove_member a u m
  = (Async.Done (Ret (dict_get u (Potluck.members (Async.obj c)))),
     Async.with_heap
       (Async.replace_nth a
          {| Async.obj :=
               Potluck.set_members
                 (dict_del u (Potluck.members (Async.obj c))) (Async.obj c);
             Async.epoch :=
               match dict_get u (Potluck.members (Async.obj c)) with
               | Some _ => S (Async.epoch c)
               | None => Async.epoch c
               end |}
          (Async.heap m)) m).
Proof.
  intros Hc. unfold Async.remove_member, Async.bind, Async.get_cell.
  now rewrite Hc.
Qed.

(** A broadcast to a roster that is not empty (nobody excluded) makes its
    first send and waits. *)
Lemma _broadcast_waits a message m c k first rest :
  nth_error (Async.heap m) a = Some c ->
  Potluck.members (Async.obj c) = (k, first) :: rest ->
  exists r,
    Async._broadcast send_fails a message None m
    = (Async.Await r,
       Async.record_send (PartyMember.websocket first) message
         (negb (send_fails (List.length (Async.wire m))
                           (PartyMember.websocket first))) m).
Proof.
  intros Hc Hms. unfold Async._broadcast.
  rewrite (bind_done _ _ m c m) by (unfold Async.get_cell; now rewrite Hc).
  unfold dict_values. rewrite length_map, Hms. cbn [List.length].
  cbn [Async.for_values].
  rewrite (bind_done _ _ m c m) by (unfold Async.get_cell; now rewrite Hc).
  unfold dict_values. rewrite length_map, Hms. cbn [List.length].
  rewrite !Nat.eqb_refl, Nat.sub_diag. cbn [negb map nth_error snd
    is_excluded].
  eapply bind_waits.
  unfold Async._send_to_member, Async.try_except, Async.send_json.
  cbn [Async.or_else]. reflexivity.
Qed.

Lemma _send_system_message_waits a text m c k first rest :
  nth_error (Async.heap m) a = Some c ->
  Potluck.members (Async.obj c) = (k, first) :: rest ->
  let msg := ChatMessage.mk (uuid_str (uuid4 (Async.tick m))) "system"
               "System" (VStr text) (utcnow (S (Async.tick m))) "system" in
  exists r,
    Async._send_system_message uuid4 utcnow send_fails a text m
    = (Async.Await r,
       Async.record_send (PartyMember.websocket first) (chat_envelope msg)
         (negb (send_fails (List.length (Async.wire m))
                           (PartyMember.websocket first)))
         (Async.with_heap
            (Async.replace_nth a
               {| Async.obj := Potluck.add_chat_message msg (Async.obj c);
                  Async.epoch := Async.epoch c |}
               (Async.heap m))
            (Async.next_tick (Async.next_tick m)))).
Proof.
  intros Hc Hms msg. unfold Async._send_system_message.
  co_step. co_step.
  cbn [Async.tick Async.next_tick]. fold msg.
  rewrite (bind_done _ _ _ _ _
             (assign_eq a (Potluck.add_chat_message msg)
                        (Async.next_tick (Async.next_tick m)) c Hc)).
  assert (Ha : a < List.length (Async.heap m))
    by (apply nth_error_Some; congruence).
  edestruct (_broadcast_waits a (chat_envelope msg)
               (Async.with_heap
                  (Async.replace_nth a
                     {| Async.obj :=
                          Potluck.add_chat_message msg (Async.obj c);
                        Async.epoch := Async.epoch c |}
                     (Async.heap m))
                  (Async.next_tick (Async.next_tick m)))
               {| Async.obj := Potluck.add_chat_message msg (Async.obj c);
                  Async.epoch := Async.epoch c |}
               k first rest) as (r & Hr).
  - cbn [Async.heap Async.with_heap]. now apply nth_error_replace_nth.
  - cbn [Async.obj]. unfold Potluck.add_chat_message.
    destruct (_ <? _)%nat; exact Hms.
  - exists r. exact Hr.
Qed.

(** X25. While the host's [leave_party] waits in its first send (the
    notice to the first of the others), the session is there without a
    host: the call has taken the host off the roster and out of the index,
    [host_id] still names them, nobody has been promoted, and the public
    listing's entry for the session shows the host "Unknown". *)
Theorem host_leave_waits_without_host u m code a c leaver :
  dict_get u (Async.user_party_map m) = Some code ->
  dict_get code (Async.parties m) = Some a ->
  nth_error (Async.heap m) a = Some c ->
  Potluck.host_id (Async.obj c) = u ->
  dict_get u (Potluck.members (Async.obj c)) = Some leaver ->
  dict_del u (Potluck.members (Async.obj c)) <> [] ->
  exists resume m1 c1,
    Async.leave_party uuid4 utcnow send_fails u m = (Async.Await resume, m1)
    /\ Async.parties m1 = Async.parties m
    /\ dict_get u (Async.user_party_map m1) = None
    /\ nth_error (Async.heap m1) a = Some c1
    /\ Potluck.host_id (Async.obj c1) = u
    /\ Potluck.members (Async.obj c1)
       = dict_del u (Potluck.members (Async.obj c))
    /\ dict_get "host"
         match party_summary (Async.obj c1) with
         | VDict fields => fields
         | _ => []
         end
       = Some (VStr "Unknown").
Proof.
  intros Hu Hp Hc Hh Hl Hrest.
  destruct (dict_del u (Potluck.members (Async.obj c))) as [|[k first] rest]
    eqn:Hdel; [congruence|]. clear Hrest.
  assert (Ha : a < List.length (Async.heap m))
    by (apply nth_error_Some; congruence).
  unfold Async.leave_party.
  co_step. rewrite Hu. co_step. rewrite Hp.
  rewrite (bind_done _ _ m _ _ (remove_member_eq a u m c Hc)).
  rewrite Hl, Hdel. co_step.
  match goal with
  | |- context [Async.bind (Async._send_system_message _ _ _ a ?text)
                           ?kont ?m0] =>
      destruct (_send_system_message_waits a text m0
                  {| Async.obj :=
                       Potluck.set_members ((k, first) :: rest) (Async.obj c);
                     Async.epoch := S (Async.epoch c) |}
                  k first rest) as (r & Hr);
        [cbn [Async.heap Async.with_heap];
         now apply nth_error_replace_nth
        | reflexivity
        | destruct (bind_waits _ kont m0 _ _ Hr) as (r' & Hr') ]
  end.
  rewrite Hr'. clear Hr Hr'.
  eexists r', _, _. split; [reflexivity|].
  cbn [Async.parties Async.user_party_map Async.heap Async.record_send
       Async.with_heap Async.next_tick].
  split; [reflexivity|]. split; [apply dict_get_del_eq|].
  split.
  { apply nth_error_replace_nth. now rewrite length_replace_nth. }
  cbn [Async.obj].
  assert (Hadd : forall msg p,
             Potluck.host_id (Potluck.add_chat_message msg p)
             = Potluck.host_id p
             /\ Potluck.members (Potluck.add_chat_message msg p)
                = Potluck.members p).
  { intros msg p. unfold Potluck.add_chat_message.
    destruct (_ <? _)%nat; auto. }
  match goal with
  | |- context [Potluck.add_chat_message ?msg ?p] =>
      destruct (Hadd msg p) as [Hhost Hmem]
  end.
  split; [rewrite Hhost; exact Hh|]. split; [rewrite Hmem; reflexivity|].
  unfold party_summary. cbn [dict_get String.eqb Ascii.eqb Bool.eqb].
  rewrite Hhost, Hmem. cbn [Potluck.host_id Potluck.members
    Potluck.set_members]. rewrite Hh, <- Hdel, dict_get_del_eq. reflexivity.
Qed.

End Hazards.

(** ** A session played through

    Alice creates a party (the first draw gives the code ABCDEF), Bob joins
    it with the code in lower case, and Alice starts playback at 10.0. *)

Definition demo_uuid4 (n : nat) : UUID :=
  {| uuid_bytes :=
       map (fun k => match Byte.of_nat (7 * n + k) with
                     | Some b => b
                     | None => x00
                     end)
           (seq 0 16);
     uuid_str := "7d444840-9dc0-41e6-a7a5-0c5a2b1e4f00" |}.

Definition demo_utcnow (n : nat) : string := "2024-05-01T20:00:00+00:00".

Definition never_fails (n : nat) (ws : WebSocket) : bool := false.

Definition demo_run : op -> World -> World :=
  run demo_uuid4 demo_utcnow never_fails.

Definition demo_reachable : World -> Prop :=
  reachable demo_uuid4 demo_utcnow never_fails.

Definition fresh_world : World :=
  {| manager := empty_manager; wire := []; tick := 0 |}.

Definition alice_creates : op :=
  Create 0 "alice" "Alice" "tt0111161" "Movie X" "movie" 1.

Definition bob_joins : op := Join "abcdef" "bob" "Bob" 2.

Definition alice_plays_at_10 : op :=
  Message "alice" [("type", VStr "play"); ("time", VFloat 10)].

(** The worlds of the scenario, evaluated. *)
Definition alice_alone : World :=
  Eval vm_compute in demo_run alice_creates fresh_world.

Definition alice_and_bob : World :=
  Eval vm_compute in demo_run bob_joins alice_alone.

Definition playing_at_10 : World :=
  Eval vm_compute in demo_run alice_plays_at_10 alice_and_bob.

(** The session ABCDEF in the last two of them. *)
Definition party_of_two : Potluck.t :=
  Eval vm_compute in
    dict_get_default "ABCDEF" (Potluck.new "" "" "" "" "" "")
                     (parties (manager alice_and_bob)).

Definition party_at_10 : Potluck.t :=
  Eval vm_compute in
    dict_get_default "ABCDEF" (Potluck.new "" "" "" "" "" "")
                     (parties (manager playing_at_10)).

Definition party_of_alice : Potluck.t :=
  Eval vm_compute in
    dict_get_default "ABCDEF" (Potluck.new "" "" "" "" "" "")
                     (parties (manager alice_alone)).

Definition seek_without_time : dict pyval := [("type", VStr "seek")].

Definition seek_to_minus_5 : dict pyval :=
  [("type", VStr "seek"); ("time", VInt (-5))].

Example alice_alone_code :
  dict_keys (parties (manager alice_alone)) = ["ABCDEF"].
Proof. reflexivity. Qed.

Example bob_got_the_state :
  exists ds,
    wire alice_and_bob = (wire alice_alone ++ ds)%list
    /\ In (2, VDict [("type", VStr "sync"); ("is_playing", VBool false);
                     ("current_time", VFloat 0);
                     ("playback_rate", VFloat 1)], true) ds.
Proof.
  eexists. split; [vm_compute; reflexivity|]. simpl. tauto.
Qed.

Lemma alice_alone_eq : alice_alone = demo_run alice_creates fresh_world.
Proof. vm_compute. reflexivity. Qed.

Lemma alice_and_bob_eq : alice_and_bob = demo_run bob_joins alice_alone.
Proof. vm_compute. reflexivity. Qed.

Lemma playing_at_10_eq :
  playing_at_10 = demo_run alice_plays_at_10 alice_and_bob.
Proof. vm_compute. reflexivity. Qed.

Lemma alice_alone_reachable : demo_reachable alice_alone.
Proof.
  rewrite alice_alone_eq. apply reachable_step; [|exact I].
  now apply reachable_init.
Qed.

Lemma alice_and_bob_reachable : demo_reachable alice_and_bob.
Proof.
  rewrite alice_and_bob_eq.
  apply reachable_step; [apply alice_alone_reachable | exact I].
Qed.

Lemma playing_at_10_reachable : demo_reachable playing_at_10.
Proof.
  rewrite playing_at_10_eq.
  apply reachable_step; [apply alice_and_bob_reachable | exact I].
Qed.



Definition demo_handle_message : string -> dict pyval -> M unit :=
  handle_message demo_uuid4 demo_utcnow never_fails.

Definition bob_record : PartyMember.t :=
  PartyMember.mk "bob" "Bob" 2 false "2024-05-01T20:00:00+00:00"
                 (VBool false) (VFloat 0).

Definition resync_to_10 : pyval :=
  VDict [("type", VStr "sync"); ("is_playing", VBool true);
         ("current_time", VFloat 10); ("playback_rate", VFloat 1);
         ("resync", VBool true)].


(** The same when Bob is behind: he reports 5.0 while the session plays at
    10.0.  A report of 11.5 is within the threshold and nothing is sent. *)
Example bob_behind_is_resynced :
  wire (snd (demo_handle_message
               "bob" [("type", VStr "time_update"); ("time", VFloat 5)]
               playing_at_10))
  = (wire playing_at_10 ++ [(2, resync_to_10, true)])%list
  /\ wire (snd (demo_handle_message
                  "bob" [("type", VStr "time_update"); ("time", VFloat 11.5)]
                  playing_at_10))
     = wire playing_at_10.
Proof. split; vm_compute; reflexivity. Qed.

(** C5 (the authority scenario): Bob, who is not the host, sends a seek. *)
Lemma non_host_playback_ignored_witness :
  demo_handle_message "bob" seek_to_minus_5 playing_at_10
  = (Ret tt, playing_at_10).
Proof.
  refine (non_host_playback_ignored demo_uuid4 demo_utcnow never_fails "bob"
            seek_to_minus_5 playing_at_10 "ABCDEF"
            party_at_10
            bob_record "seek" _ _ _ _ _ _);
    try reflexivity.
  simpl. tauto.
Defined.

(** C10: Bob sends an event of a kind the manager does not know. *)
Lemma unknown_kind_ignored_witness :
  demo_handle_message "bob" [("type", VStr "dance"); ("time", VFloat 3)]
                      playing_at_10
  = (Ret tt, playing_at_10).
Proof.
  refine (unknown_kind_ignored demo_uuid4 demo_utcnow never_fails "bob"
            [("type", VStr "dance"); ("time", VFloat 3)] playing_at_10
            "ABCDEF"
            party_at_10
            bob_record _ _ _ _);
    try reflexivity.
  intros k Hk. simpl in Hk.
  repeat (destruct Hk as [<- | Hk]; [discriminate|]). destruct Hk.
Defined.


(** C4: Alice, alone in her party, joins it again by its code. *)
Lemma join_own_party_as_sole_member_raises_witness :
  fst (join_party demo_uuid4 demo_utcnow never_fails
                  "ABCDEF" "alice" "Alice" 1 alice_alone)
  = Raise KeyError
  /\ get_party "ABCDEF"
       (manager (snd (join_party demo_uuid4 demo_utcnow never_fails
                                 "ABCDEF" "alice" "Alice" 1 alice_alone)))
     = None.
Proof.
  pose proof
    (join_own_party_as_sole_member_raises demo_uuid4 demo_utcnow never_fails
       "ABCDEF" "alice" "Alice" 1 alice_alone
       party_of_alice
       alice_alone_reachable eq_refl eq_refl) as H.
  exact (conj (proj1 H) (proj1 (proj2 H))).
Defined.

(** C4, evaluated: the same call, run. *)
Example join_own_party_raises_KeyError :
  join_party demo_uuid4 demo_utcnow never_fails
             "ABCDEF" "alice" "Alice" 1 alice_alone
  = (Raise KeyError,
     {| manager := empty_manager;
        wire := wire alice_alone;
        tick := 7 |}).
Proof. vm_compute. reflexivity. Qed.

(** C6 fails as stated: the host seeks to -5 and the session's position
    is -5 in a reachable registry. *)
Lemma position_negative_after_host_seek :
  demo_reachable (demo_run (Message "alice" seek_to_minus_5) alice_and_bob)
  /\ exists p,
       get_party "ABCDEF"
         (manager (demo_run (Message "alice" seek_to_minus_5) alice_and_bob))
       = Some p
       /\ Potluck.current_time p = VInt (-5)
       /\ py_nonneg (Potluck.current_time p) = false.
Proof.
  split.
  - apply reachable_step; [apply alice_and_bob_reachable | exact I].
  - eexists. split; [vm_compute; reflexivity|]. split; reflexivity.
Qed.

(** C6, amended, on the session playing at 10.0. *)
Lemma position_nonneg_when_commands_are_witness :
  reachable_via demo_uuid4 demo_utcnow never_fails time_nonneg playing_at_10
  /\ positions_ok (manager playing_at_10).
Proof.
  assert (Hr : reachable_via demo_uuid4 demo_utcnow never_fails time_nonneg
                             playing_at_10).
  { rewrite playing_at_10_eq. apply reachable_step.
    - rewrite alice_and_bob_eq. apply reachable_step; [|exact I].
      rewrite alice_alone_eq. apply reachable_step; [|exact I].
      now apply reachable_init.
    - intros _ _ v Hv. simpl in Hv. injection Hv as <-. reflexivity. }
  split; [exact Hr|].
  exact (position_nonneg_when_commands_are demo_uuid4 demo_utcnow never_fails
           playing_at_10 Hr).
Defined.

(** C7 fails as stated: the host's seek without a [time] is not dropped.
    The session playing at 10.0 is set to position 0 and Bob is sent a
    sync directive. *)
Lemma seek_without_time_is_not_dropped :
  (exists p, get_party "ABCDEF" (manager playing_at_10) = Some p
             /\ Potluck.current_time p = VFloat 10)
  /\ (exists p,
         get_party "ABCDEF"
           (manager (snd (demo_handle_message "alice" seek_without_time
                                              playing_at_10)))
         = Some p
         /\ Potluck.current_time p = VInt 0)
  /\ wire (snd (demo_handle_message "alice" seek_without_time playing_at_10))
     = (wire playing_at_10
        ++ [(2, VDict [("type", VStr "sync"); ("is_playing", VBool true);
                       ("current_time", VInt 0);
                       ("playback_rate", VFloat 1)], true)])%list.
Proof.
  split; [|split].
  - eexists. split; [vm_compute; reflexivity | reflexivity].
  - eexists. split; [vm_compute; reflexivity | reflexivity].
  - vm_compute. reflexivity.
Qed.

Definition alice_record : PartyMember.t :=
  PartyMember.mk "alice" "Alice" 1 true "2024-05-01T20:00:00+00:00"
                 (VBool true) (VFloat 0).

(** C7, amended, on the same event: it is handled as a seek to 0. *)
Lemma missing_field_takes_default_witness :
  demo_handle_message "alice" seek_without_time playing_at_10
  = demo_handle_message "alice" (dict_set "time" (VInt 0) seek_without_time)
                        playing_at_10.
Proof.
  refine (proj1 (proj1
    (missing_field_takes_default demo_uuid4 demo_utcnow never_fails "alice"
       seek_without_time playing_at_10 "ABCDEF"
       party_at_10
       alice_record "seek" _ _ _ _) _) _);
    try reflexivity.
  now left.
Defined.

(** ** The further properties on the same session *)

Definition demo_leave_party : string -> M bool :=
  leave_party demo_uuid4 demo_utcnow never_fails.

Definition demo_join_party
  : string -> string -> string -> WebSocket -> M (option Potluck.t) :=
  join_party demo_uuid4 demo_utcnow never_fails.

Definition demo_create_party
  : nat -> string -> string -> string -> string -> string -> WebSocket ->
    M Potluck.t :=
  create_party demo_uuid4 demo_utcnow never_fails.

Lemma demo_uuid4_bytes n : 6 <= List.length (uuid_bytes (demo_uuid4 n)).
Proof.
  unfold demo_uuid4. cbn [uuid_bytes]. rewrite length_map, length_seq. lia.
Qed.

Definition hello : ChatMessage.t :=
  ChatMessage.mk "id-1" "bob" "Bob" (VStr "hello")
                 "2024-05-01T20:05:00+00:00" "chat".

(** X1 on the session of Alice and Bob: the new entry comes last. *)
Lemma add_chat_message_evicts_oldest_witness :
  List.length (Potluck.chat_history
                 (Potluck.add_chat_message hello party_of_two))
  = Nat.min (Potluck.max_chat_history party_of_two)
            (S (List.length (Potluck.chat_history party_of_two))).
Proof.
  refine (proj2 (add_chat_message_evicts_oldest hello party_of_two _)).
  vm_compute. lia.
Defined.

(** X2 on the session of Alice and Bob. *)
Lemma chat_log_capped_witness :
  List.length (Potluck.chat_history party_of_two) <= 100.
Proof.
  refine (chat_log_capped demo_uuid4 demo_utcnow never_fails alice_and_bob
            "ABCDEF" party_of_two alice_and_bob_reachable _).
  reflexivity.
Defined.

(** X3 on the session playing at 10.0. *)
Lemma settings_never_change_witness :
  Potluck.playback_rate party_at_10 = 1%float
  /\ Potluck.sync_threshold party_at_10 = 2%float
  /\ Potluck.require_ready party_at_10 = true
  /\ Potluck.max_chat_history party_at_10 = 100.
Proof.
  refine (settings_never_change demo_uuid4 demo_utcnow never_fails
            playing_at_10 "ABCDEF" party_at_10 playing_at_10_reachable _).
  reflexivity.
Defined.

(** X4 on the first draw. *)
Lemma generate_party_code_shape_witness :
  exists code,
    generate_party_code demo_uuid4 fresh_world
    = (Ret code, next_tick fresh_world)
    /\ String.length code = 6
    /\ Forall code_char_ok (list_ascii_of_string code)
    /\ upper code = code.
Proof.
  apply (generate_party_code_shape demo_uuid4 fresh_world).
  apply demo_uuid4_bytes.
Defined.

(** A source of UUIDs that repeats itself: every draw gives ABCDEF. *)
Definition same_uuid4 (n : nat) : UUID := demo_uuid4 0.

(** X5: with a repeating source, Carol's [create_party] draws the code of
    Alice's session four times and gives up. *)
Lemma create_party_gives_up_only_when_codes_taken_witness :
  fst (create_party same_uuid4 demo_utcnow never_fails 3
                    "carol" "Carol" "tt0068646" "Movie Y" "movie" 3
                    alice_alone)
  = Diverge
  /\ dict_mem
       (party_code
          (same_uuid4
             (tick (left same_uuid4 demo_utcnow never_fails "carol"
                         alice_alone) + 2)))
       (parties (manager (left same_uuid4 demo_utcnow never_fails "carol"
                               alice_alone)))
     = true.
Proof.
  assert (H : fst (create_party same_uuid4 demo_utcnow never_fails 3
                     "carol" "Carol" "tt0068646" "Movie Y" "movie" 3
                     alice_alone) = Diverge)
    by (vm_compute; reflexivity).
  split; [exact H|].
  apply (create_party_gives_up_only_when_codes_taken
           same_uuid4 demo_utcnow never_fails 3
           "carol" "Carol" "tt0068646" "Movie Y" "movie" 3 alice_alone H 2).
  lia.
Defined.

(** X6 on the session of Alice and Bob. *)
Lemma registered_codes_well_formed_witness :
  Potluck.party_id party_of_two = "ABCDEF"
  /\ String.length "ABCDEF" = 6
  /\ Forall code_char_ok (list_ascii_of_string "ABCDEF").
Proof.
  refine (registered_codes_well_formed demo_uuid4 demo_utcnow never_fails
            alice_and_bob "ABCDEF" party_of_two demo_uuid4_bytes
            alice_and_bob_reachable _).
  reflexivity.
Defined.

(** X7: Carol, who is in no session, leaves. *)
Lemma leave_party_without_session_witness :
  demo_leave_party "carol" alice_and_bob = (Ret false, alice_and_bob).
Proof.
  apply (leave_party_without_session demo_uuid4 demo_utcnow never_fails
           "carol" alice_and_bob).
  reflexivity.
Defined.

(** X8: Bob leaves the session of Alice and Bob. *)
Lemma leave_party_leaves_no_trace_witness :
  dict_get "bob"
    (user_party_map (manager (snd (demo_leave_party "bob" alice_and_bob))))
  = None.
Proof.
  refine (proj1 (leave_party_leaves_no_trace demo_uuid4 demo_utcnow
                   never_fails "bob" alice_and_bob _)).
  intros pid p Hp Hm. unfold alice_and_bob in Hp.
  cbn [dict_get manager parties] in Hp.
  destruct (String.eqb "ABCDEF" pid) eqn:E; [|discriminate].
  apply String.eqb_eq in E. subst pid. reflexivity.
Defined.

(** X9: Bob leaves; Alice keeps her index entry. *)
Lemma leave_party_touches_own_session_only_witness :
  dict_get "alice"
    (user_party_map (manager (snd (demo_leave_party "bob" alice_and_bob))))
  = dict_get "alice" (user_party_map (manager alice_and_bob)).
Proof.
  apply (proj2 (leave_party_touches_own_session_only demo_uuid4 demo_utcnow
                  never_fails "bob" alice_and_bob) "alice").
  discriminate.
Defined.

(** X10: Alice, the host, leaves the session of Alice and Bob; Bob
    becomes the host. *)
Lemma host_leaves_first_member_promoted_witness :
  exists p',
    dict_get "ABCDEF"
      (parties (manager (snd (demo_leave_party "alice" alice_and_bob))))
    = Some p'
    /\ Potluck.host_id p' = "bob".
Proof.
  destruct (host_leaves_first_member_promoted demo_uuid4 demo_utcnow
              never_fails "alice" alice_and_bob "ABCDEF" party_of_two
              alice_record "bob" bob_record []
              eq_refl eq_refl eq_refl eq_refl eq_refl)
    as (p' & _ & _ & _ & _ & Hp & _ & Hh & _).
  exists p'. split; [exact Hp | exact Hh].
Defined.

(** X11: Bob, who is not the host, leaves the session of Alice and Bob. *)
Lemma member_leaves_session_stays_witness :
  exists p',
    dict_get "ABCDEF"
      (parties (manager (snd (demo_leave_party "bob" alice_and_bob))))
    = Some p'
    /\ Potluck.host_id p' = "alice"
    /\ dict_keys (Potluck.members p') = ["alice"].
Proof.
  assert (Hh : Potluck.host_id party_of_two <> "bob") by discriminate.
  destruct (member_leaves_session_stays demo_uuid4 demo_utcnow never_fails
              "bob" alice_and_bob "ABCDEF" party_of_two bob_record
              eq_refl eq_refl eq_refl Hh)
    as (p' & _ & _ & _ & _ & Hp & Hm & Hhost & _).
  exists p'. split; [exact Hp|]. split; [exact Hhost|].
  rewrite Hm. reflexivity.
Defined.

(** X12: Alice creates the first session. *)
Lemma create_party_new_session_witness :
  exists p',
    fst (demo_create_party 0 "alice" "Alice" "tt0111161" "Movie X" "movie" 1
                           fresh_world)
    = Ret p'
    /\ Potluck.party_id p' = "ABCDEF"
    /\ Potluck.host_id p' = "alice".
Proof.
  destruct (create_party_new_session demo_uuid4 demo_utcnow never_fails
              0 "alice" "Alice" "tt0111161" "Movie X" "movie" 1 fresh_world
              eq_refl)
    as (p' & _ & _ & Hr & _ & _ & Hid & Hh & _).
  exists p'. split; [exact Hr|]. split; [exact Hid | exact Hh].
Defined.

(** X13: Carol creates a session of her own; the session of Alice and Bob
    stays as it is. *)
Lemma create_party_keeps_other_sessions_witness :
  dict_get "ABCDEF"
    (parties (manager (snd (demo_create_party 0 "carol" "Carol" "tt0068646"
                              "Movie Y" "movie" 3 alice_and_bob))))
  = Some party_of_two.
Proof.
  apply (proj1 (create_party_keeps_other_sessions demo_uuid4 demo_utcnow
                  never_fails 0 "carol" "Carol" "tt0068646" "Movie Y"
                  "movie" 3 alice_and_bob) "ABCDEF" party_of_two).
  reflexivity.
Defined.

(** X14: Bob tries a code nobody has. *)
Lemma join_party_unknown_code_witness :
  demo_join_party "zzzzzz" "bob" "Bob" 2 alice_alone
  = (Ret None, alice_alone).
Proof.
  apply (join_party_unknown_code demo_uuid4 demo_utcnow never_fails
           "zzzzzz" "bob" "Bob" 2 alice_alone); [reflexivity|].
  intros pid Hpid.
  rewrite <- (string_of_list_ascii_of_string pid), Hpid. reflexivity.
Defined.

(** X15: Bob joins Alice's session. *)
Lemma join_party_welcomes_the_joiner_witness :
  exists p',
    fst (demo_join_party "abcdef" "bob" "Bob" 2 alice_alone) = Ret (Some p')
    /\ dict_keys (Potluck.members p') = ["alice"; "bob"]
    /\ Potluck.host_id p' = "alice".
Proof.
  assert (H0 : dict_get (upper "abcdef") (parties (manager alice_alone))
               <> None) by discriminate.
  destruct (join_party_welcomes_the_joiner demo_uuid4 demo_utcnow never_fails
              "abcdef" "bob" "Bob" 2 alice_alone party_of_alice
              H0 eq_refl eq_refl)
    as (p' & ja & _ & _ & _ & _ & _ & _ & _ & Hr & _ & _ & Hm & Hh & _).
  exists p'. split; [exact Hr|]. split; [|exact Hh].
  rewrite Hm. reflexivity.
Defined.

Definition bob_says_hello : dict pyval :=
  [("type", VStr "chat"); ("message", VStr "hello")].

(** X16: Bob says hello; Alice and Bob are sent the entry. *)
Lemma chat_is_logged_and_broadcast_witness :
  exists ds,
    wire (snd (demo_handle_message "bob" bob_says_hello playing_at_10))
    = (wire playing_at_10 ++ ds)%list
    /\ targets ds = [1; 2].
Proof.
  destruct (chat_is_logged_and_broadcast demo_uuid4 demo_utcnow never_fails
              "bob" bob_says_hello playing_at_10 "ABCDEF" party_at_10
              bob_record "hello" eq_refl eq_refl eq_refl eq_refl eq_refl)
    as (_ & _ & ds & _ & _ & _ & _ & _ & _ & Hw & Ht & _).
  exists ds. split; [exact Hw | exact Ht].
Defined.

(** X17: Bob sends a chat whose message is the number 5. *)
Lemma chat_with_unsliceable_message_raises_witness :
  demo_handle_message "bob" [("type", VStr "chat"); ("message", VInt 5)]
                      playing_at_10
  = (Raise TypeError, next_tick playing_at_10).
Proof.
  exact (chat_with_unsliceable_message_raises demo_uuid4 demo_utcnow
           never_fails "bob" [("type", VStr "chat"); ("message", VInt 5)]
           playing_at_10 "ABCDEF" party_at_10 bob_record (VInt 5)
           eq_refl eq_refl eq_refl eq_refl eq_refl I).
Defined.

(** X18: Bob reacts; the registry stays as it is. *)
Lemma reaction_is_broadcast_not_logged_witness :
  exists ds,
    manager (snd (demo_handle_message "bob" [("type", VStr "reaction")]
                                      playing_at_10))
    = manager playing_at_10
    /\ wire (snd (demo_handle_message "bob" [("type", VStr "reaction")]
                                      playing_at_10))
       = (wire playing_at_10 ++ ds)%list
    /\ targets ds = [1; 2].
Proof.
  destruct (reaction_is_broadcast_not_logged demo_uuid4 demo_utcnow
              never_fails "bob" [("type", VStr "reaction")] playing_at_10
              "ABCDEF" party_at_10 bob_record
              eq_refl eq_refl eq_refl eq_refl)
    as (ds & _ & Hg & _ & Hw & Ht & _).
  exists ds. split; [exact Hg|]. split; [exact Hw | exact Ht].
Defined.

(** X19: Bob reports ready without a payload. *)
Lemma ready_sets_own_flag_witness :
  dict_get "bob"
    (Potluck.members
       (update_member "bob" (PartyMember.set_is_ready (VBool true) bob_record)
                      party_at_10))
  = Some (PartyMember.set_is_ready (VBool true) bob_record).
Proof.
  destruct (ready_sets_own_flag demo_uuid4 demo_utcnow never_fails
              "bob" [("type", VStr "ready")] playing_at_10
              "ABCDEF" party_at_10 bob_record
              eq_refl eq_refl eq_refl eq_refl)
    as (ds & _ & _ & Hm & _).
  exact Hm.
Defined.

Definition alice_seeks_to_42 : dict pyval :=
  [("type", VStr "seek"); ("time", VFloat 42)].

(** X20: Alice seeks to 42.0; only Bob is sent the directive. *)
Lemma host_seek_syncs_the_others_witness :
  exists ds,
    wire (snd (demo_handle_message "alice" alice_seeks_to_42 playing_at_10))
    = (wire playing_at_10 ++ ds)%list
    /\ targets ds = [2].
Proof.
  destruct (host_seek_syncs_the_others demo_uuid4 demo_utcnow never_fails
              "alice" alice_seeks_to_42 playing_at_10 "ABCDEF" party_at_10
              alice_record eq_refl eq_refl eq_refl eq_refl eq_refl)
    as (ds & _ & _ & Hw & Ht & _).
  exists ds. split; [exact Hw|]. apply Ht. discriminate.
Defined.

(** X21: Alice pauses; Alice and Bob are sent the directive. *)
Lemma host_play_pause_syncs_everyone_witness :
  exists ds,
    wire (snd (demo_handle_message "alice" [("type", VStr "pause")]
                                   playing_at_10))
    = (wire playing_at_10 ++ ds)%list
    /\ targets ds = [1; 2].
Proof.
  destruct (host_play_pause_syncs_everyone demo_uuid4 demo_utcnow
              never_fails "alice" [("type", VStr "pause")] playing_at_10
              "ABCDEF" party_at_10 alice_record "pause" false
              eq_refl eq_refl eq_refl eq_refl eq_refl
              (or_intror (conj eq_refl eq_refl)))
    as (ds & _ & _ & Hw & Ht & _).
  exists ds. split; [exact Hw | exact Ht].
Defined.

(** X22: Carol, who is in no session, sends a seek. *)
Lemma event_without_session_is_dropped_witness :
  demo_handle_message "carol" alice_seeks_to_42 playing_at_10
  = (Ret tt, playing_at_10).
Proof.
  apply (event_without_session_is_dropped demo_uuid4 demo_utcnow never_fails
           "carol" alice_seeks_to_42 playing_at_10).
  reflexivity.
Defined.

(** X24: the listing of the one session of Alice and Bob. *)
Lemma list_public_parties_sorted_and_bounded_witness :
  List.length (list_public_parties 20 (manager alice_and_bob))
  = Nat.min (Z.to_nat 20) (List.length (parties (manager alice_and_bob))).
Proof.
  apply (proj1 (proj2 (proj2
           (list_public_parties_sorted_and_bounded 20
              (manager alice_and_bob))))).
  lia.
Defined.

(** ** The same session with calls that interleave *)

Definition demo_play : list Async.event -> Async.System -> Async.System :=
  Async.play demo_uuid4 demo_utcnow never_fails.

Definition carol_joins : op := Join "ABCDEF" "carol" "Carol" 3.

Definition carol_creates : op :=
  Create 0 "carol" "Carol" "tt0068646" "Movie Y" "movie" 3.

(** Run one call at a time, the interleaved model goes through the worlds
    of the session played through above. *)
Example one_at_a_time_agrees :
  Async.flat (Async.memory
                (demo_play [Async.Start alice_creates; Async.Finish 0]
                           Async.boot))
  = alice_alone
  /\ Async.flat (Async.memory
                   (demo_play [Async.Start alice_creates; Async.Finish 0;
                               Async.Start bob_joins; Async.Finish 1]
                              Async.boot))
     = alice_and_bob
  /\ Async.flat (Async.memory
                   (demo_play [Async.Start alice_creates; Async.Finish 0;
                               Async.Start bob_joins; Async.Finish 1;
                               Async.Start alice_plays_at_10; Async.Finish 2]
                              Async.boot))
     = playing_at_10.
Proof. repeat split; vm_compute; reflexivity. Qed.







(** The session of Alice, Bob, Carol and Dave, as the interleaved model
    has it. *)
Definition dave_joins : op := Join "ABCDEF" "dave" "Dave" 4.

Definition four_members : Async.Memory :=
  Eval vm_compute in
    Async.memory
      (demo_play [Async.Start alice_creates; Async.Finish 0;
                  Async.Start bob_joins; Async.Finish 1;
                  Async.Start carol_joins; Async.Finish 2;
                  Async.Start dave_joins; Async.Finish 3]
                 Async.boot).

Definition party_of_four : Async.Cell :=
  Eval vm_compute in
    nth 0 (Async.heap four_members)
        {| Async.obj := Potluck.new "" "" "" "" "" ""; Async.epoch := 0 |}.


Definition ping : pyval := VDict [("type", VStr "ping")].






(** The session of Alice and Bob, as the interleaved model has it. *)
Definition two_members : Async.Memory :=
  Eval vm_compute in
    Async.memory
      (demo_play [Async.Start alice_creates; Async.Finish 0;
                  Async.Start bob_joins; Async.Finish 1]
                 Async.boot).

Definition party_of_two_members : Async.Cell :=
  Eval vm_compute in
    nth 0 (Async.heap two_members)
        {| Async.obj := Potluck.new "" "" "" "" "" ""; Async.epoch := 0 |}.

(** What the rest of the program does while a call waits: Carol leaves. *)
Definition carol_leaves (m : Async.Memory) : Async.Memory :=
  snd (Async.run_among (fun m => m)
         (Async.leave_party demo_uuid4 demo_utcnow never_fails "carol") m).

(** X27 on the session of Alice, Bob, Carol and Dave: Carol leaves while
    the broadcast waits in its first send. *)
Lemma broadcast_raises_on_resized_roster_witness :
  fst (Async.run_among carol_leaves
         (Async._broadcast never_fails 0 ping None) four_members)
  = Async.Done (Raise RuntimeError).
Proof.
  refine (f_equal fst
            (broadcast_raises_on_resized_roster never_fails carol_leaves
               0 ping four_members party_of_four "alice" alice_record _
               eq_refl eq_refl _)).
  eexists. split; [vm_compute; reflexivity|]. vm_compute. discriminate.
Defined.

(** X25 on the session of Alice and Bob: Alice's [leave_party] waits. *)
Lemma host_leave_waits_without_host_witness :
  exists resume m1,
    Async.leave_party demo_uuid4 demo_utcnow never_fails "alice" two_members
    = (Async.Await resume, m1)
    /\ dict_get "alice" (Async.user_party_map m1) = None.
Proof.
  destruct (host_leave_waits_without_host demo_uuid4 demo_utcnow never_fails
              "alice" two_members "ABCDEF" 0 party_of_two_members
              alice_record eq_refl eq_refl eq_refl eq_refl eq_refl)
    as (resume & m1 & c1 & Hw & _ & Hi & _).
  - vm_compute. discriminate.
  - exists resume, m1. split; [exact Hw | exact Hi].
Defined.

(** The public listing taken while Alice's [leave_party] waits. *)
Example listing_while_the_host_leaves :
  list_public_parties 20
    (Async.view
       (Async.memory
          (demo_play [Async.Start alice_creates; Async.Finish 0;
                      Async.Start bob_joins; Async.Finish 1;
                      Async.Start (Leave "alice")]
                     Async.boot)))
  = [VDict [("party_id", VStr "ABCDEF"); ("media_title", VStr "Movie X");
            ("media_type", VStr "movie"); ("member_count", VInt 1);
            ("is_playing", VBool false); ("host", VStr "Unknown")]].
Proof. vm_compute. reflexivity. Qed.

(** A longer session, which goes through every branch of the four calls:
    three members, every kind of event, a member and then the host
    leaving, the last member joining the session again (which raises),
    an unknown code, a session created and closed, an event from
    nobody. *)
Definition script : list op :=
  [alice_creates; bob_joins; carol_joins;
   Message "bob" [("type", VStr "chat"); ("message", VStr "hello")];
   Message "carol" [("type", VStr "reaction")];
   Message "bob" [("type", VStr "ready")];
   Message "alice" [("type", VStr "seek"); ("time", VInt 42)];
   alice_plays_at_10;
   Message "bob" [("type", VStr "time_update"); ("time", VFloat 13)];
   Message "bob" [("type", VStr "seek"); ("time", VInt 7)];
   Message "carol" [("type", VStr "chat"); ("message", VInt 5)];
   Leave "carol"; Leave "alice";
   Join "abcdef" "bob" "Bob" 2;
   Join "zzzzzz" "bob" "Bob" 2;
   carol_creates; Leave "carol";
   Message "dave" [("type", VStr "pause")]].

(** The exception a call ends with, if any, in the first model. *)
Definition raised_by (o : op) (w : World) : option exn :=
  let of_outcome {A} (r : outcome A) : option exn :=
    match r with Raise e => Some e | _ => None end in
  match o with
  | Create fuel h hn mi mt ty ws =>
      of_outcome (fst (create_party demo_uuid4 demo_utcnow never_fails
                                    fuel h hn mi mt ty ws w))
  | Join pid u un ws =>
      of_outcome (fst (join_party demo_uuid4 demo_utcnow never_fails
                                  pid u un ws w))
  | Leave u =>
      of_outcome (fst (leave_party demo_uuid4 demo_utcnow never_fails u w))
  | Message u msg => of_outcome (fst (demo_handle_message u msg w))
  end.

(** The worlds the first model goes through, and how each call ended. *)
Fixpoint played (ops : list op) (w : World) : list (option exn * World) :=
  match ops with
  | [] => []
  | o :: r => (raised_by o w, demo_run o w) :: played r (demo_run o w)
  end.

(** The same for the interleaved model, each call run to its end before
    the next one starts. *)
Fixpoint played_one_at_a_time (ops : list op) (m : Async.Memory)
  : list (option exn * World) :=
  match ops with
  | [] => []
  | o :: r =>
      let (c, m') :=
        Async.run_among (fun m => m)
          (Async.call demo_uuid4 demo_utcnow never_fails o) m in
      (match c with Async.Done (Raise e) => Some e | _ => None end,
       Async.flat m')
        :: played_one_at_a_time r m'
  end.

Example one_at_a_time_agrees_throughout :
  played_one_at_a_time script (Async.memory Async.boot)
  = played script fresh_world
  /\ map fst (played script fresh_world)
     = [None; None; None; None; None; None; None; None; None; None;
        Some TypeError; None; None; Some KeyError; None; None; None; None].
Proof. split; vm_compute; reflexivity. Qed.
